(** * The ftrace configuration muxer (perfetto, [ftrace_config_muxer.cc])

    A shallow embedding of [FtraceConfigMuxer] and of the helpers of its
    translation unit, followed by the properties that the specification
    states about them.

    The muxer talks to three collaborators whose code lives in other
    translation units: the ftrace procfs wrapper ([FtraceProcfs]), the atrace
    launcher ([RunAtrace], [IsOldAtrace]) and the event translation table
    ([ProtoTranslationTable]).  They are taken as a [Platform]: an abstract
    kernel state [W] and an abstract table state [T] with the operations the
    muxer calls on them.  Every call that writes to procfs or launches atrace
    is recorded, with its result, in a log.

    Logging ([PERFETTO_ELOG], [PERFETTO_DLOG], ...) has no effect on the
    muxer and is left out.  [PERFETTO_DCHECK] is compiled out of release
    builds and is left out too; the one place where the code goes on to
    dereference a pointer that the check guards is modelled as undefined
    behaviour. *)

From Stdlib Require Import String Ascii NArith List Bool Lia.
From stdpp Require Import gmap strings sorting.
Import ListNotations.
Local Open Scope string_scope.
Local Open Scope list_scope.

(** ** Strings, sets and the STL algorithms the file uses *)

(** [std::string] compares bytes as unsigned characters, which is what
    [String.leb], [String.ltb] and the order [String.le] do. *)

(** A [GroupAndName] is ordered by group, then by name. *)
Definition GroupAndName : Type := string * string.

Definition gn_leb (a b : GroupAndName) : bool :=
  match String.compare (fst a) (fst b) with
  | Lt => true
  | Eq => String.leb (snd a) (snd b)
  | Gt => false
  end.

Definition gn_le (a b : GroupAndName) : Prop := gn_leb a b = true.

#[global] Instance gn_le_dec (a b : GroupAndName) : Decision (gn_le a b).
Proof. unfold gn_le. apply _. Defined.

(** Iterating over a [std::set] visits its elements in increasing order. *)
Definition ordered {A : Type} `{Countable A} (R : relation A)
    `{forall x y, Decision (R x y)} (X : gset A) : list A :=
  merge_sort R (elements X).

(** [std::sort] on a vector of strings. *)
Definition std_sort (v : list string) : list string := merge_sort String.le v.

(** [std::set_union] on two sorted ranges: an element found [m] times in the
    first range and [n] times in the second is copied [max m n] times. *)
Fixpoint set_union (a : list string) : list string -> list string :=
  fix go (b : list string) : list string :=
    match a, b with
    | [], _ => b
    | _, [] => a
    | x :: a', y :: b' =>
        if String.ltb y x then y :: go b'
        else x :: (if String.ltb x y then set_union a' b else set_union a' b')
    end.

(** [std::set_intersection] on two sorted ranges; the elements copied come
    from the first range. *)
Fixpoint set_intersection (a : list string) : list string -> list string :=
  fix go (b : list string) : list string :=
    match a, b with
    | x :: a', y :: b' =>
        if String.ltb x y then set_intersection a' b
        else if String.ltb y x then go b'
        else x :: set_intersection a' b'
    | _, _ => []
    end.

(** [UnionInPlace(unsorted_a, out)]: the new value of [*out]. *)
Definition UnionInPlace (unsorted_a out : list string) : list string :=
  let a := std_sort unsorted_a in
  let out := std_sort out in
  set_union a out.

(** [IntersectInPlace(unsorted_a, out)]: the new value of [*out]. *)
Definition IntersectInPlace (unsorted_a out : list string) : list string :=
  let a := std_sort unsorted_a in
  let out := std_sort out in
  set_intersection a out.

(** [EventToStringGroupAndName]: split at the first slash. *)
Definition EventToStringGroupAndName (event : string) : string * string :=
  match String.index 0 "/" event with
  | None => ("", event)
  | Some slash_pos =>
      (String.substring 0 slash_pos event,
       String.substring (S slash_pos)
         (String.length event - S slash_pos) event)
  end.

(** ** Buffer sizing *)

Definition kDefaultPerCpuBufferSizeKb : N := 2 * 1024.
Definition kMaxPerCpuBufferSizeKb : N := 64 * 1024.

(** The three clocks, in preference order. *)
Definition kClocks : list string := ["boot"; "global"; "local"].

(** [ComputeCpuBufferSizeInPages].  [base::kPageSize] is declared in a header
    outside this file and is taken as the first argument. *)
Definition ComputeCpuBufferSizeInPages
    (kPageSize requested_buffer_size_kb : N) : N :=
  let requested_buffer_size_kb :=
    if (requested_buffer_size_kb =? 0)%N then kDefaultPerCpuBufferSizeKb
    else requested_buffer_size_kb in
  let requested_buffer_size_kb :=
    if (kMaxPerCpuBufferSizeKb <? requested_buffer_size_kb)%N
    then kMaxPerCpuBufferSizeKb
    else requested_buffer_size_kb in
  let pages := (requested_buffer_size_kb / (kPageSize / 1024))%N in
  if (pages =? 0)%N then 1%N else pages.

(** The second post-condition written above the function in the source,
    [result * 4 < kMaxTotalBufferSizeKb], read with the 64 MiB cap of this
    file and 4 KiB pages. *)
Definition buffer_below_cap (requested_buffer_size_kb : N) : Prop :=
  (ComputeCpuBufferSizeInPages 4096 requested_buffer_size_kb * 4
   < kMaxPerCpuBufferSizeKb)%N.

(** ** Data model *)

Inductive FtraceClock : Type :=
| FTRACE_CLOCK_UNSPECIFIED
| FTRACE_CLOCK_UNKNOWN
| FTRACE_CLOCK_GLOBAL
| FTRACE_CLOCK_LOCAL.

(** An [Event] of the translation table, with the fields the muxer reads. *)
Module Event.
Record t : Type := mk {
  name : string;
  group : string;
  ftrace_event_id : N;
}.
End Event.

(** Modelled from the spec: [EventFilter] is declared in another translation
    unit; the spec gives it as a set of numeric event ids with the operations
    Add, Disable, Contains, UnionFrom and Enumerate.  [GetEnabledEvents]
    returns a [std::set<size_t>], iterated in increasing order. *)
Module EventFilter.
Definition t : Type := gset N.
Definition empty : t := ∅.
Definition AddEnabledEvent (ftrace_event_id : N) (f : t) : t :=
  {[ ftrace_event_id ]} ∪ f.
Definition DisableEvent (ftrace_event_id : N) (f : t) : t :=
  f ∖ {[ ftrace_event_id ]}.
Definition IsEventEnabled (ftrace_event_id : N) (f : t) : bool :=
  bool_decide (ftrace_event_id ∈ f).
Definition GetEnabledEvents (f : t) : list N := ordered N.le f.
Definition EnableEventsFrom (other : t) (f : t) : t := f ∪ other.
End EventFilter.

(** The request.  The compact-sched hints are an opaque pass-through and are
    carried as a number. *)
Module FtraceConfig.
Record t : Type := mk {
  ftrace_events : list string;
  atrace_categories : list string;
  atrace_apps : list string;
  buffer_size_kb : N;
  symbolize_ksyms : bool;
  compact_sched : N;
}.
End FtraceConfig.

(** The record kept per configuration, in the order of the arguments of the
    [emplace] in [SetupConfig]. *)
Module FtraceDataSourceConfig.
Record t : Type := mk {
  event_filter : EventFilter.t;
  compact_sched : N;
  atrace_apps : list string;
  atrace_categories : list string;
  symbolize_ksyms : bool;
}.
End FtraceDataSourceConfig.

(** [current_state_]. *)
Module FtraceState.
Record t : Type := mk {
  ftrace_events : EventFilter.t;
  atrace_apps : list string;
  atrace_categories : list string;
  atrace_on : bool;
  cpu_buffer_size_pages : N;
  ftrace_clock : FtraceClock;
}.
Definition set_ftrace_events (v : EventFilter.t) (s : t) : t :=
  mk v (atrace_apps s) (atrace_categories s) (atrace_on s)
     (cpu_buffer_size_pages s) (ftrace_clock s).
Definition set_atrace_apps (v : list string) (s : t) : t :=
  mk (ftrace_events s) v (atrace_categories s) (atrace_on s)
     (cpu_buffer_size_pages s) (ftrace_clock s).
Definition set_atrace_categories (v : list string) (s : t) : t :=
  mk (ftrace_events s) (atrace_apps s) v (atrace_on s)
     (cpu_buffer_size_pages s) (ftrace_clock s).
Definition set_atrace_on (v : bool) (s : t) : t :=
  mk (ftrace_events s) (atrace_apps s) (atrace_categories s) v
     (cpu_buffer_size_pages s) (ftrace_clock s).
Definition set_cpu_buffer_size_pages (v : N) (s : t) : t :=
  mk (ftrace_events s) (atrace_apps s) (atrace_categories s) (atrace_on s)
     v (ftrace_clock s).
Definition set_ftrace_clock (v : FtraceClock) (s : t) : t :=
  mk (ftrace_events s) (atrace_apps s) (atrace_categories s) (atrace_on s)
     (cpu_buffer_size_pages s) v.
(** Modelled from the spec: the default-constructed state (its declaration
    is in the header): nothing enabled, atrace off. *)
Definition initial : t :=
  mk EventFilter.empty [] [] false 0%N FTRACE_CLOCK_UNSPECIFIED.
End FtraceState.

(** Modelled from the spec: [FtraceConfigId] and the first value of
    [last_id_] are declared in the header of the class, which is not part of
    this file; the spec gives the ids as integers that start at 0 and only
    grow, and they are natural numbers here.  The other members are those the
    code of the class uses. *)
Record Muxer : Type := mkMuxer {
  current_state_ : FtraceState.t;
  ds_configs_ : gmap N FtraceDataSourceConfig.t;
  active_configs_ : gset N;
  last_id_ : N;
  vendor_events_ : gmap string (list GroupAndName);
}.

Definition set_current_state_ (v : FtraceState.t) (m : Muxer) : Muxer :=
  mkMuxer v (ds_configs_ m) (active_configs_ m) (last_id_ m) (vendor_events_ m).
Definition set_ds_configs_ (v : gmap N FtraceDataSourceConfig.t) (m : Muxer)
    : Muxer :=
  mkMuxer (current_state_ m) v (active_configs_ m) (last_id_ m)
    (vendor_events_ m).
Definition set_active_configs_ (v : gset N) (m : Muxer) : Muxer :=
  mkMuxer (current_state_ m) (ds_configs_ m) v (last_id_ m) (vendor_events_ m).
Definition set_last_id_ (v : N) (m : Muxer) : Muxer :=
  mkMuxer (current_state_ m) (ds_configs_ m) (active_configs_ m) v
    (vendor_events_ m).

(** The constructor. *)
Definition FtraceConfigMuxer
    (vendor_events : gmap string (list GroupAndName)) : Muxer :=
  mkMuxer FtraceState.initial ∅ ∅ 0%N vendor_events.

(** ** The collaborators *)

(** The calls that write to procfs or launch atrace. *)
Module Call.
Inductive t : Type :=
| EnableTracing
| DisableTracing
| SetCpuBufferSizeInPages (pages : N)
| DisableAllEvents
| ClearTrace
| SetClock (clock : string)
| EnableEvent (group name : string)
| DisableEvent (group name : string)
| RunAtrace (args : list string).
End Call.

(** Modelled from the spec: the procfs capability, the atrace helper and the
    translation table of section 6, none of which is defined in this file.
    [perform c w] is the result of the write or launch [c] on the kernel [w]
    and the kernel after it; the reads leave the kernel as it is.
    [GetOrCreateEvent] may add an event to the table. *)
Record Platform (W T : Type) : Type := mkPlatform {
  IsOldAtrace : bool;
  kPageSize : N;
  IsTracingEnabled : W -> bool;
  GetClock : W -> string;
  AvailableClocks : W -> gset string;
  GetEventNamesForGroup : string -> W -> gset string;
  perform : Call.t -> W -> bool * W;
  GetEventByName : string -> T -> option Event.t;
  GetEventById : N -> T -> option Event.t;
  GetEventsByGroup : string -> T -> option (list Event.t);
  GetOrCreateEvent : GroupAndName -> T -> option Event.t * T;
  CreateCompactSchedConfig : FtraceConfig.t -> T -> N;
}.

Arguments IsOldAtrace {W T} _.
Arguments kPageSize {W T} _.
Arguments IsTracingEnabled {W T} _ _.
Arguments GetClock {W T} _ _.
Arguments AvailableClocks {W T} _ _.
Arguments GetEventNamesForGroup {W T} _ _ _.
Arguments perform {W T} _ _ _.
Arguments GetEventByName {W T} _ _ _.
Arguments GetEventById {W T} _ _ _.
Arguments GetEventsByGroup {W T} _ _ _.
Arguments GetOrCreateEvent {W T} _ _ _.
Arguments CreateCompactSchedConfig {W T} _ _ _.

(** Modelled from the spec: [RequiresAtrace] is defined in another file; a
    request requires atrace when it has categories or apps. *)
Definition RequiresAtrace (request : FtraceConfig.t) : bool :=
  negb (bool_decide (FtraceConfig.atrace_categories request = []))
  || negb (bool_decide (FtraceConfig.atrace_apps request = [])).

(** ** The atrace category table *)

(** One statement of a category block of [GetFtraceEvents]. *)
Inductive Insertion : Type :=
| AddGroup (group : string)
| Insert (group name : string).

(** The blocks of the [if (category == ...)] chain, statement by statement. *)
Definition category_insertions (category : string) : list Insertion :=
  if String.eqb category "gfx" then
    [ AddGroup "mdss";
      Insert "mdss" "rotator_bw_ao_as_context";
      Insert "mdss" "mdp_trace_counter";
      Insert "mdss" "tracing_mark_write";
      Insert "mdss" "mdp_cmd_wait_pingpong";
      Insert "mdss" "mdp_cmd_kickoff";
      Insert "mdss" "mdp_cmd_release_bw";
      Insert "mdss" "mdp_cmd_readptr_done";
      Insert "mdss" "mdp_cmd_pingpong_done";
      Insert "mdss" "mdp_misr_crc";
      Insert "mdss" "mdp_compare_bw";
      Insert "mdss" "mdp_perf_update_bus";
      Insert "mdss" "mdp_video_underrun_done";
      Insert "mdss" "mdp_commit";
      Insert "mdss" "mdp_mixer_update";
      Insert "mdss" "mdp_perf_prefill_calc";
      Insert "mdss" "mdp_perf_set_ot";
      Insert "mdss" "mdp_perf_set_wm_levels";
      Insert "mdss" "mdp_perf_set_panic_luts";
      Insert "mdss" "mdp_perf_set_qos_luts";
      Insert "mdss" "mdp_sspp_change";
      Insert "mdss" "mdp_sspp_set";
      AddGroup "mali";
      Insert "mali" "tracing_mark_write";
      AddGroup "sde";
      Insert "sde" "tracing_mark_write";
      Insert "sde" "sde_perf_update_bus";
      Insert "sde" "sde_perf_set_qos_luts";
      Insert "sde" "sde_perf_set_ot";
      Insert "sde" "sde_perf_set_danger_luts";
      Insert "sde" "sde_perf_crtc_update";
      Insert "sde" "sde_perf_calc_crtc";
      Insert "sde" "sde_evtlog";
      Insert "sde" "sde_encoder_underrun";
      Insert "sde" "sde_cmd_release_bw";
      AddGroup "dpu";
      Insert "dpu" "tracing_mark_write";
      AddGroup "g2d";
      Insert "g2d" "tracing_mark_write";
      Insert "g2d" "g2d_perf_update_qos" ]
  else if String.eqb category "ion" then
    [ Insert "kmem" "ion_alloc_buffer_start" ]
  else if String.eqb category "sched" then
    [ Insert "sched" "sched_switch";
      Insert "sched" "sched_waking";
      Insert "sched" "sched_blocked_reason";
      Insert "sched" "sched_cpu_hotplug";
      Insert "sched" "sched_pi_setprio";
      Insert "sched" "sched_process_exit";
      AddGroup "cgroup";
      Insert "cgroup" "cgroup_transfer_tasks";
      Insert "cgroup" "cgroup_setup_root";
      Insert "cgroup" "cgroup_rmdir";
      Insert "cgroup" "cgroup_rename";
      Insert "cgroup" "cgroup_remount";
      Insert "cgroup" "cgroup_release";
      Insert "cgroup" "cgroup_mkdir";
      Insert "cgroup" "cgroup_destroy_root";
      Insert "cgroup" "cgroup_attach_task";
      Insert "oom" "oom_score_adj_update";
      Insert "task" "task_rename";
      Insert "task" "task_newtask";
      AddGroup "systrace";
      Insert "systrace" "0";
      AddGroup "scm";
      Insert "scm" "scm_call_start";
      Insert "scm" "scm_call_end" ]
  else if String.eqb category "irq" then
    [ AddGroup "irq";
      Insert "irq" "tasklet_hi_exit";
      Insert "irq" "tasklet_hi_entry";
      Insert "irq" "tasklet_exit";
      Insert "irq" "tasklet_entry";
      Insert "irq" "softirq_raise";
      Insert "irq" "softirq_exit";
      Insert "irq" "softirq_entry";
      Insert "irq" "irq_handler_exit";
      Insert "irq" "irq_handler_entry";
      AddGroup "ipi";
      Insert "ipi" "ipi_raise";
      Insert "ipi" "ipi_exit";
      Insert "ipi" "ipi_entry" ]
  else if String.eqb category "irqoff" then
    [ Insert "preemptirq" "irq_enable";
      Insert "preemptirq" "irq_disable" ]
  else if String.eqb category "preemptoff" then
    [ Insert "preemptirq" "preempt_enable";
      Insert "preemptirq" "preempt_disable" ]
  else if String.eqb category "i2c" then
    [ AddGroup "i2c";
      Insert "i2c" "i2c_read";
      Insert "i2c" "i2c_write";
      Insert "i2c" "i2c_result";
      Insert "i2c" "i2c_reply";
      Insert "i2c" "smbus_read";
      Insert "i2c" "smbus_write";
      Insert "i2c" "smbus_result";
      Insert "i2c" "smbus_reply" ]
  else if String.eqb category "freq" then
    [ Insert "power" "cpu_frequency";
      Insert "power" "gpu_frequency";
      Insert "power" "clock_set_rate";
      Insert "power" "clock_disable";
      Insert "power" "clock_enable";
      Insert "clk" "clk_set_rate";
      Insert "clk" "clk_disable";
      Insert "clk" "clk_enable";
      Insert "power" "cpu_frequency_limits";
      Insert "power" "suspend_resume";
      Insert "cpuhp" "cpuhp_enter";
      Insert "cpuhp" "cpuhp_exit";
      Insert "cpuhp" "cpuhp_pause";
      AddGroup "msm_bus";
      Insert "msm_bus" "bus_update_request_end";
      Insert "msm_bus" "bus_update_request";
      Insert "msm_bus" "bus_rules_matches";
      Insert "msm_bus" "bus_max_votes";
      Insert "msm_bus" "bus_client_status";
      Insert "msm_bus" "bus_bke_params";
      Insert "msm_bus" "bus_bimc_config_limiter";
      Insert "msm_bus" "bus_avail_bw";
      Insert "msm_bus" "bus_agg_bw" ]
  else if String.eqb category "membus" then
    [ AddGroup "memory_bus" ]
  else if String.eqb category "idle" then
    [ Insert "power" "cpu_idle" ]
  else if String.eqb category "disk" then
    [ Insert "f2fs" "f2fs_sync_file_enter";
      Insert "f2fs" "f2fs_sync_file_exit";
      Insert "f2fs" "f2fs_write_begin";
      Insert "f2fs" "f2fs_write_end";
      Insert "ext4" "ext4_da_write_begin";
      Insert "ext4" "ext4_da_write_end";
      Insert "ext4" "ext4_sync_file_enter";
      Insert "ext4" "ext4_sync_file_exit";
      Insert "block" "block_rq_issue";
      Insert "block" "block_rq_complete" ]
  else if String.eqb category "mmc" then
    [ AddGroup "mmc" ]
  else if String.eqb category "load" then
    [ AddGroup "cpufreq_interactive" ]
  else if String.eqb category "sync" then
    [ AddGroup "sync";
      Insert "sync" "sync_pt";
      Insert "sync" "sync_timeline";
      Insert "sync" "sync_wait";
      AddGroup "fence";
      Insert "fence" "fence_annotate_wait_on";
      Insert "fence" "fence_destroy";
      Insert "fence" "fence_emit";
      Insert "fence" "fence_enable_signal";
      Insert "fence" "fence_init";
      Insert "fence" "fence_signaled";
      Insert "fence" "fence_wait_end";
      Insert "fence" "fence_wait_start";
      AddGroup "dma_fence" ]
  else if String.eqb category "workq" then
    [ AddGroup "workqueue";
      Insert "workqueue" "workqueue_queue_work";
      Insert "workqueue" "workqueue_execute_start";
      Insert "workqueue" "workqueue_execute_end";
      Insert "workqueue" "workqueue_activate_work" ]
  else if String.eqb category "memreclaim" then
    [ Insert "vmscan" "mm_vmscan_direct_reclaim_begin";
      Insert "vmscan" "mm_vmscan_direct_reclaim_end";
      Insert "vmscan" "mm_vmscan_kswapd_wake";
      Insert "vmscan" "mm_vmscan_kswapd_sleep";
      AddGroup "lowmemorykiller";
      Insert "lowmemorykiller" "lowmemory_kill" ]
  else if String.eqb category "regulators" then
    [ AddGroup "regulator";
      Insert "regulator" "regulator_set_voltage_complete";
      Insert "regulator" "regulator_set_voltage";
      Insert "regulator" "regulator_enable_delay";
      Insert "regulator" "regulator_enable_complete";
      Insert "regulator" "regulator_enable";
      Insert "regulator" "regulator_disable_complete";
      Insert "regulator" "regulator_disable" ]
  else if String.eqb category "binder_driver" then
    [ Insert "binder" "binder_transaction";
      Insert "binder" "binder_transaction_received";
      Insert "binder" "binder_transaction_alloc_buf";
      Insert "binder" "binder_set_priority" ]
  else if String.eqb category "binder_lock" then
    [ Insert "binder" "binder_lock";
      Insert "binder" "binder_locked";
      Insert "binder" "binder_unlock" ]
  else if String.eqb category "pagecache" then
    [ AddGroup "filemap";
      Insert "filemap" "mm_filemap_delete_from_page_cache";
      Insert "filemap" "mm_filemap_add_to_page_cache";
      Insert "filemap" "filemap_set_wb_err";
      Insert "filemap" "file_check_and_advance_wb_err" ]
  else if String.eqb category "memory" then
    [ Insert "kmem" "rss_stat";
      Insert "kmem" "ion_heap_grow";
      Insert "kmem" "ion_heap_shrink";
      Insert "ion" "ion_stat";
      Insert "mm_event" "mm_event_record";
      Insert "dmabuf_heap" "dma_heap_stat" ]
  else if String.eqb category "thermal" then
    [ Insert "thermal" "thermal_temperature";
      Insert "thermal" "cdev_update" ]
  else [].

(** ** Running the muxer *)

(** What a member function can read and change: the muxer, the kernel, the
    table, and the log of writes and launches with their results. *)
Record Run (W T : Type) : Type := mkRun {
  mux : Muxer;
  kernel : W;
  table : T;
  log : list (Call.t * bool);
}.

Arguments mkRun {W T} _ _ _ _.
Arguments mux {W T} _.
Arguments kernel {W T} _.
Arguments table {W T} _.
Arguments log {W T} _.

(** A step either returns a value and the next state, or has no defined
    behaviour ([None]: a null pointer is dereferenced). *)
Definition M (W T A : Type) : Type := Run W T -> option (A * Run W T).

Definition ret {W T A : Type} (a : A) : M W T A := fun s => Some (a, s).

Definition bind {W T A B : Type} (c : M W T A) (k : A -> M W T B)
    : M W T B :=
  fun s => match c s with
           | Some (a, s') => k a s'
           | None => None
           end.

Notation "x <- c ;; k" := (bind c (fun x => k))
  (at level 100, c at next level, right associativity).
Notation "c ;;; k" := (bind c (fun _ => k))
  (at level 100, right associativity).

Definition undefined_behaviour {W T A : Type} : M W T A := fun _ => None.

Definition get_mux {W T : Type} : M W T Muxer := fun s => Some (mux s, s).

Definition put_mux {W T : Type} (m : Muxer) : M W T unit :=
  fun s => Some (tt, mkRun m (kernel s) (table s) (log s)).

Definition get_kernel {W T : Type} : M W T W := fun s => Some (kernel s, s).

Definition get_table {W T : Type} : M W T T := fun s => Some (table s, s).

(** Change [current_state_]. *)
Definition modify_state {W T : Type} (f : FtraceState.t -> FtraceState.t)
    : M W T unit :=
  m <- get_mux ;; put_mux (set_current_state_ (f (current_state_ m)) m).

Fixpoint for_each {W T A : Type} (l : list A) (body : A -> M W T unit)
    : M W T unit :=
  match l with
  | [] => ret tt
  | x :: l' => body x ;;; for_each l' body
  end.

Fixpoint fold_each {W T A B : Type} (l : list A) (body : B -> A -> M W T B)
    (b : B) : M W T B :=
  match l with
  | [] => ret b
  | x :: l' => b' <- body b x ;; fold_each l' body b'
  end.

Section Muxer.

Context {W T : Type} (P : Platform W T).

(** A write to procfs or a launch of atrace: the kernel moves on and the call
    is logged with its result. *)
Definition call (c : Call.t) : M W T bool :=
  fun s =>
    let r := perform P c (kernel s) in
    Some (fst r,
          mkRun (mux s) (snd r) (table s) (log s ++ [(c, fst r)])%list).

(** [table_->GetOrCreateEvent(group_and_name)]. *)
Definition get_or_create_event (group_and_name : GroupAndName)
    : M W T (option Event.t) :=
  fun s =>
    let r := GetOrCreateEvent P group_and_name (table s) in
    Some (fst r, mkRun (mux s) (kernel s) (snd r) (log s)).

(** *** The event resolver *)

Definition InsertEvent (group name : string) (dst : gset GroupAndName)
    : gset GroupAndName :=
  {[ (group, name) ]} ∪ dst.

Definition AddEventGroup (tbl : T) (group : string) (to : gset GroupAndName)
    : gset GroupAndName :=
  match GetEventsByGroup P group tbl with
  | None => to
  | Some events =>
      fold_left (fun to event => {[ (group, Event.name event) ]} ∪ to)
        events to
  end.

Definition ReadEventsInGroupFromFs (w : W) (group : string)
    : gset GroupAndName :=
  let names := GetEventNamesForGroup P ("events/" ++ group)%string w in
  fold_left (fun events name => {[ (group, name) ]} ∪ events)
    (ordered String.le names) ∅.

Definition apply_insertion (tbl : T) (events : gset GroupAndName)
    (i : Insertion) : gset GroupAndName :=
  match i with
  | AddGroup group => AddEventGroup tbl group events
  | Insert group name => InsertEvent group name events
  end.

(** The body of the loop over [request.ftrace_events()]. *)
Definition resolve_config_value (tbl : T) (w : W)
    (events : gset GroupAndName) (config_value : string)
    : gset GroupAndName :=
  let '(group, name) := EventToStringGroupAndName config_value in
  if String.eqb name "*" then
    fold_left (fun events event => {[ event ]} ∪ events)
      (ordered gn_le (ReadEventsInGroupFromFs w group)) events
  else if String.eqb group "" then
    match GetEventByName P name tbl with
    | None => events
    | Some e => {[ (Event.group e, Event.name e) ]} ∪ events
    end
  else {[ (group, name) ]} ∪ events.

(** The body of the loop over [request.atrace_categories()]. *)
Definition expand_category (tbl : T) (events : gset GroupAndName)
    (category : string) : gset GroupAndName :=
  fold_left (apply_insertion tbl) (category_insertions category) events.

Definition GetFtraceEvents (request : FtraceConfig.t) (tbl : T) (w : W)
    : gset GroupAndName :=
  let events :=
    fold_left (resolve_config_value tbl w)
      (FtraceConfig.ftrace_events request) ∅ in
  if RequiresAtrace request then
    let events := InsertEvent "ftrace" "print" events in
    fold_left (expand_category tbl)
      (FtraceConfig.atrace_categories request) events
  else events.

(** *** Clock and buffer setup *)

(** The loop of [SetupClock] over the clocks still to try; it returns the
    value of [current_clock] after the loop. *)
Fixpoint SetupClock_loop (to_try : list string) (clocks : gset string)
    (current_clock : string) : M W T string :=
  match to_try with
  | [] => ret current_clock
  | clock :: rest =>
      if negb (bool_decide (clock ∈ clocks)) then
        SetupClock_loop rest clocks current_clock
      else if String.eqb current_clock clock then ret current_clock
      else call (Call.SetClock clock) ;;; ret clock
  end.

Definition clock_of_name (current_clock : string) : FtraceClock :=
  if String.eqb current_clock "boot" then FTRACE_CLOCK_UNSPECIFIED
  else if String.eqb current_clock "global" then FTRACE_CLOCK_GLOBAL
  else if String.eqb current_clock "local" then FTRACE_CLOCK_LOCAL
  else FTRACE_CLOCK_UNKNOWN.

Definition SetupClock (request : FtraceConfig.t) : M W T unit :=
  w <- get_kernel ;;
  let current_clock := GetClock P w in
  let clocks := AvailableClocks P w in
  current_clock <- SetupClock_loop kClocks clocks current_clock ;;
  modify_state (FtraceState.set_ftrace_clock (clock_of_name current_clock)).

Definition SetupBufferSize (request : FtraceConfig.t) : M W T unit :=
  let pages :=
    ComputeCpuBufferSizeInPages (kPageSize P)
      (FtraceConfig.buffer_size_kb request) in
  call (Call.SetCpuBufferSizeInPages pages) ;;;
  modify_state (FtraceState.set_cpu_buffer_size_pages pages).

(** *** The atrace driver *)

(** The argument that follows [-a]: every app followed by a comma, then the
    last character dropped. *)
Definition apps_arg (apps : list string) : string :=
  let arg := fold_left (fun arg app => (arg ++ app ++ ",")%string) apps "" in
  String.substring 0 (String.length arg - 1) arg.

Definition StartAtrace_args (apps categories : list string) : list string :=
  let args := ["atrace"; "--async_start"] in
  let args :=
    if negb (IsOldAtrace P) then (args ++ ["--only_userspace"])%list
    else args in
  let args := fold_left (fun args category => (args ++ [category])%list)
                categories args in
  if negb (bool_decide (apps = [])) then
    ((args ++ ["-a"]) ++ [apps_arg apps])%list
  else args.

Definition StartAtrace (apps categories : list string) : M W T bool :=
  call (Call.RunAtrace (StartAtrace_args apps categories)).

Definition DisableAtrace_args : list string :=
  let args := ["atrace"; "--async_stop"] in
  if negb (IsOldAtrace P) then (args ++ ["--only_userspace"])%list else args.

Definition DisableAtrace : M W T unit :=
  ok <- call (Call.RunAtrace DisableAtrace_args) ;;
  if ok then
    modify_state (fun st =>
      FtraceState.set_atrace_on false
        (FtraceState.set_atrace_apps []
           (FtraceState.set_atrace_categories [] st)))
  else ret tt.

Definition UpdateAtrace (request : FtraceConfig.t) : M W T unit :=
  m <- get_mux ;;
  let st := current_state_ m in
  let combined_categories :=
    UnionInPlace (FtraceState.atrace_categories st)
      (FtraceConfig.atrace_categories request) in
  let combined_apps :=
    UnionInPlace (FtraceState.atrace_apps st)
      (FtraceConfig.atrace_apps request) in
  if FtraceState.atrace_on st
     && Nat.eqb (length combined_apps) (length (FtraceState.atrace_apps st))
     && Nat.eqb (length combined_categories)
          (length (FtraceState.atrace_categories st))
  then ret tt
  else
    ok <- StartAtrace combined_apps combined_categories ;;
    if ok then
      modify_state (fun st =>
        FtraceState.set_atrace_on true
          (FtraceState.set_atrace_apps combined_apps
             (FtraceState.set_atrace_categories combined_categories st)))
    else ret tt.

(** *** The registry *)

(** Iterating over [ds_configs_] visits the records by increasing id. *)
Definition key_le (a b : N * FtraceDataSourceConfig.t) : Prop :=
  N.le (fst a) (fst b).

#[global] Instance key_le_dec (a b : N * FtraceDataSourceConfig.t)
  : Decision (key_le a b).
Proof. unfold key_le. apply _. Defined.

Definition configs_in_order (configs : gmap N FtraceDataSourceConfig.t)
    : list FtraceDataSourceConfig.t :=
  map snd (merge_sort key_le (map_to_list configs)).

(** [emplace] leaves a record that is already there. *)
Definition emplace (id : N) (config : FtraceDataSourceConfig.t)
    (configs : gmap N FtraceDataSourceConfig.t)
    : gmap N FtraceDataSourceConfig.t :=
  match configs !! id with
  | Some _ => configs
  | None => <[ id := config ]> configs
  end.

(** The merge of the vendor events of the requested categories. *)
Definition add_vendor_events (vendor_events : gmap string (list GroupAndName))
    (events : gset GroupAndName) (category : string) : gset GroupAndName :=
  match vendor_events !! category with
  | Some l => fold_left (fun events event => {[ event ]} ∪ events) l events
  | None => events
  end.

(** The body of the loop of [SetupConfig] over the resolved events; [filter]
    is the filter of the configuration being set up. *)
Definition enable_event (filter : EventFilter.t)
    (group_and_name : GroupAndName) : M W T EventFilter.t :=
  event <- get_or_create_event group_and_name ;;
  match event with
  | None => ret filter
  | Some event =>
      m <- get_mux ;;
      if EventFilter.IsEventEnabled (Event.ftrace_event_id event)
           (FtraceState.ftrace_events (current_state_ m))
         || String.eqb "ftrace" (Event.group event)
      then ret (EventFilter.AddEnabledEvent (Event.ftrace_event_id event)
                  filter)
      else
        ok <- call (Call.EnableEvent (Event.group event) (Event.name event)) ;;
        if ok then
          modify_state (fun st =>
            FtraceState.set_ftrace_events
              (EventFilter.AddEnabledEvent (Event.ftrace_event_id event)
                 (FtraceState.ftrace_events st)) st) ;;;
          ret (EventFilter.AddEnabledEvent (Event.ftrace_event_id event)
                 filter)
        else ret filter
  end.

(** [SetupConfig] from the call of [GetFtraceEvents] on. *)
Definition SetupConfig_events (request : FtraceConfig.t) : M W T N :=
  tbl <- get_table ;;
  w <- get_kernel ;;
  m <- get_mux ;;
  let events := GetFtraceEvents request tbl w in
  let events :=
    fold_left (add_vendor_events (vendor_events_ m))
      (FtraceConfig.atrace_categories request) events in
  if RequiresAtrace request
     && (IsOldAtrace P && negb (bool_decide (ds_configs_ m = ∅)))
  then ret 0%N
  else
    (if RequiresAtrace request then UpdateAtrace request else ret tt) ;;;
    filter <- fold_each (ordered gn_le events) enable_event
                EventFilter.empty ;;
    tbl <- get_table ;;
    let compact_sched := CreateCompactSchedConfig P request tbl in
    m <- get_mux ;;
    let id := (last_id_ m + 1)%N in
    put_mux
      (set_ds_configs_
         (emplace id
            (FtraceDataSourceConfig.mk filter compact_sched
               (FtraceConfig.atrace_apps request)
               (FtraceConfig.atrace_categories request)
               (FtraceConfig.symbolize_ksyms request))
            (ds_configs_ m))
         (set_last_id_ id m)) ;;;
    ret id.

Definition SetupConfig (request : FtraceConfig.t) : M W T N :=
  w <- get_kernel ;;
  let is_ftrace_enabled := IsTracingEnabled P w in
  m <- get_mux ;;
  if bool_decide (ds_configs_ m = ∅) then
    if is_ftrace_enabled && negb (IsOldAtrace P) then ret 0%N
    else
      SetupClock request ;;;
      SetupBufferSize request ;;;
      SetupConfig_events request
  else
    if negb (bool_decide (active_configs_ m = ∅))
       && negb is_ftrace_enabled && negb (IsOldAtrace P)
    then ret 0%N
    else SetupConfig_events request.

Definition ActivateConfig (id : N) : M W T bool :=
  m <- get_mux ;;
  if (id =? 0)%N || negb (bool_decide (is_Some (ds_configs_ m !! id)))
  then ret false
  else
    w <- get_kernel ;;
    if bool_decide (active_configs_ m = ∅) then
      if IsTracingEnabled P w && negb (IsOldAtrace P) then ret false
      else
        ok <- call Call.EnableTracing ;;
        if negb ok then ret false
        else
          put_mux (set_active_configs_ ({[ id ]} ∪ active_configs_ m) m) ;;;
          ret true
    else
      put_mux (set_active_configs_ ({[ id ]} ∪ active_configs_ m) m) ;;;
      ret true.

(** The three values that the first loop of [RemoveConfig] accumulates over
    the records left in the registry. *)
Definition expected_ftrace_events_of
    (configs : list FtraceDataSourceConfig.t) : EventFilter.t :=
  fold_left (fun expected config =>
               EventFilter.EnableEventsFrom
                 (FtraceDataSourceConfig.event_filter config) expected)
    configs EventFilter.empty.

Definition expected_apps_of (configs : list FtraceDataSourceConfig.t)
    : list string :=
  fold_left (fun expected config =>
               UnionInPlace (FtraceDataSourceConfig.atrace_apps config)
                 expected)
    configs [].

Definition expected_categories_of (configs : list FtraceDataSourceConfig.t)
    : list string :=
  fold_left (fun expected config =>
               UnionInPlace (FtraceDataSourceConfig.atrace_categories config)
                 expected)
    configs [].

(** The body of the loop over the enabled events. *)
Definition disable_surplus_event (expected_ftrace_events : EventFilter.t)
    (id : N) : M W T unit :=
  if EventFilter.IsEventEnabled id expected_ftrace_events then ret tt
  else
    tbl <- get_table ;;
    match GetEventById P id tbl with
    | None => undefined_behaviour
    | Some event =>
        ok <- call (Call.DisableEvent (Event.group event)
                      (Event.name event)) ;;
        if ok then
          modify_state (fun st =>
            FtraceState.set_ftrace_events
              (EventFilter.DisableEvent (Event.ftrace_event_id event)
                 (FtraceState.ftrace_events st)) st)
        else ret tt
    end.

(** "If there aren't any more active configs, disable ftrace." *)
Definition RemoveConfig_deactivate (config_id : N) : M W T unit :=
  m <- get_mux ;;
  if bool_decide (config_id ∈ active_configs_ m) then
    let active := active_configs_ m ∖ {[ config_id ]} in
    put_mux (set_active_configs_ active m) ;;;
    if bool_decide (active = ∅) then call Call.DisableTracing ;;; ret tt
    else ret tt
  else ret tt.

(** "Tear down the rest of the ftrace config only if all configs are
    removed." *)
Definition RemoveConfig_teardown : M W T unit :=
  m <- get_mux ;;
  if bool_decide (ds_configs_ m = ∅) then
    ok <- call (Call.SetCpuBufferSizeInPages 1) ;;
    (if ok then modify_state (FtraceState.set_cpu_buffer_size_pages 1)
     else ret tt) ;;;
    call Call.DisableAllEvents ;;;
    call Call.ClearTrace ;;;
    ret tt
  else ret tt.

(** The last block of [RemoveConfig]: stop atrace or run it again. *)
Definition RemoveConfig_atrace (expected_apps expected_categories : list string)
    (atrace_changed : bool) : M W T unit :=
  m <- get_mux ;;
  if FtraceState.atrace_on (current_state_ m) then
    if bool_decide (expected_apps = [])
       && bool_decide (expected_categories = [])
    then DisableAtrace
    else if atrace_changed then
      ok <- StartAtrace expected_apps expected_categories ;;
      if ok then
        modify_state (fun st =>
          FtraceState.set_atrace_apps expected_apps
            (FtraceState.set_atrace_categories expected_categories st))
      else ret tt
    else ret tt
  else ret tt.

(** The value of [atrace_changed]. *)
Definition atrace_changed_of (st : FtraceState.t)
    (expected_apps expected_categories : list string) : bool :=
  negb (Nat.eqb (length (FtraceState.atrace_apps st)) (length expected_apps))
  || negb (Nat.eqb (length (FtraceState.atrace_categories st))
             (length expected_categories)).

Definition RemoveConfig (config_id : N) : M W T bool :=
  m <- get_mux ;;
  if (config_id =? 0)%N
     || negb (bool_decide (is_Some (ds_configs_ m !! config_id)))
  then ret false
  else
    let m := set_ds_configs_ (delete config_id (ds_configs_ m)) m in
    put_mux m ;;;
    let remaining := configs_in_order (ds_configs_ m) in
    let expected_ftrace_events := expected_ftrace_events_of remaining in
    let expected_apps := expected_apps_of remaining in
    let expected_categories := expected_categories_of remaining in
    let expected_apps :=
      IntersectInPlace (FtraceState.atrace_apps (current_state_ m))
        expected_apps in
    let expected_categories :=
      IntersectInPlace (FtraceState.atrace_categories (current_state_ m))
        expected_categories in
    let atrace_changed :=
      atrace_changed_of (current_state_ m) expected_apps expected_categories in
    let event_ids :=
      EventFilter.GetEnabledEvents
        (FtraceState.ftrace_events (current_state_ m)) in
    for_each event_ids (disable_surplus_event expected_ftrace_events) ;;;
    RemoveConfig_deactivate config_id ;;;
    RemoveConfig_teardown ;;;
    RemoveConfig_atrace expected_apps expected_categories atrace_changed ;;;
    ret true.

End Muxer.

(** ** A small platform to run the muxer on

    A kernel that keeps the values written to it and refuses the calls its
    [refuses] field selects, and a table that is a list of events. *)
Module Demo.

Record Kernel : Type := mkKernel {
  tracing_on : bool;
  clock : string;
  available_clocks : gset string;
  enabled_events : gset GroupAndName;
  buffer_pages : N;
  event_names : gmap string (gset string);
  refuses : Call.t -> bool;
}.

Definition write (c : Call.t) (k : Kernel) : Kernel :=
  match c with
  | Call.EnableTracing =>
      mkKernel true (clock k) (available_clocks k) (enabled_events k)
        (buffer_pages k) (event_names k) (refuses k)
  | Call.DisableTracing =>
      mkKernel false (clock k) (available_clocks k) (enabled_events k)
        (buffer_pages k) (event_names k) (refuses k)
  | Call.SetCpuBufferSizeInPages pages =>
      mkKernel (tracing_on k) (clock k) (available_clocks k)
        (enabled_events k) pages (event_names k) (refuses k)
  | Call.DisableAllEvents =>
      mkKernel (tracing_on k) (clock k) (available_clocks k) ∅
        (buffer_pages k) (event_names k) (refuses k)
  | Call.ClearTrace => k
  | Call.SetClock c =>
      mkKernel (tracing_on k) c (available_clocks k) (enabled_events k)
        (buffer_pages k) (event_names k) (refuses k)
  | Call.EnableEvent g n =>
      mkKernel (tracing_on k) (clock k) (available_clocks k)
        ({[ (g, n) ]} ∪ enabled_events k) (buffer_pages k) (event_names k)
        (refuses k)
  | Call.DisableEvent g n =>
      mkKernel (tracing_on k) (clock k) (available_clocks k)
        (enabled_events k ∖ {[ (g, n) ]}) (buffer_pages k) (event_names k)
        (refuses k)
  | Call.RunAtrace _ => k
  end.

Definition perform (c : Call.t) (k : Kernel) : bool * Kernel :=
  if refuses k c then (false, k) else (true, write c k).

Definition same_event (gn : GroupAndName) (e : Event.t) : bool :=
  String.eqb (Event.group e) (fst gn) && String.eqb (Event.name e) (snd gn).

Definition events_of_group (group : string) (tbl : list Event.t)
    : option (list Event.t) :=
  match List.filter (fun e => String.eqb (Event.group e) group) tbl with
  | [] => None
  | l => Some l
  end.

Definition platform (old_atrace : bool) : Platform Kernel (list Event.t) :=
  mkPlatform Kernel (list Event.t)
    old_atrace
    4096%N
    tracing_on
    clock
    available_clocks
    (fun path k => default ∅ (event_names k !! path))
    perform
    (fun name tbl => find (fun e => String.eqb (Event.name e) name) tbl)
    (fun id tbl => find (fun e => N.eqb (Event.ftrace_event_id e) id) tbl)
    events_of_group
    (fun gn tbl => (find (same_event gn) tbl, tbl))
    (fun request _ => FtraceConfig.compact_sched request).

Definition events : list Event.t :=
  [ Event.mk "print" "ftrace" 1;
    Event.mk "sched_switch" "sched" 2;
    Event.mk "sched_waking" "sched" 3;
    Event.mk "cpu_idle" "power" 4 ].

(** A kernel at rest: tracing off, clock [local], nothing refused. *)
Definition kernel0 : Kernel :=
  mkKernel false "local" {[ "local"; "global"; "boot" ]} ∅ 0 ∅
    (fun _ => false).

(** The same kernel with tracing already on. *)
Definition kernel_tracing : Kernel :=
  mkKernel true "local" {[ "local"; "global"; "boot" ]} ∅ 0 ∅
    (fun _ => false).

(** The state of a freshly constructed muxer on the kernel [k]. *)
Definition start (k : Kernel) : Run Kernel (list Event.t) :=
  mkRun (FtraceConfigMuxer ∅) k events [].

Definition request (events categories apps : list string) : FtraceConfig.t :=
  FtraceConfig.mk events categories apps 0 false 0.

(** The state a step leaves, when it has one. *)
Definition after {A : Type} (r : option (A * Run Kernel (list Event.t)))
    : Run Kernel (list Event.t) :=
  match r with
  | Some (_, s) => s
  | None => start kernel0
  end.

(** Two configurations set up one after the other on a kernel at rest: id 1
    asks for [sched_switch], id 2 for [sched_switch] and [sched_waking]. *)
Definition two_configs : Run Kernel (list Event.t) :=
  after
    (SetupConfig (platform false)
       (request ["sched/sched_switch"; "sched/sched_waking"] [] [])
       (after
          (SetupConfig (platform false)
             (request ["sched/sched_switch"] [] []) (start kernel0)))).

(** On a platform with the legacy atrace and tracing already on, one
    configuration set up and never activated. *)
Definition legacy_idle : Run Kernel (list Event.t) :=
  after
    (SetupConfig (platform true) (request ["sched/sched_switch"] [] [])
       (start kernel_tracing)).

(** A kernel at rest that refuses the write of [tracing_on = 0]. *)
Definition kernel_stuck : Kernel :=
  mkKernel false "local" {[ "local"; "global"; "boot" ]} ∅ 0 ∅
    (fun c => match c with Call.DisableTracing => true | _ => false end).

(** On that kernel, one configuration set up and activated. *)
Definition active_stuck : Run Kernel (list Event.t) :=
  after
    (ActivateConfig (platform false) 1
       (after
          (SetupConfig (platform false) (request ["sched/sched_switch"] [] [])
             (start kernel_stuck)))).

(** Two configurations that ask for the category [sched], the first one
    twice: id 1 with the categories [sched; sched], id 2 with [sched]. *)
Definition duplicate_category : Run Kernel (list Event.t) :=
  after
    (SetupConfig (platform false) (request [] ["sched"] [])
       (after
          (SetupConfig (platform false) (request [] ["sched"; "sched"] [])
             (start kernel0)))).

(** Two configurations with atrace categories: id 1 asks for [sched], id 2
    for [sched] and [gfx]. *)
Definition two_categories : Run Kernel (list Event.t) :=
  after
    (SetupConfig (platform false) (request [] ["sched"; "gfx"] [])
       (after
          (SetupConfig (platform false) (request [] ["sched"] [])
             (start kernel0)))).

End Demo.

(** ** The statements of the specification, in its own words *)

(** "Preference order: boot, global, local. [...] The first clock of the
    preference list that appears in the kernel's advertised available
    clocks": [boot] when it is advertised, else [global] when that one is,
    else [local] when that one is, else none. *)
Definition preferred_clock (clocks : gset string) : option string :=
  if bool_decide ("boot" ∈ clocks) then Some "boot"
  else if bool_decide ("global" ∈ clocks) then Some "global"
  else if bool_decide ("local" ∈ clocks) then Some "local"
  else None.


(** "Writing it via SetClock only when it differs from the currently selected
    clock": the writes expected of [SetupClock] on the kernel [w]. *)
Definition clock_writes {W T : Type} (P : Platform W T) (w : W)
    : list Call.t :=
  match preferred_clock (AvailableClocks P w) with
  | Some clock =>
      if bool_decide (clock = GetClock P w) then [] else [Call.SetClock clock]
  | None => []
  end.

(** The individual events that the spec's table lists for the category
    [sched]. *)
Definition sched_category_events : list GroupAndName :=
  [ ("sched", "sched_switch"); ("sched", "sched_waking");
    ("sched", "sched_blocked_reason"); ("sched", "sched_cpu_hotplug");
    ("sched", "sched_pi_setprio"); ("sched", "sched_process_exit");
    ("oom", "oom_score_adj_update"); ("task", "task_rename");
    ("task", "task_newtask"); ("systrace", "0");
    ("scm", "scm_call_start"); ("scm", "scm_call_end") ].

(** The groups that the spec's table adds whole for the category [sched]. *)
Definition sched_category_groups : list string :=
  [ "cgroup"; "systrace"; "scm" ].

(** An insertion that cannot put [x] into the set. *)
Definition avoids (x : GroupAndName) (i : Insertion) : bool :=
  match i with
  | AddGroup group => negb (String.eqb group (fst x))
  | Insert group name =>
      negb (String.eqb group (fst x) && String.eqb name (snd x))
  end.

(** "Replace GlobalState.atrace_* with the combined sets and set atrace_on":
    the state after a successful update of atrace. *)
Definition atrace_updated (st : FtraceState.t)
    (combined_apps combined_categories : list string) : FtraceState.t :=
  FtraceState.mk (FtraceState.ftrace_events st) combined_apps
    combined_categories true (FtraceState.cpu_buffer_size_pages st)
    (FtraceState.ftrace_clock st).

(** The pre-states in which the spec has [SetupConfig] return 0: (a) the
    registry is empty, tracing is on and atrace is not the legacy one; (b)
    the registry and the active set are not empty, tracing is off and atrace
    is not the legacy one; (c) atrace is the legacy one, the request requires
    atrace and the registry is not empty. *)
Definition setup_refused {W T : Type} (P : Platform W T)
    (request : FtraceConfig.t) (s : Run W T) : Prop :=
  (ds_configs_ (mux s) = ∅
   /\ IsTracingEnabled P (kernel s) = true
   /\ IsOldAtrace P = false)
  \/ (ds_configs_ (mux s) <> ∅
      /\ active_configs_ (mux s) <> ∅
      /\ IsTracingEnabled P (kernel s) = false
      /\ IsOldAtrace P = false)
  \/ (IsOldAtrace P = true
      /\ RequiresAtrace request = true
      /\ ds_configs_ (mux s) <> ∅).

(** A step that leaves the registry, the active set, the last id and the
    vendor events as they are. *)
Definition keeps_registry {W T : Type} (s s' : Run W T) : Prop :=
  ds_configs_ (mux s') = ds_configs_ (mux s)
  /\ active_configs_ (mux s') = active_configs_ (mux s)
  /\ last_id_ (mux s') = last_id_ (mux s)
  /\ vendor_events_ (mux s') = vendor_events_ (mux s).

(** *** What [RemoveConfig] is expected to write *)

(** The writes and launches [cs] done in order on the kernel [w]: their log
    entries and the kernel after them. *)
Fixpoint perform_all {W T : Type} (P : Platform W T) (cs : list Call.t)
    (w : W) : list (Call.t * bool) * W :=
  match cs with
  | [] => ([], w)
  | c :: cs =>
      let r := perform P c w in
      let rest := perform_all P cs (snd r) in
      ((c, fst r) :: fst rest, snd rest)
  end.

(** "Disable the event via procfs": the write for the event id [id], by the
    group and name that the table gives for it. *)
Definition disable_call {W T : Type} (P : Platform W T) (tbl : T) (id : N)
    : Call.t :=
  match GetEventById P id tbl with
  | Some event => Call.DisableEvent (Event.group event) (Event.name event)
  | None => Call.DisableEvent "" ""
  end.

(** "Every id in GlobalState.ftrace_events not present in expected_events",
    in increasing order. *)
Definition surplus (global expected : EventFilter.t) : list N :=
  List.filter (fun id => negb (EventFilter.IsEventEnabled id expected))
    (EventFilter.GetEnabledEvents global).

(** "The union of all event_filters" of the records in [configs]. *)
Definition union_of_filters (configs : gmap N FtraceDataSourceConfig.t)
    (e : N) : Prop :=
  exists id config,
    configs !! id = Some config
    /\ e ∈ FtraceDataSourceConfig.event_filter config.

(** The disable writes for the ids [ids] done in order on the kernel [w]:
    each id with the result of its write, and the kernel after them. *)
Fixpoint disable_all {W T : Type} (P : Platform W T) (tbl : T)
    (ids : list N) (w : W) : list (N * bool) * W :=
  match ids with
  | [] => ([], w)
  | id :: ids =>
      let r := perform P (disable_call P tbl id) w in
      let rest := disable_all P tbl ids (snd r) in
      ((id, fst r) :: fst rest, snd rest)
  end.

(** The log entry of an outcome of [disable_all]. *)
Definition disable_entry {W T : Type} (P : Platform W T) (tbl : T)
    (outcome : N * bool) : Call.t * bool :=
  (disable_call P tbl (fst outcome), snd outcome).

Definition is_DisableEvent (c : Call.t) : bool :=
  match c with
  | Call.DisableEvent _ _ => true
  | _ => false
  end.

Definition is_RunAtrace (c : Call.t) : bool :=
  match c with
  | Call.RunAtrace _ => true
  | _ => false
  end.

(** "If id is in active, remove it; if active then becomes empty, write
    tracing_on = 0." *)
Definition deactivate_calls (m : Muxer) (config_id : N) : list Call.t :=
  if bool_decide (config_id ∈ active_configs_ m)
     && bool_decide (active_configs_ m ∖ {[ config_id ]} = ∅)
  then [Call.DisableTracing]
  else [].

(** "Shrink per-CPU buffers to 1 page, disable all events, clear the trace
    buffer." *)
Definition teardown_calls : list Call.t :=
  [Call.SetCpuBufferSizeInPages 1; Call.DisableAllEvents; Call.ClearTrace].

(** "If atrace was on and both expected sets are empty, stop atrace; else if
    either set changed size, re-run atrace with the reduced union." *)
Definition atrace_calls {W T : Type} (P : Platform W T) (st : FtraceState.t)
    (expected_apps expected_categories : list string) : list Call.t :=
  if FtraceState.atrace_on st then
    if bool_decide (expected_apps = [])
       && bool_decide (expected_categories = [])
    then [Call.RunAtrace (DisableAtrace_args P)]
    else if atrace_changed_of st expected_apps expected_categories
    then [Call.RunAtrace
            (StartAtrace_args P expected_apps expected_categories)]
    else []
  else [].

(** Two lists with the same elements. *)
Definition same_elements (a b : list string) : Prop :=
  forall x, In x a <-> In x b.

(** The expected apps and categories of [RemoveConfig] once intersected with
    what [current_state_] holds, for the records [configs] left in the
    registry. *)
Definition intersected_apps (st : FtraceState.t)
    (configs : gmap N FtraceDataSourceConfig.t) : list string :=
  IntersectInPlace (FtraceState.atrace_apps st)
    (expected_apps_of (configs_in_order configs)).

Definition intersected_categories (st : FtraceState.t)
    (configs : gmap N FtraceDataSourceConfig.t) : list string :=
  IntersectInPlace (FtraceState.atrace_categories st)
    (expected_categories_of (configs_in_order configs)).

(** Two states of [current_state_] that agree on what was told to atrace. *)
Definition same_atrace (st st' : FtraceState.t) : Prop :=
  FtraceState.atrace_on st' = FtraceState.atrace_on st
  /\ FtraceState.atrace_apps st' = FtraceState.atrace_apps st
  /\ FtraceState.atrace_categories st' = FtraceState.atrace_categories st.

(** The event ids that the successful disable writes of [outcomes] take out
    of [ftrace_events]: for each, the id of the event that the table gave. *)
Definition disabled_ids {W T : Type} (P : Platform W T) (tbl : T)
    (outcomes : list (N * bool)) : list N :=
  flat_map
    (fun outcome : N * bool =>
       if snd outcome then
         match GetEventById P (fst outcome) tbl with
         | Some event => [Event.ftrace_event_id event]
         | None => []
         end
       else [])
    outcomes.

(** The spec's third property, as it is written: once [RemoveConfig] has
    returned true and emptied the registry, the buffers were asked down to 1
    page, all events were disabled, the trace was cleared, and [tracing_on]
    reads 0. *)
Definition last_removal_as_stated {W T : Type} (P : Platform W T)
    (config_id : N) (s : Run W T) : Prop :=
  forall s',
    RemoveConfig P config_id s = Some (true, s') ->
    ds_configs_ (mux s') = ∅ ->
    (exists added,
        log s' = log s ++ added
        /\ In (Call.SetCpuBufferSizeInPages 1) (map fst added)
        /\ In Call.DisableAllEvents (map fst added)
        /\ In Call.ClearTrace (map fst added))
    /\ IsTracingEnabled P (kernel s') = false.

(** The comment in [RemoveConfig] and the spec's reading of it: once
    intersected, the expected lists are within the current ones, and the
    comparison of sizes is true exactly when the expected apps or categories
    differ from the current ones as sets. *)
Definition size_comparison_as_stated (st : FtraceState.t)
    (remaining : gmap N FtraceDataSourceConfig.t) : Prop :=
  let expected_apps := intersected_apps st remaining in
  let expected_categories := intersected_categories st remaining in
  (forall x, In x expected_apps -> In x (FtraceState.atrace_apps st))
  /\ (forall x, In x expected_categories ->
        In x (FtraceState.atrace_categories st))
  /\ (atrace_changed_of st expected_apps expected_categories = true <->
      ~ (same_elements expected_apps (FtraceState.atrace_apps st)
         /\ same_elements expected_categories
              (FtraceState.atrace_categories st))).

(** The two calls that write [tracing_on]. *)
Definition is_tracing_write (c : Call.t) : bool :=
  match c with
  | Call.EnableTracing | Call.DisableTracing => true
  | _ => false
  end.

(** A kernel on which a successful [DisableTracing] leaves [tracing_on] at 0
    and on which no other write or launch, but [EnableTracing], moves it. *)
Definition honours_tracing {W T : Type} (P : Platform W T) : Prop :=
  (forall w,
      fst (perform P Call.DisableTracing w) = true ->
      IsTracingEnabled P (snd (perform P Call.DisableTracing w)) = false)
  /\ (forall c w,
        is_tracing_write c = false ->
        IsTracingEnabled P (snd (perform P c w)) = IsTracingEnabled P w).

(** ** More of the translation unit *)

(** [FtraceConfigMuxer::GetDataSourceConfig]: the record of the id, or a null
    pointer when the registry has none. *)
Definition GetDataSourceConfig (m : Muxer) (id : N)
    : option FtraceDataSourceConfig.t :=
  if negb (bool_decide (is_Some (ds_configs_ m !! id))) then None
  else ds_configs_ m !! id.

(** [FtraceConfigMuxer::GetPerCpuBufferSizePages]. *)
Definition GetPerCpuBufferSizePages (m : Muxer) : N :=
  FtraceState.cpu_buffer_size_pages (current_state_ m).

(** ** Helpers of the statements that follow *)

(** Whether the character [c] occurs in [s]. *)
Fixpoint contains_char (c : ascii) (s : string) : bool :=
  match s with
  | EmptyString => false
  | String a s' => Ascii.eqb a c || contains_char c s'
  end.

(** What one event specifier of a request resolves to, as the three branches
    of the first loop of [GetFtraceEvents] have it. *)
Definition resolves {W T : Type} (P : Platform W T) (tbl : T) (w : W)
    (config_value : string) (x : GroupAndName) : Prop :=
  let group := fst (EventToStringGroupAndName config_value) in
  let name := snd (EventToStringGroupAndName config_value) in
  if String.eqb name "*" then
    fst x = group
    /\ snd x ∈ GetEventNamesForGroup P ("events/" ++ group)%string w
  else if String.eqb group "" then
    exists e, GetEventByName P name tbl = Some e
              /\ x = (Event.group e, Event.name e)
  else x = (group, name).

(** What one statement of a category block inserts. *)
Definition inserts {W T : Type} (P : Platform W T) (tbl : T) (i : Insertion)
    (x : GroupAndName) : Prop :=
  match i with
  | AddGroup group =>
      exists evs event,
        GetEventsByGroup P group tbl = Some evs
        /\ In event evs /\ x = (group, Event.name event)
  | Insert group name => x = (group, name)
  end.

(** The categories that have a block in [GetFtraceEvents]. *)
Definition known_categories : list string :=
  [ "gfx"; "ion"; "sched"; "irq"; "irqoff"; "preemptoff"; "i2c"; "freq";
    "membus"; "idle"; "disk"; "mmc"; "load"; "sync"; "workq"; "memreclaim";
    "regulators"; "binder_driver"; "binder_lock"; "pagecache"; "memory";
    "thermal" ].

(** A kernel at rest whose [events/power/] directory holds three events. *)
Definition power_kernel : Demo.Kernel :=
  Demo.mkKernel false "local" {[ "local"; "global"; "boot" ]} ∅ 0
    {[ "events/power" :=
         {[ "cpu_idle"; "cpu_frequency"; "clock_set_rate" ]} ]}
    (fun _ => false).

(** ** What the member functions may write *)

(** The writes and launches that [SetupConfig] may do for [request]: an
    event may be enabled; atrace is launched only for a request that
    requires it; the clock and the buffer size are written only when the
    registry is empty ([first]). *)
Definition setup_call (request : FtraceConfig.t) (first : bool)
    (c : Call.t) : bool :=
  match c with
  | Call.EnableEvent _ _ => true
  | Call.RunAtrace _ => RequiresAtrace request
  | Call.SetClock _ | Call.SetCpuBufferSizeInPages _ => first
  | _ => false
  end.

(** The writes and launches that [RemoveConfig] may do: an event may be
    disabled and atrace launched; tracing is switched off only when the last
    active configuration goes ([deactivates]); the buffer is shrunk, all
    events disabled and the trace cleared only when the registry becomes
    empty ([last]). *)
Definition remove_call (deactivates last : bool) (c : Call.t) : bool :=
  match c with
  | Call.DisableEvent _ _ => true
  | Call.RunAtrace _ => true
  | Call.DisableTracing => deactivates
  | Call.SetCpuBufferSizeInPages pages => last && (pages =? 1)%N
  | Call.DisableAllEvents | Call.ClearTrace => last
  | _ => false
  end.

(** From [s] to [s'] the calls [cs], all of them [allowed], were done in
    order on the kernel and logged, and nothing else touched the kernel. *)
Definition performs {W T : Type} (P : Platform W T)
    (allowed : Call.t -> bool) (s s' : Run W T) : Prop :=
  exists cs,
    (forall c, In c cs -> allowed c = true)
    /\ log s' = log s ++ fst (perform_all P cs (kernel s))
    /\ kernel s' = snd (perform_all P cs (kernel s)).

(** ** Relations between two values of [current_state_] *)

Definition events_grow (st st' : FtraceState.t) : Prop :=
  FtraceState.ftrace_events st ⊆ FtraceState.ftrace_events st'.

Definition same_buffer_and_clock (st st' : FtraceState.t) : Prop :=
  FtraceState.cpu_buffer_size_pages st' = FtraceState.cpu_buffer_size_pages st
  /\ FtraceState.ftrace_clock st' = FtraceState.ftrace_clock st.

(** While atrace is off, no app and no category is recorded. *)
Definition atrace_consistent (st : FtraceState.t) : Prop :=
  FtraceState.atrace_on st = false ->
  FtraceState.atrace_apps st = [] /\ FtraceState.atrace_categories st = [].

(** What [SetupConfig] may do to [current_state_]: events are only added;
    what was told to atrace stays unless the request requires atrace; the
    buffer size and the clock stay unless the registry is empty. *)
Definition setup_state (request : FtraceConfig.t) (first : bool)
    (st st' : FtraceState.t) : Prop :=
  events_grow st st'
  /\ (RequiresAtrace request = false -> same_atrace st st')
  /\ (atrace_consistent st -> atrace_consistent st')
  /\ (first = false -> same_buffer_and_clock st st').

(** ** Invariants of the muxer *)

(** The ids of the registry are above 0 and at most [last_id_]. *)
Definition registry_in_range (m : Muxer) : Prop :=
  forall id, is_Some (ds_configs_ m !! id) -> (0 < id <= last_id_ m)%N.

(** Every active configuration is in the registry. *)
Definition active_registered (m : Muxer) : Prop :=
  forall id, id ∈ active_configs_ m -> is_Some (ds_configs_ m !! id).

Definition muxer_invariant (m : Muxer) : Prop :=
  registry_in_range m /\ active_registered m
  /\ atrace_consistent (current_state_ m).

(** What a part of [SetupConfig] does between [s] and [s']: it keeps the
    registry, does only calls of [SetupConfig], and changes [current_state_]
    as [SetupConfig] may. *)
Definition setup_step {W T : Type} (P : Platform W T)
    (request : FtraceConfig.t) (first : bool) (s s' : Run W T) : Prop :=
  keeps_registry s s'
  /\ performs P (setup_call request first) s s'
  /\ setup_state request first (current_state_ (mux s))
       (current_state_ (mux s')).

(** What [SetupConfig] stores for [request] under the id [id]. *)
Definition stores {W T : Type} (P : Platform W T) (request : FtraceConfig.t)
    (id : N) (s s' : Run W T) : Prop :=
  id = (last_id_ (mux s) + 1)%N
  /\ last_id_ (mux s') = id
  /\ exists filter,
       ds_configs_ (mux s')
       = emplace id
           (FtraceDataSourceConfig.mk filter
              (CreateCompactSchedConfig P request (table s'))
              (FtraceConfig.atrace_apps request)
              (FtraceConfig.atrace_categories request)
              (FtraceConfig.symbolize_ksyms request))
           (ds_configs_ (mux s)).

(** One configuration with the category [sched] and one app, set up on a
    kernel at rest: atrace is on. *)
Definition one_category : Run Demo.Kernel (list Event.t) :=
  Demo.after
    (SetupConfig (Demo.platform false)
       (Demo.request [] ["sched"] ["com.example.app"])
       (Demo.start Demo.kernel0)).

(** ** The directory of the executable *)

(** [std::string::find_last_of(c)]: the index of the last [c] in [s], and
    [None] for [npos]. *)
Fixpoint find_last_of (c : ascii) (s : string) : option nat :=
  match s with
  | EmptyString => None
  | String a s' =>
      match find_last_of c s' with
      | Some n => Some (S n)
      | None => if Ascii.eqb a c then Some 0 else None
      end
  end.

(** [s.substr(0, count)]; with [npos] as count the whole string is taken. *)
Definition substr_0 (count : option nat) (s : string) : string :=
  match count with
  | Some n => String.substring 0 n s
  | None => s
  end.

(** The backslash. *)
Definition backslash : ascii := "092"%char.

(** [GetCurExecutableDir].  The path of the executable, which
    [GetCurExecutablePath] asks of the system, and the build flag
    [PERFETTO_OS_WIN] are taken as arguments. *)
Definition GetCurExecutableDir (os_win : bool) (GetCurExecutablePath : string)
    : string :=
  let path := GetCurExecutablePath in
  let path :=
    if os_win then substr_0 (find_last_of backslash path) path else path in
  let path := substr_0 (find_last_of "/" path) path in
  path.

(** ** The entry point of tracebox *)

(** The names of [g_applets], in the order of the table. *)
Definition g_applets : list string :=
  [ "traced"; "traced_probes"; "perfetto"; "trigger_perfetto" ].

(** [strrchr(argv[0], '/')] and the choice of [argv0]: what follows the last
    slash, or all of [argv[0]] when it has none. *)
Definition file_name (argv_0 : string) : string :=
  match find_last_of "/" argv_0 with
  | Some n => String.substring (S n) (String.length argv_0 - S n) argv_0
  | None => argv_0
  end.

(** What [TraceboxMain] goes on to do: return what the entry point of an
    applet returns for the arguments it is given; print the usage and return
    1; or start the services and the client itself, which is the rest of the
    function. *)
Inductive Mode : Type :=
| RunApplet (name : string) (argv : list string)
| Usage
| Autostart.

(** The loop over [g_applets]: the first applet whose name is [argv0] gets
    all arguments; the first whose name is [argv[1]] gets the arguments from
    [argv[1]] on. *)
Fixpoint find_applet (applets : list string) (argv0 : string)
    (argv : list string) : option Mode :=
  match applets with
  | [] => None
  | name :: rest =>
      if String.eqb argv0 name then Some (RunApplet name argv)
      else
        match argv with
        | _ :: arg1 :: args =>
            if String.eqb arg1 name then Some (RunApplet name (arg1 :: args))
            else find_applet rest argv0 argv
        | _ => find_applet rest argv0 argv
        end
  end.

(** [TraceboxMain] up to the choice of the mode.  [argv[0]] is read first:
    without it nothing is defined. *)
Definition TraceboxMain (argv : list string) : option Mode :=
  match argv with
  | [] => None
  | argv_0 :: _ =>
      match find_applet g_applets (file_name argv_0) argv with
      | Some mode => Some mode
      | None => if Nat.leb (length argv) 1 then Some Usage else Some Autostart
      end
  end.

(** The first argument, when there is one, names no applet. *)
Definition no_applet_argument (applets : list string) (args : list string)
    : Prop :=
  match args with
  | [] => True
  | arg1 :: _ => ~ In arg1 applets
  end.


(** ** What [SetupConfig] enables on a kernel that accepts it *)

(** The event names that [SetupConfig] goes through for [request]: what
    [GetFtraceEvents] resolves on the table [tbl] and the kernel [w],
    together with the vendor events of the requested categories, in the
    order of the set. *)
Definition requested_events {W T : Type} (P : Platform W T) (m : Muxer)
    (request : FtraceConfig.t) (tbl : T) (w : W) : list GroupAndName :=
  ordered gn_le
    (fold_left (add_vendor_events (vendor_events_ m))
       (FtraceConfig.atrace_categories request)
       (GetFtraceEvents P request tbl w)).

(** [e] is the id of an event that the table [tbl] gives for one of the names
    [events] and that [wanted] selects. *)
Definition table_id {W T : Type} (P : Platform W T) (tbl : T)
    (events : list GroupAndName) (wanted : Event.t -> bool) (e : N) : Prop :=
  exists gn event,
    In gn events
    /\ fst (GetOrCreateEvent P gn tbl) = Some event
    /\ wanted event = true
    /\ Event.ftrace_event_id event = e.

(** The events of the group [ftrace] have no enable file and are not kept in
    the central filter; all others are. *)
Definition tracked (event : Event.t) : bool :=
  negb (String.eqb "ftrace" (Event.group event)).

(** The kernels [good] are kept by every write and launch and let every
    event be enabled; what [GetOrCreateEvent] answers does not depend on the
    events created before; and no write or launch changes the events that
    procfs lists. *)
Definition accepts_events {W T : Type} (P : Platform W T) (good : W -> Prop)
    : Prop :=
  (forall gn gn' tbl,
      fst (GetOrCreateEvent P gn (snd (GetOrCreateEvent P gn' tbl)))
      = fst (GetOrCreateEvent P gn tbl))
  /\ (forall c w, good w -> good (snd (perform P c w)))
  /\ (forall group name w,
        good w -> fst (perform P (Call.EnableEvent group name) w) = true)
  /\ (forall path c w,
        GetEventNamesForGroup P path (snd (perform P c w))
        = GetEventNamesForGroup P path w).

(** Two tables that give the same answers to [GetOrCreateEvent]. *)
Definition same_answers {W T : Type} (P : Platform W T) (tbl tbl0 : T)
    : Prop :=
  forall gn,
    fst (GetOrCreateEvent P gn tbl) = fst (GetOrCreateEvent P gn tbl0).

(** A kernel of the small platform that refuses nothing. *)
Definition Demo_agreeable (k : Demo.Kernel) : Prop :=
  forall c, Demo.refuses k c = false.

(** A kernel at rest that runs on the clock [global] and advertises [global]
    and [local] alone. *)
Definition global_kernel : Demo.Kernel :=
  Demo.mkKernel false "global" {[ "global"; "local" ]} ∅ 0 ∅
    (fun _ => false).

(** A kernel at rest whose [events/] directory itself holds one entry. *)
Definition root_kernel : Demo.Kernel :=
  Demo.mkKernel false "local" {[ "local"; "global"; "boot" ]} ∅ 0
    {[ "events/" := {[ "header_page" ]} ]}
    (fun _ => false).

(** * Properties *)

(** ** Buffer sizing *)

Lemma at_least_one_page (pages : N) :
  (1 <= (if (pages =? 0)%N then 1 else pages))%N.
Proof. destruct (N.eqb_spec pages 0); lia. Qed.

Lemma ComputeCpuBufferSizeInPages_ge_1 kPageSize kb :
  (1 <= ComputeCpuBufferSizeInPages kPageSize kb)%N.
Proof. unfold ComputeCpuBufferSizeInPages. apply at_least_one_page. Qed.

(** C4. For a page size between 1 KiB and 2 MiB, with [page_kb] the size of
    a page in KiB: [ComputeCpuBufferSizeInPages(0)] is [2048 / page_kb]
    pages, which is 512 with pages of 4 KiB; a request above 65536 KiB is
    capped to 65536 KiB before it is converted, so that it gives
    [65536 / page_kb] pages, which is 16384 with pages of 4 KiB and what a
    request of 65536 KiB gives; a request from 1 KiB to 65536 KiB is
    converted to [kb / page_kb] pages, and to 1 page when that is 0;
    [ComputeCpuBufferSizeInPages(1)] is 1; and the result is at least 1 for
    every request. *)
Theorem ComputeCpuBufferSizeInPages_cases (kPageSize : N) :
  (1024 <= kPageSize <= 2048 * 1024)%N ->
  let page_kb := (kPageSize / 1024)%N in
  ComputeCpuBufferSizeInPages kPageSize 0 = (2048 / page_kb)%N
  /\ (kPageSize = 4096%N -> ComputeCpuBufferSizeInPages kPageSize 0 = 512%N)
  /\ (forall kb, (65536 < kb)%N ->
        ComputeCpuBufferSizeInPages kPageSize kb
        = ComputeCpuBufferSizeInPages kPageSize 65536)
  /\ (forall kb, (65536 < kb)%N ->
        ComputeCpuBufferSizeInPages kPageSize kb = (65536 / page_kb)%N)
  /\ (kPageSize = 4096%N ->
      forall kb, (65536 < kb)%N ->
        ComputeCpuBufferSizeInPages kPageSize kb = 16384%N)
  /\ (forall kb, (1 <= kb <= 65536)%N ->
        ComputeCpuBufferSizeInPages kPageSize kb
        = N.max 1 (kb / page_kb))
  /\ ComputeCpuBufferSizeInPages kPageSize 1 = 1%N
  /\ (forall kb, (1 <= ComputeCpuBufferSizeInPages kPageSize kb)%N).
Proof.
  intros [Hlo Hhi] page_kb.
  assert (Hkb : (1 <= page_kb <= 2048)%N).
  { subst page_kb. split.
    - apply N.div_le_lower_bound; lia.
    - apply N.Div0.div_le_upper_bound; lia. }
  assert (Hmax : forall a,
            (if (a / page_kb =? 0)%N then 1%N else (a / page_kb)%N)
            = N.max 1 (a / page_kb)).
  { intros a. generalize (a / page_kb)%N. intros q.
    destruct (N.eqb_spec q 0) as [-> | Hne]; lia. }
  assert (Hbig : forall a, (2048 <= a)%N -> N.max 1 (a / page_kb)
                                           = (a / page_kb)%N).
  { intros a Ha. apply N.max_r.
    apply N.div_le_lower_bound; nia. }
  assert (Hunfold : forall kb,
            ComputeCpuBufferSizeInPages kPageSize kb
            = N.max 1
                ((if (64 * 1024 <? (if (kb =? 0)%N then 2 * 1024 else kb))%N
                  then 64 * 1024
                  else if (kb =? 0)%N then 2 * 1024 else kb)
                 / page_kb)).
  { intros kb. unfold ComputeCpuBufferSizeInPages, kMaxPerCpuBufferSizeKb,
      kDefaultPerCpuBufferSizeKb. fold page_kb. apply Hmax. }
  assert (Hcap : forall kb, (65536 < kb)%N ->
            ComputeCpuBufferSizeInPages kPageSize kb = (65536 / page_kb)%N).
  { intros kb Hkb'. rewrite Hunfold.
    destruct (N.eqb_spec kb 0) as [-> | _]; [lia|].
    destruct (N.ltb_spec (64 * 1024) kb) as [_ | ?]; [|lia].
    now apply Hbig. }
  assert (Hin : forall kb, (1 <= kb <= 65536)%N ->
            ComputeCpuBufferSizeInPages kPageSize kb
            = N.max 1 (kb / page_kb)).
  { intros kb [H1 H2]. rewrite Hunfold.
    destruct (N.eqb_spec kb 0) as [-> | _]; [lia|].
    destruct (N.ltb_spec (64 * 1024) kb) as [? | _]; [lia|]. reflexivity. }
  assert (H0 : ComputeCpuBufferSizeInPages kPageSize 0
               = (2048 / page_kb)%N).
  { rewrite Hunfold. cbn [N.eqb]. now apply Hbig. }
  split; [exact H0|].
  split.
  { intros ->. reflexivity. }
  split.
  { intros kb Hkb'. rewrite (Hcap kb Hkb'), (Hin 65536%N) by lia.
    symmetry. now apply Hbig. }
  split; [exact Hcap|].
  split.
  { intros -> kb Hkb'. unfold ComputeCpuBufferSizeInPages.
    destruct (N.eqb_spec kb 0) as [-> | _]; [lia|].
    unfold kMaxPerCpuBufferSizeKb.
    destruct (N.ltb_spec (64 * 1024) kb) as [_ | ?]; [|lia].
    reflexivity. }
  split; [exact Hin|].
  split.
  { rewrite (Hin 1%N) by lia.
    destruct (N.eq_dec page_kb 1%N) as [-> | Hne]; [reflexivity|].
    rewrite N.div_small by lia. reflexivity. }
  apply ComputeCpuBufferSizeInPages_ge_1.
Qed.

(** With pages of 4 KiB: the default is 512 pages, a request of 100000 KiB
    gives the 16384 pages of the cap, a request of 42 KiB gives 10 pages, and
    requests of 1 KiB and of 3 KiB give 1 page. *)
Lemma ComputeCpuBufferSizeInPages_cases_witness :
  ComputeCpuBufferSizeInPages 4096 0 = 512%N
  /\ ComputeCpuBufferSizeInPages 4096 100000 = 16384%N
  /\ ComputeCpuBufferSizeInPages 4096 65537
     = ComputeCpuBufferSizeInPages 4096 65536
  /\ ComputeCpuBufferSizeInPages 4096 42 = 10%N
  /\ ComputeCpuBufferSizeInPages 4096 4096 = 1024%N
  /\ ComputeCpuBufferSizeInPages 4096 3 = 1%N
  /\ ComputeCpuBufferSizeInPages 4096 1 = 1%N
  /\ (forall kb, (1 <= ComputeCpuBufferSizeInPages 4096 kb)%N).
Proof.
  destruct (ComputeCpuBufferSizeInPages_cases 4096)
    as (_ & Hdefault & Hsame & _ & Hcap & Hin & Hone & Hpos); [lia|].
  split; [exact (Hdefault eq_refl)|].
  split; [apply (Hcap eq_refl); lia|].
  split; [apply Hsame; lia|].
  split; [rewrite Hin by lia; reflexivity|].
  split; [rewrite Hin by lia; reflexivity|].
  split; [rewrite Hin by lia; reflexivity|].
  split; [exact Hone | exact Hpos].
Defined.

(** C5. With pages of 4 KiB, the pages that [ComputeCpuBufferSizeInPages]
    returns take at most the cap of 64 MiB for every request: less than the
    cap exactly for the requests below 65536 KiB, and the cap itself for a
    request of 65536 KiB and for every larger one, which the guard caps to
    it. *)
Theorem buffer_within_cap (kb : N) :
  (ComputeCpuBufferSizeInPages 4096 kb * 4 <= 64 * 1024)%N
  /\ ((ComputeCpuBufferSizeInPages 4096 kb * 4 < 64 * 1024)%N
      <-> (kb < 65536)%N)
  /\ ((65536 <= kb)%N ->
      (ComputeCpuBufferSizeInPages 4096 kb * 4 = 64 * 1024)%N).
Proof.
  destruct (N.eq_dec kb 0%N) as [-> | Hnz].
  { change (ComputeCpuBufferSizeInPages 4096 0) with 512%N.
    repeat split; intros; lia. }
  destruct (N.lt_ge_cases 65536%N kb) as [Hbig | Hsmall].
  { assert (Hv : ComputeCpuBufferSizeInPages 4096 kb = 16384%N).
    { unfold ComputeCpuBufferSizeInPages, kMaxPerCpuBufferSizeKb.
      destruct (N.eqb_spec kb 0) as [? | _]; [contradiction|].
      destruct (N.ltb_spec (64 * 1024) kb) as [_ | ?]; [reflexivity | lia]. }
    rewrite Hv. repeat split; intros; lia. }
  destruct (N.eq_dec kb 65536%N) as [-> | Hne].
  { change (ComputeCpuBufferSizeInPages 4096 65536) with 16384%N.
    repeat split; intros; lia. }
  assert (Hv : ComputeCpuBufferSizeInPages 4096 kb = N.max 1 (kb / 4)).
  { unfold ComputeCpuBufferSizeInPages, kMaxPerCpuBufferSizeKb.
    change (4096 / 1024)%N with 4%N.
    destruct (N.eqb_spec kb 0) as [? | _]; [contradiction|].
    destruct (N.ltb_spec (64 * 1024) kb) as [? | _]; [lia|].
    generalize (kb / 4)%N. intros q.
    destruct (N.eqb_spec q 0) as [-> | ?]; lia. }
  rewrite Hv.
  assert (Hle : (kb / 4 * 4 <= kb)%N)
    by (rewrite N.mul_comm; apply N.Div0.mul_div_le).
  set (q := (kb / 4)%N) in *.
  repeat split; intros; lia.
Qed.

(** With pages of 4 KiB: a request of 65535 KiB stays below the cap, and a
    request of 70000 KiB reaches it. *)
Lemma buffer_within_cap_witness :
  (ComputeCpuBufferSizeInPages 4096 65535 * 4 < 64 * 1024)%N
  /\ (ComputeCpuBufferSizeInPages 4096 70000 * 4 = 64 * 1024)%N.
Proof.
  destruct (buffer_within_cap 65535) as (_ & Hbelow & _).
  destruct (buffer_within_cap 70000) as (_ & _ & Hcap).
  split; [apply Hbelow; lia | apply Hcap; lia].
Defined.

(** The bound of C5 as it was stated, [result * 4 KiB < 64 MiB], fails at
    the cap: a request of 65536 KiB, with pages of 4 KiB, gives 16384 pages,
    and 16384 * 4 KiB is the cap itself. *)
Theorem buffer_cap_reached :
  (ComputeCpuBufferSizeInPages 4096 65536 * 4 = kMaxPerCpuBufferSizeKb)%N
  /\ ~ buffer_below_cap 65536.
Proof.
  split; [reflexivity|]. unfold buffer_below_cap. vm_compute. intros H. discriminate H.
Qed.

(** ** The atrace command line *)

Lemma append_cons (c : ascii) (x y : string) :
  (String c x ++ y = String c (x ++ y))%string.
Proof. reflexivity. Qed.

Lemma substring_prefix (x y : string) :
  String.substring 0 (String.length x) (x ++ y)%string = x.
Proof.
  induction x as [| c x IH].
  - destruct y; reflexivity.
  - rewrite append_cons. cbn [String.length String.substring].
    now rewrite IH.
Qed.

Lemma length_append_comma (x : string) :
  String.length (x ++ ",")%string = S (String.length x).
Proof.
  induction x as [| c x IH]; [reflexivity|].
  rewrite append_cons. cbn [String.length]. now rewrite IH.
Qed.

Lemma append_assoc (x y z : string) :
  ((x ++ y) ++ z = x ++ (y ++ z))%string.
Proof.
  induction x as [| c x IH]; [reflexivity|].
  rewrite !append_cons. now rewrite IH.
Qed.

Lemma append_empty_r (x : string) : (x ++ "")%string = x.
Proof.
  induction x as [| c x IH]; [reflexivity|].
  rewrite append_cons. now rewrite IH.
Qed.

(** The loop that builds the argument leaves every app followed by a comma
    after what was already there. *)
Lemma apps_loop (apps : list string) (arg : string) :
  fold_left (fun arg app => (arg ++ app ++ ",")%string) apps arg
  = (arg ++ fold_right (fun app rest => app ++ "," ++ rest) "" apps)%string.
Proof.
  revert arg. induction apps as [| app apps IH]; intros arg;
    cbn [fold_left fold_right].
  - now rewrite append_empty_r.
  - rewrite IH. now rewrite !append_assoc.
Qed.

Lemma concat_then_comma (apps : list string) :
  apps <> [] ->
  fold_right (fun app rest => (app ++ "," ++ rest)%string) "" apps
  = (String.concat "," apps ++ ",")%string.
Proof.
  induction apps as [| app apps IH]; intros Hne; [congruence|].
  destruct apps as [| app' apps].
  - reflexivity.
  - change (fold_right (fun app rest => (app ++ "," ++ rest)%string) ""
              (app :: app' :: apps))
      with (app ++ "," ++
            fold_right (fun app rest => (app ++ "," ++ rest)%string) ""
              (app' :: apps))%string.
    rewrite IH by discriminate.
    change (String.concat "," (app :: app' :: apps))
      with (app ++ "," ++ String.concat "," (app' :: apps))%string.
    now rewrite !append_assoc.
Qed.

(** Dropping the last character of the loop's result gives the apps joined
    with commas. *)
Lemma apps_arg_concat (apps : list string) :
  apps <> [] -> apps_arg apps = String.concat "," apps.
Proof.
  intros Hne. unfold apps_arg. rewrite apps_loop.
  rewrite concat_then_comma by assumption.
  change ("" ++ String.concat "," apps ++ ",")%string
    with (String.concat "," apps ++ ",")%string.
  rewrite length_append_comma, Nat.sub_1_r. cbn [Nat.pred].
  apply substring_prefix.
Qed.

Lemma push_back_loop (categories args : list string) :
  fold_left (fun args category => (args ++ [category])%list) categories args
  = (args ++ categories)%list.
Proof.
  revert args. induction categories as [| c cs IH]; intros args; simpl.
  - now rewrite app_nil_r.
  - rewrite IH, <- app_assoc. reflexivity.
Qed.

Section AtraceArgs.

Context {W T : Type} (P : Platform W T).

Lemma StartAtrace_args_eq (apps categories : list string) :
  StartAtrace_args P apps categories
  = (["atrace"; "--async_start"]
     ++ (if IsOldAtrace P then [] else ["--only_userspace"])
     ++ categories
     ++ (if bool_decide (apps = []) then []
         else ["-a"; String.concat "," apps]))%list.
Proof.
  unfold StartAtrace_args. rewrite push_back_loop.
  destruct (IsOldAtrace P); simpl;
    (case_bool_decide as Happs; simpl;
     [ now rewrite app_nil_r
     | rewrite apps_arg_concat by assumption;
       rewrite <- app_assoc; reflexivity ]).
Qed.

(** C6. [StartAtrace(apps, categories)] launches atrace once, with the argv
    [atrace --async_start], then [--only_userspace] unless atrace is the
    legacy one, then the categories as given and in order, then, exactly when
    [apps] is not empty, [-a] and the apps joined by commas (no comma after
    the last one); it returns what the launcher returned and changes nothing
    in the muxer. *)
Theorem StartAtrace_argv (apps categories : list string) (s : Run W T) :
  let args :=
    (["atrace"; "--async_start"]
     ++ (if IsOldAtrace P then [] else ["--only_userspace"])
     ++ categories
     ++ (if bool_decide (apps = []) then []
         else ["-a"; String.concat "," apps]))%list in
  let r := perform P (Call.RunAtrace args) (kernel s) in
  StartAtrace P apps categories s
  = Some (fst r,
          mkRun (mux s) (snd r) (table s)
            (log s ++ [(Call.RunAtrace args, fst r)])).
Proof.
  intros args r. unfold StartAtrace, call.
  rewrite StartAtrace_args_eq. reflexivity.
Qed.

End AtraceArgs.

(** ** Clock setup *)

Section Clock.

Context {W T : Type} (P : Platform W T).

Lemma SetupClock_loop_spec (to_try : list string) (clocks : gset string)
    (current_clock : string) (s : Run W T) :
  let selected := find (fun clock => bool_decide (clock ∈ clocks)) to_try in
  SetupClock_loop P to_try clocks current_clock s
  = match selected with
    | Some clock =>
        if bool_decide (clock = current_clock) then Some (current_clock, s)
        else
          let r := perform P (Call.SetClock clock) (kernel s) in
          Some (clock,
                mkRun (mux s) (snd r) (table s)
                  (log s ++ [(Call.SetClock clock, fst r)]))
    | None => Some (current_clock, s)
    end.
Proof.
  induction to_try as [| clock rest IH]; [reflexivity|].
  cbn [SetupClock_loop find].
  destruct (bool_decide (clock ∈ clocks)); cbn [negb].
  - destruct (String.eqb_spec current_clock clock) as [-> | Hne].
    + rewrite bool_decide_eq_true_2 by reflexivity. reflexivity.
    + rewrite bool_decide_eq_false_2 by congruence. reflexivity.
  - exact IH.
Qed.

Lemma clock_of_name_cases (current_clock : string) :
  (current_clock = "boot" ->
   clock_of_name current_clock = FTRACE_CLOCK_UNSPECIFIED)
  /\ (current_clock = "global" ->
      clock_of_name current_clock = FTRACE_CLOCK_GLOBAL)
  /\ (current_clock = "local" ->
      clock_of_name current_clock = FTRACE_CLOCK_LOCAL)
  /\ (current_clock <> "boot" -> current_clock <> "global" ->
      current_clock <> "local" ->
      clock_of_name current_clock = FTRACE_CLOCK_UNKNOWN).
Proof.
  unfold clock_of_name. repeat split.
  - intros ->. reflexivity.
  - intros ->. reflexivity.
  - intros ->. reflexivity.
  - intros Hb Hg Hl.
    destruct (String.eqb_spec current_clock "boot"); [congruence|].
    destruct (String.eqb_spec current_clock "global"); [congruence|].
    destruct (String.eqb_spec current_clock "local"); [congruence|].
    reflexivity.
Qed.

(** The loop of [SetupClock] over [kClocks] stops at the clock that the
    preference order boot, global, local selects. *)
Lemma preferred_clock_find (clocks : gset string) :
  find (fun clock => bool_decide (clock ∈ clocks)) kClocks
  = preferred_clock clocks.
Proof.
  unfold preferred_clock, kClocks. cbn [find].
  repeat match goal with
         | |- context [bool_decide ?p] => destruct (bool_decide p)
         end; reflexivity.
Qed.

(** C8. [SetupClock] selects the first of [boot], [global], [local], in this
    order, that the kernel advertises: [boot] whenever it is advertised,
    [global] when [boot] is not and [global] is, [local] when only that one
    is, and none when none of the three is.  It writes the selected clock
    with [SetClock] only when it is not the current clock already, and
    writes nothing else.  With the resulting clock being the selected one,
    or the kernel's current clock when none of the three is advertised, the
    recorded [ftrace_clock] is UNSPECIFIED for [boot], GLOBAL for [global],
    LOCAL for [local] and UNKNOWN for anything else. *)
Theorem SetupClock_selects (request : FtraceConfig.t) (s : Run W T) :
  let w := kernel s in
  let clocks := AvailableClocks P w in
  let selected := preferred_clock clocks in
  let resulting := default (GetClock P w) selected in
  ("boot" ∈ clocks -> selected = Some "boot")
  /\ ("boot" ∉ clocks -> "global" ∈ clocks -> selected = Some "global")
  /\ ("boot" ∉ clocks -> "global" ∉ clocks -> "local" ∈ clocks ->
      selected = Some "local")
  /\ ("boot" ∉ clocks -> "global" ∉ clocks -> "local" ∉ clocks ->
      selected = None)
  /\ exists s',
    SetupClock P request s = Some (tt, s')
    /\ log s'
       = (log s
          ++ match selected with
             | Some clock =>
                 if bool_decide (clock = GetClock P w) then []
                 else [(Call.SetClock clock,
                        fst (perform P (Call.SetClock clock) w))]
             | None => []
             end)%list
    /\ map fst (log s') = (map fst (log s) ++ clock_writes P w)%list
    /\ (forall clock, In (Call.SetClock clock) (clock_writes P w) <->
          selected = Some clock /\ clock <> GetClock P w)
    /\ (resulting = "boot" ->
        FtraceState.ftrace_clock (current_state_ (mux s'))
        = FTRACE_CLOCK_UNSPECIFIED)
    /\ (resulting = "global" ->
        FtraceState.ftrace_clock (current_state_ (mux s'))
        = FTRACE_CLOCK_GLOBAL)
    /\ (resulting = "local" ->
        FtraceState.ftrace_clock (current_state_ (mux s'))
        = FTRACE_CLOCK_LOCAL)
    /\ (resulting <> "boot" -> resulting <> "global" ->
        resulting <> "local" ->
        FtraceState.ftrace_clock (current_state_ (mux s'))
        = FTRACE_CLOCK_UNKNOWN).
Proof.
  intros w clocks selected resulting.
  assert (Horder :
            ("boot" ∈ clocks -> selected = Some "boot")
            /\ ("boot" ∉ clocks -> "global" ∈ clocks ->
                selected = Some "global")
            /\ ("boot" ∉ clocks -> "global" ∉ clocks -> "local" ∈ clocks ->
                selected = Some "local")
            /\ ("boot" ∉ clocks -> "global" ∉ clocks -> "local" ∉ clocks ->
                selected = None)).
  { subst selected. unfold preferred_clock.
    repeat case_bool_decide; repeat split; intros; try reflexivity;
      contradiction. }
  destruct Horder as (O1 & O2 & O3 & O4).
  split; [exact O1|]. split; [exact O2|]. split; [exact O3|].
  split; [exact O4|].
  assert (Hwrites : forall clock,
            In (Call.SetClock clock) (clock_writes P w) <->
            selected = Some clock /\ clock <> GetClock P w).
  { intros clock. unfold clock_writes. fold clocks selected.
    destruct selected as [c|]; [|cbn; split; [tauto | intros [? _]; congruence]].
    case_bool_decide as Hc; cbn.
    - split; [tauto|]. intros [[= ->] Hne]. congruence.
    - split.
      + intros [[= ->] | []]. split; [reflexivity | assumption].
      + intros [[= ->] _]. now left. }
  assert (Hrun : exists s',
            SetupClock P request s = Some (tt, s')
            /\ log s'
               = (log s
                  ++ match selected with
                     | Some clock =>
                         if bool_decide (clock = GetClock P w) then []
                         else [(Call.SetClock clock,
                                fst (perform P (Call.SetClock clock) w))]
                     | None => []
                     end)%list
            /\ map fst (log s') = (map fst (log s) ++ clock_writes P w)%list
            /\ FtraceState.ftrace_clock (current_state_ (mux s'))
               = clock_of_name resulting).
  { unfold SetupClock, bind, get_kernel. rewrite SetupClock_loop_spec.
    cbv zeta. fold w clocks. rewrite preferred_clock_find.
    unfold clock_writes, resulting. fold clocks selected.
    destruct selected as [c|]; cbn [default].
    - destruct (decide (c = GetClock P w)) as [-> | Hne].
      + rewrite !bool_decide_eq_true_2 by reflexivity.
        eexists. split; [reflexivity|]. cbn. now rewrite !app_nil_r.
      + rewrite !bool_decide_eq_false_2 by assumption.
        eexists. split; [reflexivity|]. cbn.
        split; [reflexivity|]. rewrite map_app. now cbn.
    - eexists. split; [reflexivity|]. cbn. now rewrite !app_nil_r. }
  destruct Hrun as (s' & Hs' & Hlog & Hcalls & Hclock).
  exists s'. rewrite Hclock.
  destruct (clock_of_name_cases resulting) as (Hb & Hg & Hl & Hu).
  split; [assumption|]. split; [assumption|]. split; [assumption|].
  split; [exact Hwrites|].
  repeat split; assumption.
Qed.

End Clock.

(** On a kernel at rest, whose clock is [local] and which advertises the
    three clocks, [boot] is written and UNSPECIFIED recorded; on a kernel
    that advertises [global] and [local] alone and runs on [global], nothing
    is written and GLOBAL is recorded. *)
Lemma SetupClock_selects_witness :
  (exists s',
     SetupClock (Demo.platform false) (Demo.request [] [] [])
       (Demo.start Demo.kernel0) = Some (tt, s')
     /\ log s' = [(Call.SetClock "boot", true)]
     /\ FtraceState.ftrace_clock (current_state_ (mux s'))
        = FTRACE_CLOCK_UNSPECIFIED)
  /\ (exists s',
        SetupClock (Demo.platform false) (Demo.request [] [] [])
          (Demo.start global_kernel) = Some (tt, s')
        /\ log s' = []
        /\ FtraceState.ftrace_clock (current_state_ (mux s'))
           = FTRACE_CLOCK_GLOBAL).
Proof.
  split.
  - destruct (SetupClock_selects (Demo.platform false) (Demo.request [] [] [])
                (Demo.start Demo.kernel0))
      as (Hboot & _ & _ & _ & s' & Hrun & Hlog & _ & _ & Hb & _).
    exists s'. split; [exact Hrun|].
    rewrite Hboot in Hlog, Hb by (apply (bool_decide_unpack _); vm_compute;
                                  exact I).
    split; [exact Hlog | exact (Hb eq_refl)].
  - destruct (SetupClock_selects (Demo.platform false) (Demo.request [] [] [])
                (Demo.start global_kernel))
      as (_ & Hglobal & _ & _ & s' & Hrun & Hlog & _ & _ & _ & Hg & _).
    exists s'. split; [exact Hrun|].
    rewrite Hglobal in Hlog, Hg
      by (apply (bool_decide_unpack _); vm_compute; exact I).
    split; [exact Hlog | exact (Hg eq_refl)].
Defined.

(** ** The event resolver *)

Section Resolver.

Context {W T : Type} (P : Platform W T).

Lemma elem_of_add_names (group : string) (events : list Event.t)
    (to : gset GroupAndName) (x : GroupAndName) :
  x ∈ fold_left (fun to event => {[ (group, Event.name event) ]} ∪ to)
        events to
  <-> x ∈ to \/ exists event, In event events /\ x = (group, Event.name event).
Proof.
  revert to. induction events as [| e events IH]; intros to; cbn [fold_left].
  - split; [tauto|]. intros [? | (? & [] & _)]. assumption.
  - rewrite IH. rewrite elem_of_union, elem_of_singleton. split.
    + intros [[-> | ?] | (ev & Hin & ->)].
      * right. exists e. split; [now left | reflexivity].
      * now left.
      * right. exists ev. split; [now right | reflexivity].
    + intros [? | (ev & [<- | Hin] & ->)].
      * left. now right.
      * left. now left.
      * right. now exists ev.
Qed.

Lemma elem_of_AddEventGroup (tbl : T) (group : string)
    (to : gset GroupAndName) (x : GroupAndName) :
  x ∈ AddEventGroup P tbl group to
  <-> x ∈ to
      \/ exists events event,
           GetEventsByGroup P group tbl = Some events
           /\ In event events /\ x = (group, Event.name event).
Proof.
  unfold AddEventGroup.
  destruct (GetEventsByGroup P group tbl) as [events|].
  - rewrite elem_of_add_names. split.
    + intros [? | (ev & ? & ?)]; [now left|]. right. now exists events, ev.
    + intros [? | (evs & ev & [= <-] & ? & ?)]; [now left|].
      right. now exists ev.
  - split; [tauto|]. intros [? | (? & ? & ? & _)]; [assumption | congruence].
Qed.

Lemma elem_of_apply_insertion (tbl : T) (events : gset GroupAndName)
    (i : Insertion) (x : GroupAndName) :
  x ∈ apply_insertion P tbl events i
  <-> x ∈ events
      \/ match i with
         | AddGroup group =>
             exists evs event,
               GetEventsByGroup P group tbl = Some evs
               /\ In event evs /\ x = (group, Event.name event)
         | Insert group name => x = (group, name)
         end.
Proof.
  destruct i as [group | group name]; cbn [apply_insertion].
  - apply elem_of_AddEventGroup.
  - unfold InsertEvent. rewrite elem_of_union, elem_of_singleton. tauto.
Qed.

(** What a list of insertions adds to a set. *)
Lemma elem_of_insertions (tbl : T) (l : list Insertion)
    (events : gset GroupAndName) (x : GroupAndName) :
  x ∈ fold_left (apply_insertion P tbl) l events
  <-> x ∈ events
      \/ exists i, In i l
           /\ match i with
              | AddGroup group =>
                  exists evs event,
                    GetEventsByGroup P group tbl = Some evs
                    /\ In event evs /\ x = (group, Event.name event)
              | Insert group name => x = (group, name)
              end.
Proof.
  revert events. induction l as [| i l IH]; intros events; cbn [fold_left].
  - split; [tauto|]. intros [? | (? & [] & _)]. assumption.
  - rewrite IH, elem_of_apply_insertion. split.
    + intros [[? | ?] | (j & ? & ?)].
      * now left.
      * right. exists i. split; [now left | assumption].
      * right. exists j. split; [now right | assumption].
    + intros [? | (j & [<- | ?] & ?)].
      * left. now left.
      * left. now right.
      * right. now exists j.
Qed.

(** What the loop over the categories adds to a set. *)
Lemma elem_of_categories (tbl : T) (categories : list string)
    (events : gset GroupAndName) (x : GroupAndName) :
  x ∈ fold_left (expand_category P tbl) categories events
  <-> x ∈ events
      \/ exists category i,
           In category categories /\ In i (category_insertions category)
           /\ match i with
              | AddGroup group =>
                  exists evs event,
                    GetEventsByGroup P group tbl = Some evs
                    /\ In event evs /\ x = (group, Event.name event)
              | Insert group name => x = (group, name)
              end.
Proof.
  revert events.
  induction categories as [| c cs IH]; intros events; cbn [fold_left].
  - split; [tauto|]. intros [? | (? & ? & [] & _)]. assumption.
  - rewrite IH. unfold expand_category at 1. rewrite elem_of_insertions.
    split.
    + intros [[? | (i & ? & ?)] | (c' & i & ? & ? & ?)].
      * now left.
      * right. exists c, i. split; [now left | tauto].
      * right. exists c', i. split; [now right | tauto].
    + intros [? | (c' & i & [<- | ?] & ? & ?)].
      * left. now left.
      * left. right. now exists i.
      * right. now exists c', i.
Qed.

(** No block of the category chain can produce [sched/sched_wakeup]. *)
Lemma no_category_adds_sched_wakeup (category : string) :
  forallb (avoids ("sched", "sched_wakeup")) (category_insertions category)
  = true.
Proof.
  unfold category_insertions.
  repeat (match goal with
          | |- context [String.eqb category ?c] =>
              destruct (String.eqb category c); [vm_compute; reflexivity|]
          end).
  reflexivity.
Qed.

Lemma avoids_not_produced (tbl : T) (x : GroupAndName) (i : Insertion) :
  avoids x i = true ->
  ~ match i with
    | AddGroup group =>
        exists evs event,
          GetEventsByGroup P group tbl = Some evs
          /\ In event evs /\ x = (group, Event.name event)
    | Insert group name => x = (group, name)
    end.
Proof.
  destruct i as [group | group name]; cbn [avoids]; intros Hav.
  - intros (evs & ev & _ & _ & ->). cbn [fst] in Hav.
    now rewrite String.eqb_refl in Hav.
  - intros ->. cbn [fst snd] in Hav. now rewrite !String.eqb_refl in Hav.
Qed.

Lemma RequiresAtrace_categories (request : FtraceConfig.t) (c : string) :
  In c (FtraceConfig.atrace_categories request) ->
  RequiresAtrace request = true.
Proof.
  intros Hin. unfold RequiresAtrace.
  rewrite bool_decide_eq_false_2; [reflexivity|].
  intros E. rewrite E in Hin. destruct Hin.
Qed.

(** C9. A request with atrace categories or apps resolves to a set that
    holds [ftrace/print].  When the categories contain [sched], the set holds
    each event that the table lists for [sched] and, for each of the groups
    [cgroup], [systrace] and [scm], every event the translation table has in
    that group; and when moreover the request names no event itself, the set
    does not hold [sched/sched_wakeup]. *)
Theorem GetFtraceEvents_atrace (request : FtraceConfig.t) (tbl : T) (w : W) :
  (RequiresAtrace request = true ->
   ("ftrace", "print") ∈ GetFtraceEvents P request tbl w)
  /\ (In "sched" (FtraceConfig.atrace_categories request) ->
      (forall gn, In gn sched_category_events ->
         gn ∈ GetFtraceEvents P request tbl w)
      /\ (forall group events event,
            In group sched_category_groups ->
            GetEventsByGroup P group tbl = Some events ->
            In event events ->
            (group, Event.name event) ∈ GetFtraceEvents P request tbl w)
      /\ (FtraceConfig.ftrace_events request = [] ->
          ("sched", "sched_wakeup") ∉ GetFtraceEvents P request tbl w)).
Proof.
  split.
  - intros Hreq. unfold GetFtraceEvents. rewrite Hreq.
    apply elem_of_categories. left. unfold InsertEvent.
    apply elem_of_union. left. now apply elem_of_singleton.
  - intros Hsched.
    pose proof (RequiresAtrace_categories request _ Hsched) as Hreq.
    unfold GetFtraceEvents. rewrite Hreq.
    split; [|split].
    + intros gn Hgn. apply elem_of_categories. right.
      exists "sched", (Insert (fst gn) (snd gn)).
      split; [assumption|]. split; [|now destruct gn].
      unfold sched_category_events in Hgn. cbn [In] in Hgn.
      repeat (destruct Hgn as [<- | Hgn];
              [vm_compute; repeat (try (left; reflexivity); right)|]).
      destruct Hgn.
    + intros group events event Hgroup Hevents Hevent.
      apply elem_of_categories. right.
      exists "sched", (AddGroup group).
      split; [assumption|]. split; [|now exists events, event].
      unfold sched_category_groups in Hgroup. cbn [In] in Hgroup.
      repeat (destruct Hgroup as [<- | Hgroup];
              [vm_compute; repeat (try (left; reflexivity); right)|]).
      destruct Hgroup.
    + intros Hnone. rewrite Hnone. cbn [fold_left].
      rewrite elem_of_categories. intros [Hin | (c & i & _ & Hi & Hprod)].
      * unfold InsertEvent in Hin.
        apply elem_of_union in Hin as [Hin | Hin].
        -- apply elem_of_singleton in Hin. discriminate Hin.
        -- now apply not_elem_of_empty in Hin.
      * pose proof (no_category_adds_sched_wakeup c) as Hall.
        rewrite forallb_forall in Hall.
        exact (avoids_not_produced tbl _ i (Hall i Hi) Hprod).
Qed.

End Resolver.

(** On the small platform: a request for the category [sched] alone. *)
Lemma GetFtraceEvents_atrace_witness :
  let request := Demo.request [] ["sched"] [] in
  let result :=
    GetFtraceEvents (Demo.platform false) request Demo.events Demo.kernel0 in
  ("ftrace", "print") ∈ result
  /\ (forall gn, In gn sched_category_events -> gn ∈ result)
  /\ ("sched", "sched_wakeup") ∉ result.
Proof.
  intros request result.
  destruct (GetFtraceEvents_atrace (Demo.platform false) request Demo.events
              Demo.kernel0) as [Hprint Hsched].
  destruct Hsched as (Hevents & _ & Hwakeup); [now left|].
  split; [apply Hprint; reflexivity|].
  split; [exact Hevents | apply Hwakeup; reflexivity].
Defined.

(** ** Sorted unions and intersections *)

Lemma In_std_sort (v : list string) (x : string) :
  In x (std_sort v) <-> In x v.
Proof.
  unfold std_sort. rewrite <- !list_elem_of_In.
  now rewrite (merge_sort_Permutation String.le v).
Qed.

Lemma length_std_sort (v : list string) : length (std_sort v) = length v.
Proof.
  unfold std_sort.
  exact (Permutation_length (merge_sort_Permutation String.le v)).
Qed.

Lemma NoDup_std_sort (v : list string) : NoDup v -> NoDup (std_sort v).
Proof.
  unfold std_sort. intros Hv.
  now rewrite (merge_sort_Permutation String.le v).
Qed.

(** Two strings of which neither is below the other are equal. *)
Lemma ltb_neither (x y : string) :
  String.ltb x y = false -> String.ltb y x = false -> x = y.
Proof.
  unfold String.ltb. intros Hxy Hyx.
  apply String.compare_eq_iff.
  rewrite String.compare_antisym in Hyx.
  destruct (String.compare x y); cbn in *; congruence.
Qed.

(** [set_union] holds the elements of both ranges and no other. *)
Lemma In_set_union (a b : list string) (z : string) :
  In z (set_union a b) <-> In z a \/ In z b.
Proof.
  revert b. induction a as [| x a IHa]; intros b.
  - destruct b; cbn; tauto.
  - induction b as [| y b IHb].
    + cbn. tauto.
    + cbn [set_union].
      destruct (String.ltb y x) eqn:Hyx.
      * cbn [In]. cbn [set_union] in IHb. rewrite IHb. cbn [In]. tauto.
      * destruct (String.ltb x y) eqn:Hxy.
        -- cbn [In]. rewrite IHa. cbn [In]. tauto.
        -- pose proof (ltb_neither x y Hxy Hyx) as ->.
           cbn [In]. rewrite IHa. tauto.
Qed.

(** [UnionInPlace] leaves in [*out] the strings of either vector. *)
Lemma In_UnionInPlace (a out : list string) (z : string) :
  In z (UnionInPlace a out) <-> In z a \/ In z out.
Proof. unfold UnionInPlace. now rewrite In_set_union, !In_std_sort. Qed.

(** ** Updating atrace *)

Section UpdateAtrace.

Context {W T : Type} (P : Platform W T).

(** [UpdateAtrace] as one equation. *)
Lemma UpdateAtrace_run (request : FtraceConfig.t) (s : Run W T) :
  let st := current_state_ (mux s) in
  let combined_apps :=
    UnionInPlace (FtraceState.atrace_apps st)
      (FtraceConfig.atrace_apps request) in
  let combined_categories :=
    UnionInPlace (FtraceState.atrace_categories st)
      (FtraceConfig.atrace_categories request) in
  UpdateAtrace P request s
  = if FtraceState.atrace_on st
       && Nat.eqb (length combined_apps)
            (length (FtraceState.atrace_apps st))
       && Nat.eqb (length combined_categories)
            (length (FtraceState.atrace_categories st))
    then Some (tt, s)
    else
      let launch :=
        Call.RunAtrace
          (StartAtrace_args P combined_apps combined_categories) in
      let r := perform P launch (kernel s) in
      if fst r then
        Some (tt,
              mkRun
                (set_current_state_
                   (atrace_updated st combined_apps combined_categories)
                   (mux s))
                (snd r) (table s) (log s ++ [(launch, fst r)]))
      else
        Some (tt,
              mkRun (mux s) (snd r) (table s) (log s ++ [(launch, fst r)])).
Proof.
  intros st combined_apps combined_categories.
  unfold UpdateAtrace, bind, get_mux.
  fold st. fold combined_apps. fold combined_categories.
  destruct (FtraceState.atrace_on st
            && Nat.eqb (length combined_apps)
                 (length (FtraceState.atrace_apps st))
            && Nat.eqb (length combined_categories)
                 (length (FtraceState.atrace_categories st)));
    [reflexivity|].
  unfold StartAtrace, call. cbv zeta.
  destruct (fst (perform P
                   (Call.RunAtrace
                      (StartAtrace_args P combined_apps
                         combined_categories)) (kernel s)));
    reflexivity.
Qed.


End UpdateAtrace.


(** ** SetupConfig *)

Section Setup.

Context {W T : Type} (P : Platform W T).

Lemma keeps_registry_refl (s : Run W T) : keeps_registry s s.
Proof. now repeat split. Qed.

Lemma keeps_registry_trans (s1 s2 s3 : Run W T) :
  keeps_registry s1 s2 -> keeps_registry s2 s3 -> keeps_registry s1 s3.
Proof.
  unfold keeps_registry. intros (A1 & A2 & A3 & A4) (B1 & B2 & B3 & B4).
  repeat split; congruence.
Qed.

Lemma call_keeps (c : Call.t) (s : Run W T) :
  exists r s', call P c s = Some (r, s') /\ mux s' = mux s.
Proof. unfold call. eexists _, _. split; reflexivity. Qed.

Lemma modify_state_keeps (f : FtraceState.t -> FtraceState.t) (s : Run W T) :
  exists s', modify_state f s = Some (tt, s') /\ keeps_registry s s'.
Proof.
  unfold modify_state, bind, get_mux, put_mux.
  eexists. split; [reflexivity|]. now repeat split.
Qed.

Lemma SetupClock_keeps (request : FtraceConfig.t) (s : Run W T) :
  exists s', SetupClock P request s = Some (tt, s') /\ keeps_registry s s'.
Proof.
  unfold SetupClock, bind, get_kernel. rewrite SetupClock_loop_spec.
  cbv zeta.
  destruct (find _ kClocks) as [c|].
  - case_bool_decide.
    + eexists. split; [reflexivity|]. now repeat split.
    + eexists. split; [reflexivity|]. now repeat split.
  - eexists. split; [reflexivity|]. now repeat split.
Qed.

Lemma SetupBufferSize_keeps (request : FtraceConfig.t) (s : Run W T) :
  exists s', SetupBufferSize P request s = Some (tt, s')
             /\ keeps_registry s s'.
Proof.
  unfold SetupBufferSize, bind, call, modify_state, get_mux, put_mux.
  eexists. split; [reflexivity|]. now repeat split.
Qed.

Lemma UpdateAtrace_keeps (request : FtraceConfig.t) (s : Run W T) :
  exists s', UpdateAtrace P request s = Some (tt, s') /\ keeps_registry s s'.
Proof.
  rewrite UpdateAtrace_run. cbv zeta.
  repeat match goal with
         | |- context [if ?b then _ else _] => destruct b
         end;
    (eexists; split; [reflexivity|]; now repeat split).
Qed.

Lemma enable_event_keeps (filter : EventFilter.t) (gn : GroupAndName)
    (s : Run W T) :
  exists filter' s',
    enable_event P filter gn s = Some (filter', s') /\ keeps_registry s s'.
Proof.
  unfold enable_event, bind, get_or_create_event.
  destruct (fst (GetOrCreateEvent P gn (table s))) as [event|];
    [|eexists _, _; split; [reflexivity|]; now repeat split].
  unfold get_mux. cbn [mux].
  destruct (EventFilter.IsEventEnabled _ _ || String.eqb _ _);
    [eexists _, _; split; [reflexivity|]; now repeat split|].
  unfold call. cbn [kernel].
  destruct (fst (perform P _ _));
    (eexists _, _; split; [reflexivity|]; now repeat split).
Qed.

Lemma fold_each_keeps {A B : Type} (body : B -> A -> M W T B) :
  (forall b x s, exists b' s',
      body b x s = Some (b', s') /\ keeps_registry s s') ->
  forall l b s, exists b' s',
    fold_each l body b s = Some (b', s') /\ keeps_registry s s'.
Proof.
  intros Hbody. induction l as [| x l IH]; intros b s; cbn [fold_each].
  - exists b, s. split; [reflexivity | apply keeps_registry_refl].
  - unfold bind. destruct (Hbody b x s) as (b1 & s1 & -> & Hk1).
    destruct (IH b1 s1) as (b2 & s2 & -> & Hk2).
    exists b2, s2. split; [reflexivity|].
    eapply keeps_registry_trans; eassumption.
Qed.

(** The part of [SetupConfig] that starts at the call of
    [GetFtraceEvents]: it returns 0, and then changes nothing, exactly on the
    legacy-atrace refusal; otherwise it returns the id after [last_id_]. *)
Lemma SetupConfig_events_result (request : FtraceConfig.t) (s : Run W T) :
  exists id s',
    SetupConfig_events P request s = Some (id, s')
    /\ (id = 0%N <->
        IsOldAtrace P = true /\ RequiresAtrace request = true
        /\ ds_configs_ (mux s) <> ∅)
    /\ (id = 0%N -> s' = s)
    /\ (id <> 0%N -> id = (last_id_ (mux s) + 1)%N).
Proof.
  unfold SetupConfig_events.
  unfold bind at 1. unfold get_table at 1.
  unfold bind at 1. unfold get_kernel at 1.
  unfold bind at 1. unfold get_mux at 1.
  destruct (RequiresAtrace request
            && (IsOldAtrace P
                && negb (bool_decide (ds_configs_ (mux s) = ∅)))) eqn:Hc.
  - exists 0%N, s. split; [reflexivity|].
    apply andb_prop in Hc as [Hreq Hc]. apply andb_prop in Hc as [Hold Hne].
    apply negb_true_iff, bool_decide_eq_false in Hne.
    split; [tauto|]. split; [reflexivity | congruence].
  - assert (Hnot : ~ (IsOldAtrace P = true /\ RequiresAtrace request = true
                      /\ ds_configs_ (mux s) <> ∅)).
    { intros (Hold & Hreq & Hne). rewrite Hold, Hreq in Hc.
      rewrite bool_decide_eq_false_2 in Hc by assumption. discriminate Hc. }
    unfold bind at 1.
    assert (Hupd : exists s1,
              (if RequiresAtrace request then UpdateAtrace P request
               else ret tt) s = Some (tt, s1) /\ keeps_registry s s1).
    { destruct (RequiresAtrace request).
      - apply UpdateAtrace_keeps.
      - exists s. split; [reflexivity | apply keeps_registry_refl]. }
    destruct Hupd as (s1 & -> & Hk1).
    unfold bind at 1.
    destruct (fold_each_keeps (enable_event P) (enable_event_keeps)
                (ordered gn_le
                   (fold_left (add_vendor_events (vendor_events_ (mux s)))
                      (FtraceConfig.atrace_categories request)
                      (GetFtraceEvents P request (table s) (kernel s))))
                EventFilter.empty s1) as (filter & s2 & -> & Hk2).
    unfold bind, get_table, get_mux, put_mux, ret.
    eexists _, _. split; [reflexivity|].
    pose proof (keeps_registry_trans _ _ _ Hk1 Hk2) as (_ & _ & Hid & _).
    rewrite Hid.
    split; [split; [lia | tauto]|]. split; [lia | reflexivity].
Qed.

(** C1. [SetupConfig(request)] always returns, and it returns 0 exactly in
    the pre-states (a), (b) and (c) of [setup_refused].  Whenever it returns
    0 the state after is the state before: registry, active set, last id and
    [current_state_] are untouched, the kernel and the table are untouched,
    and the log has no new write or launch. *)
Theorem SetupConfig_zero_iff_refused (request : FtraceConfig.t)
    (s : Run W T) :
  exists id s',
    SetupConfig P request s = Some (id, s')
    /\ (id = 0%N <-> setup_refused P request s)
    /\ (id = 0%N -> s' = s).
Proof.
  unfold SetupConfig, setup_refused.
  unfold bind at 1. unfold get_kernel at 1.
  unfold bind at 1. unfold get_mux at 1.
  destruct (decide (ds_configs_ (mux s) = ∅)) as [Hempty | Hnonempty].
  - rewrite bool_decide_eq_true_2 by assumption.
    destruct (IsTracingEnabled P (kernel s)) eqn:Hon;
      destruct (IsOldAtrace P) eqn:Hold; cbn [andb negb].
    2:{ exists 0%N, s. split; [reflexivity|]. split; [|reflexivity].
        split; [intros _; left; now repeat split | reflexivity]. }
    all: unfold bind at 1;
      destruct (SetupClock_keeps request s) as (s1 & -> & Hk1);
      unfold bind at 1;
      destruct (SetupBufferSize_keeps request s1) as (s2 & -> & Hk2);
      destruct (SetupConfig_events_result request s2)
        as (id & s' & -> & Hzero & _ & _);
      pose proof (keeps_registry_trans _ _ _ Hk1 Hk2) as (Hds & _);
      rewrite Hds in Hzero;
      assert (Hid : id <> 0%N) by (rewrite Hzero; tauto);
      exists id, s'; (split; [reflexivity|]);
      (split; [|tauto]);
      (split; [tauto|]);
      intros [(_ & ? & ?) | [(? & _) | (_ & _ & ?)]]; congruence.
  - rewrite bool_decide_eq_false_2 by assumption.
    destruct (decide (active_configs_ (mux s) = ∅)) as [Hact | Hact].
    + rewrite bool_decide_eq_true_2 by assumption. cbn [andb negb].
      destruct (SetupConfig_events_result request s)
        as (id & s' & -> & Hzero & Hsame & _).
      exists id, s'. split; [reflexivity|]. split; [|assumption].
      rewrite Hzero. split; [tauto|].
      intros [(? & _) | [(_ & ? & _) | ?]]; [congruence.. | assumption].
    + rewrite bool_decide_eq_false_2 by assumption. cbn [andb negb].
      destruct (IsTracingEnabled P (kernel s)) eqn:Hon;
        destruct (IsOldAtrace P) eqn:Hold; cbn [andb negb].
      4:{ exists 0%N, s. split; [reflexivity|]. split; [|reflexivity].
          split; [intros _; right; left; now repeat split | reflexivity]. }
      all: destruct (SetupConfig_events_result request s)
             as (id & s' & -> & Hzero & Hsame & _);
        exists id, s'; (split; [reflexivity|]); (split; [|assumption]);
        rewrite Hzero; rewrite ?Hold; (split; [tauto|]);
        intros [(? & _) | [(_ & _ & ? & ?) | ?]];
        [congruence | congruence | assumption].
Qed.

End Setup.

(** ** RemoveConfig *)

Section Remove.

Context {W T : Type} (P : Platform W T).

Lemma perform_all_app (cs1 cs2 : list Call.t) (w : W) :
  perform_all P (cs1 ++ cs2) w
  = (fst (perform_all P cs1 w)
       ++ fst (perform_all P cs2 (snd (perform_all P cs1 w))),
     snd (perform_all P cs2 (snd (perform_all P cs1 w)))).
Proof.
  revert w. induction cs1 as [| c cs1 IH]; intros w.
  - cbn. now destruct (perform_all P cs2 w).
  - cbn [app perform_all fst snd]. rewrite IH. reflexivity.
Qed.

Lemma set_ftrace_events_same (st : FtraceState.t) :
  FtraceState.set_ftrace_events (FtraceState.ftrace_events st) st = st.
Proof. now destruct st. Qed.

(** The loop over the enabled events, when it runs to its end, has done the
    disable writes of the ids that are not expected, in order, and has taken
    out of [ftrace_events] the ids of the events whose write succeeded. *)
Lemma disable_loop_run (expected : EventFilter.t) (ids : list N) :
  forall s s',
    for_each ids (disable_surplus_event P expected) s = Some (tt, s') ->
    let todo :=
      List.filter (fun id => negb (EventFilter.IsEventEnabled id expected))
        ids in
    let out := disable_all P (table s) todo (kernel s) in
    log s' = log s ++ map (disable_entry P (table s)) (fst out)
    /\ kernel s' = snd out
    /\ table s' = table s
    /\ keeps_registry s s'
    /\ (exists F',
          current_state_ (mux s')
          = FtraceState.set_ftrace_events F' (current_state_ (mux s))
          /\ forall x, x ∈ F' <->
               x ∈ FtraceState.ftrace_events (current_state_ (mux s))
               /\ ~ In x (disabled_ids P (table s) (fst out)))
    /\ (forall id, In id todo -> is_Some (GetEventById P id (table s))).
Proof.
  induction ids as [| id ids IH]; intros s s' Hrun.
  - cbn in Hrun. injection Hrun as <-. cbn.
    rewrite app_nil_r. repeat split; [|intros id []].
    exists (FtraceState.ftrace_events (current_state_ (mux s))).
    split; [now rewrite set_ftrace_events_same|]. intros x. tauto.
  - cbn [for_each] in Hrun. unfold bind at 1 in Hrun.
    cbv zeta. cbn [List.filter].
    unfold disable_surplus_event at 1 in Hrun.
    destruct (EventFilter.IsEventEnabled id expected) eqn:Hexp; cbn [negb].
    + cbn in Hrun. apply IH in Hrun. exact Hrun.
    + unfold bind at 1, get_table at 1 in Hrun.
      destruct (GetEventById P id (table s)) as [event|] eqn:Hev;
        [|discriminate Hrun].
      unfold bind at 1, call at 1 in Hrun.
      assert (Hcall : disable_call P (table s) id
                      = Call.DisableEvent (Event.group event)
                          (Event.name event)).
      { unfold disable_call. now rewrite Hev. }
      rewrite <- Hcall in Hrun.
      set (r := perform P (disable_call P (table s) id) (kernel s)) in *.
      cbn [disable_all fst snd map]. fold r.
      unfold disabled_ids. cbn [flat_map fst snd]. rewrite Hev.
      fold (disabled_ids P (table s)
              (fst (disable_all P (table s)
                      (List.filter
                         (fun id =>
                            negb (EventFilter.IsEventEnabled id expected))
                         ids) (snd r)))).
      destruct (fst r) eqn:Hr.
      * unfold modify_state, bind, get_mux, put_mux in Hrun.
        cbn [mux kernel table log] in Hrun.
        apply IH in Hrun; cbn [table kernel log mux] in *.
        destruct Hrun
          as (Hlog & Hker & Htbl & Hkeep & (F' & HF' & Hmem) & Hsome).
        rewrite Hlog, <- app_assoc. split; [reflexivity|].
        split; [assumption|]. split; [assumption|].
        split; [exact Hkeep|].
        split.
        -- exists F'. split; [rewrite HF'; reflexivity|].
           intros x. rewrite Hmem. cbn [FtraceState.ftrace_events
             FtraceState.set_ftrace_events current_state_ set_current_state_].
           unfold EventFilter.DisableEvent.
           rewrite elem_of_difference, elem_of_singleton, in_app_iff.
           cbn [In]. split.
           ++ intros [[Hx Hne] Hnot]. split; [assumption|].
              intros [[Heq | []] | Hin]; [congruence | now apply Hnot].
           ++ intros [Hx Hnot]. split; [split; [assumption|]|].
              ** intros ->. apply Hnot. left. now left.
              ** intros Hin. apply Hnot. now right.
        -- intros id' [<- | Hin]; [now rewrite Hev | now apply Hsome].
      * cbn in Hrun.
        apply IH in Hrun; cbn [table kernel log mux] in *.
        destruct Hrun
          as (Hlog & Hker & Htbl & Hkeep & (F' & HF' & Hmem) & Hsome).
        rewrite Hlog, <- app_assoc. split; [reflexivity|].
        split; [assumption|]. split; [assumption|].
        split; [exact Hkeep|].
        split.
        -- exists F'. split; [exact HF'|]. exact Hmem.
        -- intros id' [<- | Hin]; [now rewrite Hev | now apply Hsome].
Qed.

(** The block that follows the loop: [DisableTracing] is written exactly
    when the id was active and was the last active one. *)
Lemma RemoveConfig_deactivate_run (config_id : N) (s : Run W T) :
  let out := perform_all P (deactivate_calls (mux s) config_id) (kernel s) in
  exists s',
    RemoveConfig_deactivate P config_id s = Some (tt, s')
    /\ log s' = log s ++ fst out
    /\ kernel s' = snd out
    /\ table s' = table s
    /\ ds_configs_ (mux s') = ds_configs_ (mux s)
    /\ active_configs_ (mux s') = active_configs_ (mux s) ∖ {[ config_id ]}
    /\ current_state_ (mux s') = current_state_ (mux s).
Proof.
  unfold RemoveConfig_deactivate, deactivate_calls, bind, get_mux, put_mux.
  cbn [mux kernel table log].
  destruct (decide (config_id ∈ active_configs_ (mux s))) as [Hin | Hnin].
  - rewrite (bool_decide_eq_true_2 _ Hin). cbn [andb].
    destruct (bool_decide (active_configs_ (mux s) ∖ {[config_id]} = ∅)).
    + eexists. split; [reflexivity|]. cbn. now repeat split.
    + eexists. split; [reflexivity|]. cbn. rewrite app_nil_r.
      now repeat split.
  - rewrite (bool_decide_eq_false_2 _ Hnin). cbn [andb].
    exists s. split; [reflexivity|]. cbn. rewrite app_nil_r.
    repeat split. apply set_eq. intros x.
    rewrite elem_of_difference, elem_of_singleton.
    split; [|tauto]. intros Hx. split; [assumption | congruence].
Qed.

(** The tear-down block: nothing when records are left; otherwise the three
    writes in order, and the recorded size becomes 1 when the first one
    succeeds. *)
Lemma RemoveConfig_teardown_run (s : Run W T) :
  let calls :=
    if bool_decide (ds_configs_ (mux s) = ∅) then teardown_calls else [] in
  let out := perform_all P calls (kernel s) in
  exists s',
    RemoveConfig_teardown P s = Some (tt, s')
    /\ log s' = log s ++ fst out
    /\ kernel s' = snd out
    /\ table s' = table s
    /\ ds_configs_ (mux s') = ds_configs_ (mux s)
    /\ active_configs_ (mux s') = active_configs_ (mux s)
    /\ FtraceState.ftrace_events (current_state_ (mux s'))
       = FtraceState.ftrace_events (current_state_ (mux s))
    /\ same_atrace (current_state_ (mux s)) (current_state_ (mux s'))
    /\ (ds_configs_ (mux s) = ∅ ->
        fst (perform P (Call.SetCpuBufferSizeInPages 1) (kernel s)) = true ->
        FtraceState.cpu_buffer_size_pages (current_state_ (mux s')) = 1%N).
Proof.
  unfold RemoveConfig_teardown, bind, get_mux.
  destruct (decide (ds_configs_ (mux s) = ∅)) as [Hempty | Hne].
  - rewrite (bool_decide_eq_true_2 _ Hempty).
    unfold call at 1. cbn [mux kernel table log fst snd].
    destruct (fst (perform P (Call.SetCpuBufferSizeInPages 1) (kernel s)))
      eqn:Hok.
    + eexists. split; [reflexivity|]. cbn. rewrite Hok, <- !app_assoc.
      now repeat split.
    + eexists. split; [reflexivity|]. cbn. rewrite Hok, <- !app_assoc.
      repeat split. intros _ Hbad. discriminate Hbad.
  - rewrite (bool_decide_eq_false_2 _ Hne).
    exists s. split; [reflexivity|]. cbn. rewrite app_nil_r.
    repeat split. intros Hbad. contradiction.
Qed.

(** The atrace block: the launches of [atrace_calls], and the state that a
    successful launch leaves. *)
Lemma RemoveConfig_atrace_run (expected_apps expected_categories : list string)
    (s : Run W T) :
  let st := current_state_ (mux s) in
  let calls := atrace_calls P st expected_apps expected_categories in
  let out := perform_all P calls (kernel s) in
  exists s',
    RemoveConfig_atrace P expected_apps expected_categories
      (atrace_changed_of st expected_apps expected_categories) s
    = Some (tt, s')
    /\ log s' = log s ++ fst out
    /\ kernel s' = snd out
    /\ table s' = table s
    /\ ds_configs_ (mux s') = ds_configs_ (mux s)
    /\ active_configs_ (mux s') = active_configs_ (mux s)
    /\ FtraceState.ftrace_events (current_state_ (mux s'))
       = FtraceState.ftrace_events st
    /\ FtraceState.cpu_buffer_size_pages (current_state_ (mux s'))
       = FtraceState.cpu_buffer_size_pages st.
Proof.
  intros st calls out. subst out calls.
  unfold RemoveConfig_atrace, atrace_calls, bind, get_mux.
  fold st.
  destruct (FtraceState.atrace_on st).
  2:{ exists s. split; [reflexivity|]. cbn. rewrite app_nil_r.
      now repeat split. }
  destruct (bool_decide (expected_apps = [])
            && bool_decide (expected_categories = [])).
  - unfold DisableAtrace, bind, call. cbn [mux kernel table log fst snd].
    destruct (fst (perform P (Call.RunAtrace (DisableAtrace_args P))
                     (kernel s))) eqn:Hok.
    + eexists. split; [reflexivity|]. cbn. rewrite Hok. now repeat split.
    + eexists. split; [reflexivity|]. cbn. rewrite Hok. now repeat split.
  - destruct (atrace_changed_of st expected_apps expected_categories).
    + unfold StartAtrace, bind, call. cbn [mux kernel table log fst snd].
      destruct (fst (perform P
                       (Call.RunAtrace
                          (StartAtrace_args P expected_apps
                             expected_categories)) (kernel s))) eqn:Hok.
      * eexists. split; [reflexivity|]. cbn. rewrite Hok.
        now repeat split.
      * eexists. split; [reflexivity|]. cbn. rewrite Hok.
        now repeat split.
    + exists s. split; [reflexivity|]. cbn. rewrite app_nil_r.
      now repeat split.
Qed.

(** A call of [RemoveConfig] that returns true, phase by phase: the record
    is erased, the surplus events are disabled, tracing is disabled with the
    last active id, the kernel is torn down with the last record, and atrace
    is stopped or launched again. *)
Lemma RemoveConfig_run (config_id : N) (s s' : Run W T) :
  RemoveConfig P config_id s = Some (true, s') ->
  let st := current_state_ (mux s) in
  let remaining := delete config_id (ds_configs_ (mux s)) in
  let expected :=
    expected_ftrace_events_of (configs_in_order remaining) in
  let todo := surplus (FtraceState.ftrace_events st) expected in
  let o1 := disable_all P (table s) todo (kernel s) in
  let o2 := perform_all P (deactivate_calls (mux s) config_id) (snd o1) in
  let o3 :=
    perform_all P
      (if bool_decide (remaining = ∅) then teardown_calls else [])
      (snd o2) in
  let o4 :=
    perform_all P
      (atrace_calls P st (intersected_apps st remaining)
         (intersected_categories st remaining))
      (snd o3) in
  config_id <> 0%N
  /\ is_Some (ds_configs_ (mux s) !! config_id)
  /\ log s'
     = log s ++ map (disable_entry P (table s)) (fst o1)
         ++ fst o2 ++ fst o3 ++ fst o4
  /\ kernel s' = snd o4
  /\ ds_configs_ (mux s') = remaining
  /\ active_configs_ (mux s') = active_configs_ (mux s) ∖ {[ config_id ]}
  /\ (forall x,
        x ∈ FtraceState.ftrace_events (current_state_ (mux s')) <->
        x ∈ FtraceState.ftrace_events st
        /\ ~ In x (disabled_ids P (table s) (fst o1)))
  /\ (forall id, In id todo -> is_Some (GetEventById P id (table s)))
  /\ (remaining = ∅ ->
      fst (perform P (Call.SetCpuBufferSizeInPages 1) (snd o2)) = true ->
      FtraceState.cpu_buffer_size_pages (current_state_ (mux s')) = 1%N).
Proof.
  intros Hrun st remaining expected todo o1 o2 o3 o4.
  unfold RemoveConfig in Hrun.
  unfold bind at 1, get_mux at 1 in Hrun.
  destruct (N.eqb_spec config_id 0) as [Hz | Hnz]; [discriminate Hrun|].
  cbn [orb] in Hrun.
  destruct (decide (is_Some (ds_configs_ (mux s) !! config_id)))
    as [Hsome | Hnone];
    [rewrite (bool_decide_eq_true_2 _ Hsome) in Hrun
    |rewrite (bool_decide_eq_false_2 _ Hnone) in Hrun; discriminate Hrun].
  cbn [negb] in Hrun.
  unfold bind at 1, put_mux at 1 in Hrun.
  cbn [ds_configs_ set_ds_configs_ current_state_ kernel table log] in Hrun.
  fold remaining st expected in Hrun.
  set (s1 := mkRun (set_ds_configs_ remaining (mux s)) (kernel s) (table s)
               (log s)) in *.
  unfold bind at 1 in Hrun.
  destruct (for_each _ (disable_surplus_event P expected) s1)
    as [[[] s2]|] eqn:Hloop; [|discriminate Hrun].
  apply disable_loop_run in Hloop.
  subst s1. cbv zeta in Hloop.
  cbn [table kernel log mux current_state_ set_ds_configs_] in Hloop.
  fold st in Hloop.
  fold (surplus (FtraceState.ftrace_events st) expected) in Hloop.
  fold todo in Hloop. fold o1 in Hloop.
  destruct Hloop as (Hlog2 & Hker2 & Htbl2 & Hkeep2 & (F2 & HF2 & Hmem2) & Hsome2).
  destruct Hkeep2 as (Hds2 & Hact2 & _ & _).
  cbn [mux ds_configs_ active_configs_ current_state_ set_ds_configs_]
    in Hds2, Hact2.
  unfold bind at 1 in Hrun.
  destruct (RemoveConfig_deactivate_run config_id s2)
    as (s3 & Hd & Hlog3 & Hker3 & Htbl3 & Hds3 & Hact3 & Hst3).
  rewrite Hd in Hrun.
  unfold bind at 1 in Hrun.
  destruct (RemoveConfig_teardown_run s3)
    as (s4 & Ht & Hlog4 & Hker4 & Htbl4 & Hds4 & Hact4 & Hev4 & Hatr4 & Hcpu4).
  rewrite Ht in Hrun.
  unfold bind at 1 in Hrun.
  assert (Hatr : same_atrace st (current_state_ (mux s4))).
  { destruct Hatr4 as (A1 & A2 & A3). rewrite Hst3, HF2 in A1, A2, A3.
    now repeat split. }
  destruct Hatr as (Hon & Happs & Hcats).
  assert (Hchanged :
            atrace_changed_of st (intersected_apps st remaining)
              (intersected_categories st remaining)
            = atrace_changed_of (current_state_ (mux s4))
                (intersected_apps st remaining)
                (intersected_categories st remaining)).
  { unfold atrace_changed_of. now rewrite Happs, Hcats. }
  unfold intersected_apps, intersected_categories in Hchanged.
  rewrite Hchanged in Hrun.
  destruct (RemoveConfig_atrace_run
              (IntersectInPlace (FtraceState.atrace_apps st)
                 (expected_apps_of (configs_in_order remaining)))
              (IntersectInPlace (FtraceState.atrace_categories st)
                 (expected_categories_of (configs_in_order remaining)))
              s4)
    as (s5 & Ha & Hlog5 & Hker5 & Htbl5 & Hds5 & Hact5 & Hev5 & Hcpu5).
  rewrite Ha in Hrun. cbn in Hrun. injection Hrun as <-.
  assert (Hcalls :
            atrace_calls P (current_state_ (mux s4))
              (IntersectInPlace (FtraceState.atrace_apps st)
                 (expected_apps_of (configs_in_order remaining)))
              (IntersectInPlace (FtraceState.atrace_categories st)
                 (expected_categories_of (configs_in_order remaining)))
            = atrace_calls P st (intersected_apps st remaining)
                (intersected_categories st remaining)).
  { unfold atrace_calls, atrace_changed_of, intersected_apps,
      intersected_categories. now rewrite Hon, Happs, Hcats. }
  rewrite Hcalls in Hlog5, Hker5.
  assert (Hmux2 : deactivate_calls (mux s2) config_id
                  = deactivate_calls (mux s) config_id).
  { unfold deactivate_calls. now rewrite Hact2. }
  rewrite Hmux2, Hker2 in Hlog3, Hker3. fold o2 in Hlog3, Hker3.
  rewrite Hds3, Hds2, Hker3 in Hlog4, Hker4, Hcpu4.
  fold o3 in Hlog4, Hker4.
  rewrite Hker4 in Hlog5, Hker5. fold o4 in Hlog5, Hker5.
  split; [assumption|]. split; [assumption|].
  split.
  { rewrite Hlog5, Hlog4, Hlog3, Hlog2.
    now rewrite <- !app_assoc. }
  split; [assumption|].
  split; [congruence|].
  split; [congruence|].
  split.
  { intros x. rewrite Hev5, Hev4, Hst3, HF2.
    cbn [FtraceState.ftrace_events FtraceState.set_ftrace_events].
    apply Hmem2. }
  split; [assumption|].
  intros Hempty Hok. rewrite Hcpu5. now apply Hcpu4.
Qed.

Lemma In_configs_in_order (configs : gmap N FtraceDataSourceConfig.t)
    (config : FtraceDataSourceConfig.t) :
  In config (configs_in_order configs)
  <-> exists id, configs !! id = Some config.
Proof.
  unfold configs_in_order. rewrite in_map_iff. split.
  - intros ([id c] & <- & Hin). exists id.
    apply list_elem_of_In in Hin.
    rewrite (merge_sort_Permutation key_le _) in Hin.
    now apply elem_of_map_to_list in Hin.
  - intros (id & Hid). exists (id, config). split; [reflexivity|].
    apply list_elem_of_In.
    rewrite (merge_sort_Permutation key_le _).
    now apply elem_of_map_to_list.
Qed.

Lemma elem_of_union_filters (l : list FtraceDataSourceConfig.t)
    (acc : EventFilter.t) (e : N) :
  e ∈ fold_left (fun expected config =>
                   EventFilter.EnableEventsFrom
                     (FtraceDataSourceConfig.event_filter config) expected)
        l acc
  <-> e ∈ acc
      \/ exists config,
           In config l /\ e ∈ FtraceDataSourceConfig.event_filter config.
Proof.
  revert acc. induction l as [| c l IH]; intros acc; cbn [fold_left].
  - split; [tauto|]. intros [? | (? & [] & _)]. assumption.
  - rewrite IH. unfold EventFilter.EnableEventsFrom.
    rewrite elem_of_union. split.
    + intros [[? | ?] | (c' & ? & ?)].
      * now left.
      * right. exists c. split; [now left | assumption].
      * right. exists c'. split; [now right | assumption].
    + intros [? | (c' & [<- | ?] & ?)].
      * left. now left.
      * left. now right.
      * right. now exists c'.
Qed.

(** The expected events are the union of the filters of the records left. *)
Lemma expected_is_union (configs : gmap N FtraceDataSourceConfig.t) (e : N) :
  e ∈ expected_ftrace_events_of (configs_in_order configs)
  <-> union_of_filters configs e.
Proof.
  unfold expected_ftrace_events_of, union_of_filters.
  rewrite elem_of_union_filters. split.
  - intros [Hbad | (config & Hin & He)].
    + now apply not_elem_of_empty in Hbad.
    + apply In_configs_in_order in Hin as (id & Hid). now exists id, config.
  - intros (id & config & Hid & He). right. exists config.
    split; [|assumption]. apply In_configs_in_order. now exists id.
Qed.

Lemma In_GetEnabledEvents (f : EventFilter.t) (id : N) :
  In id (EventFilter.GetEnabledEvents f) <-> id ∈ f.
Proof.
  unfold EventFilter.GetEnabledEvents, ordered.
  rewrite <- list_elem_of_In, (merge_sort_Permutation N.le _).
  apply elem_of_elements.
Qed.

Lemma NoDup_GetEnabledEvents (f : EventFilter.t) :
  NoDup (EventFilter.GetEnabledEvents f).
Proof.
  unfold EventFilter.GetEnabledEvents, ordered.
  rewrite (merge_sort_Permutation N.le _). apply NoDup_elements.
Qed.

Lemma In_surplus (global expected : EventFilter.t) (id : N) :
  In id (surplus global expected) <-> id ∈ global /\ id ∉ expected.
Proof.
  unfold surplus. rewrite filter_In, In_GetEnabledEvents.
  unfold EventFilter.IsEventEnabled.
  rewrite negb_true_iff, bool_decide_eq_false. tauto.
Qed.

Lemma NoDup_surplus (global expected : EventFilter.t) :
  NoDup (surplus global expected).
Proof.
  unfold surplus.
  apply NoDup_ListNoDup, List.NoDup_filter, NoDup_ListNoDup,
    NoDup_GetEnabledEvents.
Qed.

Lemma disable_all_ids (tbl : T) (ids : list N) (w : W) :
  map fst (fst (disable_all P tbl ids w)) = ids.
Proof.
  revert w. induction ids as [| id ids IH]; intros w; [reflexivity|].
  cbn [disable_all fst map]. now rewrite IH.
Qed.

Lemma perform_all_calls (cs : list Call.t) (w : W) :
  map fst (fst (perform_all P cs w)) = cs.
Proof.
  revert w. induction cs as [| c cs IH]; intros w; [reflexivity|].
  cbn [perform_all fst map]. now rewrite IH.
Qed.

(** An id has one outcome only. *)
Lemma outcome_unique (outcomes : list (N * bool)) (id : N) (a b : bool) :
  NoDup (map fst outcomes) ->
  In (id, a) outcomes -> In (id, b) outcomes -> a = b.
Proof.
  induction outcomes as [| [id' c] l IH]; intros Hnd Ha Hb; [destruct Ha|].
  cbn [map fst] in Hnd. apply NoDup_cons in Hnd as [Hnin Hnd].
  rewrite list_elem_of_In in Hnin.
  destruct Ha as [Ha | Ha], Hb as [Hb | Hb].
  - congruence.
  - exfalso. apply Hnin. apply in_map_iff. exists (id, b).
    split; [cbn; congruence | assumption].
  - exfalso. apply Hnin. apply in_map_iff. exists (id, a).
    split; [cbn; congruence | assumption].
  - now apply IH.
Qed.

(** The loop runs to its end when the table knows every id it looks up. *)
Lemma disable_loop_total (expected : EventFilter.t) (ids : list N) :
  forall s,
    (forall id, In id ids -> is_Some (GetEventById P id (table s))) ->
    exists s',
      for_each ids (disable_surplus_event P expected) s = Some (tt, s')
      /\ table s' = table s.
Proof.
  induction ids as [| id ids IH]; intros s Hknown.
  - exists s. split; reflexivity.
  - cbn [for_each]. unfold bind at 1. unfold disable_surplus_event at 1.
    destruct (EventFilter.IsEventEnabled id expected).
    + cbn. apply IH. intros id' Hin. apply Hknown. now right.
    + unfold bind at 1, get_table at 1.
      destruct (Hknown id (or_introl eq_refl)) as [event Hev]. rewrite Hev.
      unfold bind at 1, call at 1.
      destruct (fst (perform P _ (kernel s))).
      * unfold modify_state, bind, get_mux, put_mux. cbn [mux kernel table log].
        match goal with
        | |- exists s', for_each _ _ ?s1 = _ /\ _ =>
            destruct (IH s1) as (s' & Hrun & Htbl)
        end.
        { intros id' Hin. apply Hknown. now right. }
        exists s'. split; [exact Hrun | exact Htbl].
      * cbn [ret].
        match goal with
        | |- exists s', for_each _ _ ?s1 = _ /\ _ =>
            destruct (IH s1) as (s' & Hrun & Htbl)
        end.
        { intros id' Hin. apply Hknown. now right. }
        exists s'. split; [exact Hrun | exact Htbl].
Qed.

(** [RemoveConfig] on an id that is not 0 and is in the registry returns
    true, as long as the table knows the enabled events. *)
Lemma RemoveConfig_returns (config_id : N) (s : Run W T) :
  config_id <> 0%N ->
  is_Some (ds_configs_ (mux s) !! config_id) ->
  (forall id,
      id ∈ FtraceState.ftrace_events (current_state_ (mux s)) ->
      is_Some (GetEventById P id (table s))) ->
  exists s', RemoveConfig P config_id s = Some (true, s').
Proof.
  intros Hnz Hsome Hknown. unfold RemoveConfig.
  unfold bind at 1, get_mux at 1.
  destruct (N.eqb_spec config_id 0) as [Hz | _]; [contradiction|].
  rewrite (bool_decide_eq_true_2 _ Hsome). cbn [orb negb].
  unfold bind at 1, put_mux at 1.
  unfold bind at 1.
  match goal with
  | |- context [for_each ?ids (disable_surplus_event P ?e) ?s1] =>
      destruct (disable_loop_total e ids s1) as (s2 & -> & _)
  end.
  { intros id Hin. apply In_GetEnabledEvents in Hin. now apply Hknown. }
  unfold bind at 1.
  destruct (RemoveConfig_deactivate_run config_id s2)
    as (s3 & -> & _ & _ & _ & _ & _ & Hst3).
  unfold bind at 1.
  destruct (RemoveConfig_teardown_run s3)
    as (s4 & -> & _ & _ & _ & _ & _ & _ & Hatr4 & _).
  unfold bind at 1.
  match goal with
  | |- context [RemoveConfig_atrace P ?ea ?ec ?ch s4] =>
      assert (Hrun : exists s5, RemoveConfig_atrace P ea ec ch s4
                                = Some (tt, s5))
  end.
  { unfold RemoveConfig_atrace, bind, get_mux, DisableAtrace, StartAtrace,
      call, modify_state, bind, get_mux, put_mux, ret.
    repeat match goal with
           | |- context [if ?b then _ else _] => destruct b
           end; eexists; reflexivity. }
  destruct Hrun as (s5 & ->). exists s5. reflexivity.
Qed.

(** [RemoveConfig] on the id 0 or on an id that is not in the registry
    returns false and changes nothing. *)
Lemma RemoveConfig_unknown (config_id : N) (s : Run W T) :
  config_id = 0%N \/ ds_configs_ (mux s) !! config_id = None ->
  RemoveConfig P config_id s = Some (false, s).
Proof.
  intros Hbad. unfold RemoveConfig, bind, get_mux.
  destruct Hbad as [-> | Hnone]; [reflexivity|].
  rewrite bool_decide_eq_false_2.
  - now rewrite orb_true_r.
  - rewrite Hnone. intros [? ?]. discriminate.
Qed.

Lemma later_calls_not_disable (m : Muxer) (config_id : N)
    (st : FtraceState.t) (ea ec : list string) (b : bool) (c : Call.t) :
  In c (deactivate_calls m config_id
        ++ (if b then teardown_calls else [])
        ++ atrace_calls P st ea ec) ->
  is_DisableEvent c = false.
Proof.
  unfold deactivate_calls, teardown_calls, atrace_calls.
  rewrite !in_app_iff.
  repeat match goal with
         | |- context [if ?x then _ else _] => destruct x
         end;
    cbn [In]; intros H; decompose [or] H; subst;
    try contradiction; reflexivity.
Qed.

(** C2. Let [RemoveConfig(id)] return true, with a table that answers the
    lookup of an enabled id with the event of that id.  With [G] the ids in
    [current_state_.ftrace_events] before the call and [U] the union of the
    filters of the records left, the muxer writes [DisableEvent], by the
    group and name of the table, once for each id of [G] that is not in [U],
    in increasing order, and for no other id; such an id is in
    [ftrace_events] after the call exactly when its write failed; the ids of
    [G] that are in [U] stay, and nothing is added. *)
Theorem RemoveConfig_disables_surplus (config_id : N) (s s' : Run W T) :
  RemoveConfig P config_id s = Some (true, s') ->
  (forall id event,
      id ∈ FtraceState.ftrace_events (current_state_ (mux s)) ->
      GetEventById P id (table s) = Some event ->
      Event.ftrace_event_id event = id) ->
  let G := FtraceState.ftrace_events (current_state_ (mux s)) in
  let G' := FtraceState.ftrace_events (current_state_ (mux s')) in
  let remaining := delete config_id (ds_configs_ (mux s)) in
  let U := expected_ftrace_events_of (configs_in_order remaining) in
  let outcomes := fst (disable_all P (table s) (surplus G U) (kernel s)) in
  (forall e, e ∈ U <-> union_of_filters remaining e)
  /\ (forall e, In e (surplus G U) <-> e ∈ G /\ e ∉ U)
  /\ map fst outcomes = surplus G U
  /\ (forall e, In e (surplus G U) ->
        exists event,
          GetEventById P e (table s) = Some event
          /\ disable_call P (table s) e
             = Call.DisableEvent (Event.group event) (Event.name event))
  /\ (exists later,
        log s' = log s ++ map (disable_entry P (table s)) outcomes ++ later
        /\ forall entry, In entry later ->
             is_DisableEvent (fst entry) = false)
  /\ (forall e ok, In (e, ok) outcomes -> (e ∈ G' <-> ok = false))
  /\ (forall e, e ∈ G -> e ∈ U -> e ∈ G')
  /\ (forall e, e ∈ G' -> e ∈ G).
Proof.
  intros Hrun Htable G G' remaining U outcomes.
  pose proof (RemoveConfig_run config_id s s' Hrun) as Hphases.
  cbv zeta in Hphases. fold G remaining U in Hphases.
  fold outcomes in Hphases.
  destruct Hphases as (_ & _ & Hlog & _ & _ & _ & Hmem & Hsome & _).
  fold G' in Hmem.
  assert (Hids : map fst outcomes = surplus G U) by apply disable_all_ids.
  assert (Hdis : forall x, In x (disabled_ids P (table s) outcomes)
                           <-> In (x, true) outcomes).
  { intros x. unfold disabled_ids. rewrite in_flat_map. split.
    - intros ([e ok] & Hin & Hx). cbn [fst snd] in Hx.
      destruct ok; [|destruct Hx].
      assert (He : In e (surplus G U)).
      { rewrite <- Hids. apply in_map_iff. now exists (e, true). }
      apply In_surplus in He as [HeG _].
      destruct (GetEventById P e (table s)) as [event|] eqn:Hev;
        [|destruct Hx].
      destruct Hx as [<- | []].
      now rewrite (Htable e event HeG Hev).
    - intros Hin. exists (x, true). split; [assumption|]. cbn [fst snd].
      assert (He : In x (surplus G U)).
      { rewrite <- Hids. apply in_map_iff. now exists (x, true). }
      destruct (Hsome x He) as [event Hev]. rewrite Hev.
      apply In_surplus in He as [HeG _].
      left. exact (Htable x event HeG Hev). }
  assert (Hmem' : forall x, x ∈ G' <-> x ∈ G /\ ~ In (x, true) outcomes).
  { intros x. rewrite Hmem, Hdis. reflexivity. }
  clear Hmem. rename Hmem' into Hmem.
  split; [intros e; apply expected_is_union|].
  split; [intros e; apply In_surplus|].
  split; [exact Hids|].
  split.
  { intros e He. destruct (Hsome e He) as [event Hev]. exists event.
    split; [assumption|]. unfold disable_call. now rewrite Hev. }
  split.
  { eexists. split; [exact Hlog|].
    intros entry Hin.
    apply (later_calls_not_disable (mux s) config_id
             (current_state_ (mux s))
             (intersected_apps (current_state_ (mux s)) remaining)
             (intersected_categories (current_state_ (mux s)) remaining)
             (bool_decide (remaining = ∅))).
    rewrite !in_app_iff in Hin. rewrite !in_app_iff.
    destruct Hin as [Hin | [Hin | Hin]];
      [left | right; left | right; right];
      (apply (in_map fst) in Hin; rewrite perform_all_calls in Hin;
       exact Hin). }
  split.
  { intros e ok Hin. rewrite Hmem.
    assert (He : In e (surplus G U)).
    { rewrite <- Hids. apply in_map_iff. now exists (e, ok). }
    apply In_surplus in He as [HeG _].
    assert (Hnd : NoDup (map fst outcomes))
      by (rewrite Hids; apply NoDup_surplus).
    destruct ok.
    - split; [intros [_ Hnot]; now elim Hnot | discriminate].
    - split; [reflexivity|]. intros _. split; [assumption|].
      intros Hin'. pose proof (outcome_unique _ _ _ _ Hnd Hin Hin').
      discriminate. }
  split.
  { intros e HeG HeU. apply Hmem. split; [assumption|].
    intros Hin. apply (in_map fst) in Hin. rewrite Hids in Hin.
    apply In_surplus in Hin as [_ Hnot]. now apply Hnot. }
  intros e He. now apply Hmem in He.
Qed.

End Remove.

(** The table of the small platform answers a lookup by id with an event of
    that id. *)
Lemma Demo_table_by_id (id : N) (event : Event.t) (tbl : list Event.t) :
  GetEventById (Demo.platform false) id tbl = Some event ->
  Event.ftrace_event_id event = id.
Proof.
  cbn. intros Hfind. apply find_some in Hfind as [_ Heq].
  now apply N.eqb_eq in Heq.
Qed.

(** On the small platform: with the records 1 ([sched_switch]) and 2
    ([sched_switch], [sched_waking]) set up, removing 2 disables
    [sched_waking] (id 3) and nothing else; id 3 leaves [ftrace_events] and
    id 2, still wanted by record 1, stays. *)
Lemma RemoveConfig_disables_surplus_witness :
  exists s',
    RemoveConfig (Demo.platform false) 2 Demo.two_configs = Some (true, s')
    /\ (exists later,
          log s'
          = log Demo.two_configs
              ++ [(Call.DisableEvent "sched" "sched_waking", true)] ++ later
          /\ forall entry, In entry later ->
               is_DisableEvent (fst entry) = false)
    /\ (3%N ∉ FtraceState.ftrace_events (current_state_ (mux s')))
    /\ (2%N ∈ FtraceState.ftrace_events (current_state_ (mux s'))).
Proof.
  destruct (RemoveConfig (Demo.platform false) 2 Demo.two_configs)
    as [[[] s']|] eqn:Hrun; try (vm_compute in Hrun; discriminate Hrun).
  exists s'. split; [reflexivity|].
  destruct (RemoveConfig_disables_surplus (Demo.platform false) 2
              Demo.two_configs s' Hrun
              (fun id event _ => Demo_table_by_id id event _))
    as (_ & _ & _ & _ & Hlog & Hout & Hkeep & _).
  split; [exact Hlog|]. split.
  - intros Hin. apply (Hout 3%N true) in Hin; [discriminate Hin|].
    vm_compute. now left.
  - apply Hkeep; vm_compute; reflexivity.
Defined.

(** ** Removing the last configuration *)

Section Teardown.

Context {W T : Type} (P : Platform W T).

Lemma atrace_calls_launches (st : FtraceState.t) (ea ec : list string)
    (c : Call.t) :
  In c (atrace_calls P st ea ec) -> is_RunAtrace c = true.
Proof.
  unfold atrace_calls.
  repeat match goal with
         | |- context [if ?x then _ else _] => destruct x
         end;
    cbn [In]; intros H; decompose [or] H; subst;
    try contradiction; reflexivity.
Qed.

Lemma perform_all_keeps_tracing (cs : list Call.t) (w : W) :
  honours_tracing P ->
  (forall c, In c cs -> is_tracing_write c = false) ->
  IsTracingEnabled P (snd (perform_all P cs w)) = IsTracingEnabled P w.
Proof.
  intros [_ Hkeep]. revert w.
  induction cs as [| c cs IH]; intros w Hcs; [reflexivity|].
  cbn [perform_all snd]. rewrite IH.
  - apply Hkeep, Hcs. now left.
  - intros c' Hin. apply Hcs. now right.
Qed.

Lemma disable_all_keeps_tracing (tbl : T) (ids : list N) (w : W) :
  honours_tracing P ->
  IsTracingEnabled P (snd (disable_all P tbl ids w)) = IsTracingEnabled P w.
Proof.
  intros [_ Hkeep]. revert w.
  induction ids as [| id ids IH]; intros w; [reflexivity|].
  cbn [disable_all snd]. rewrite IH. apply Hkeep.
  unfold disable_call. now destruct (GetEventById P id tbl).
Qed.

Lemma teardown_keeps_tracing (b : bool) (c : Call.t) :
  In c (if b then teardown_calls else []) -> is_tracing_write c = false.
Proof.
  destruct b; cbn [teardown_calls In]; [|intros []].
  intros [<- | [<- | [<- | []]]]; reflexivity.
Qed.

Lemma atrace_keeps_tracing (st : FtraceState.t) (ea ec : list string)
    (c : Call.t) :
  In c (atrace_calls P st ea ec) -> is_tracing_write c = false.
Proof.
  intros Hin. apply atrace_calls_launches in Hin. now destruct c.
Qed.

(** C3, as the code has it. Let [RemoveConfig(id)] return true and leave the
    registry empty. The log then grows by: the disable writes of the loop;
    then [DisableTracing], exactly when the id was in the active set and no
    other id stays active; then the request of 1 page per CPU,
    [DisableAllEvents] and [ClearTrace], in this order; then launches of
    atrace only. The result of [DisableTracing] is not looked at, and the
    recorded buffer size is 1 when the request of 1 page succeeded. On a
    kernel that honours the writes of [tracing_on], tracing is off after the
    call when [DisableTracing] was written and succeeded, and is as it was
    before the call when [DisableTracing] was not written. *)
Theorem RemoveConfig_last_teardown (config_id : N) (s s' : Run W T) :
  RemoveConfig P config_id s = Some (true, s') ->
  ds_configs_ (mux s') = ∅ ->
  exists disables tracing r1 r2 r3 launches,
    log s'
    = log s ++ disables ++ tracing
        ++ [(Call.SetCpuBufferSizeInPages 1, r1);
            (Call.DisableAllEvents, r2); (Call.ClearTrace, r3)]
        ++ launches
    /\ (forall entry, In entry disables ->
          is_DisableEvent (fst entry) = true)
    /\ (tracing = [] \/ exists r0, tracing = [(Call.DisableTracing, r0)])
    /\ (tracing <> [] <->
        config_id ∈ active_configs_ (mux s)
        /\ active_configs_ (mux s) ∖ {[ config_id ]} = ∅)
    /\ (forall entry, In entry launches -> is_RunAtrace (fst entry) = true)
    /\ (r1 = true ->
        FtraceState.cpu_buffer_size_pages (current_state_ (mux s')) = 1%N)
    /\ active_configs_ (mux s') = active_configs_ (mux s) ∖ {[ config_id ]}
    /\ (honours_tracing P ->
        In (Call.DisableTracing, true) tracing ->
        IsTracingEnabled P (kernel s') = false)
    /\ (honours_tracing P ->
        tracing = [] ->
        IsTracingEnabled P (kernel s') = IsTracingEnabled P (kernel s)).
Proof.
  intros Hrun Hempty.
  pose proof (RemoveConfig_run P config_id s s' Hrun) as Hphases.
  cbv zeta in Hphases.
  destruct Hphases as (_ & _ & Hlog & Hker & Hds & Hact & _ & _ & Hcpu).
  rewrite Hempty in Hds. rewrite <- Hds in Hlog, Hker, Hcpu.
  rewrite bool_decide_eq_true_2 in Hlog, Hker by reflexivity.
  set (o1 := disable_all P (table s) _ (kernel s)) in *.
  set (o2 := perform_all P (deactivate_calls (mux s) config_id) (snd o1))
    in *.
  set (o4 := perform_all P (atrace_calls P _ _ _) _) in *.
  cbn [perform_all teardown_calls fst snd] in Hlog.
  eexists (map (disable_entry P (table s)) (fst o1)), (fst o2), _, _, _,
    (fst o4).
  split; [exact Hlog|].
  split.
  { intros entry Hin. apply in_map_iff in Hin as (o & <- & _).
    unfold disable_entry, disable_call. cbn [fst].
    now destruct (GetEventById P (fst o) (table s)). }
  assert (Htracing :
            fst o2
            = if bool_decide (config_id ∈ active_configs_ (mux s))
                 && bool_decide
                      (active_configs_ (mux s) ∖ {[ config_id ]} = ∅)
              then [(Call.DisableTracing,
                     fst (perform P Call.DisableTracing (snd o1)))]
              else []).
  { subst o2. unfold deactivate_calls.
    now destruct (bool_decide _ && bool_decide _). }
  split.
  { rewrite Htracing. destruct (bool_decide _ && bool_decide _);
      [right; eexists; reflexivity | now left]. }
  split.
  { rewrite Htracing.
    destruct (bool_decide (config_id ∈ active_configs_ (mux s))
              && bool_decide
                   (active_configs_ (mux s) ∖ {[ config_id ]} = ∅))
      eqn:Hc.
    - apply andb_prop in Hc as [Hin Hlast].
      apply bool_decide_eq_true in Hin, Hlast.
      split; [intros _; now split | discriminate].
    - split; [congruence|]. intros [Hin Hlast].
      rewrite (bool_decide_eq_true_2 _ Hin),
        (bool_decide_eq_true_2 _ Hlast) in Hc.
      discriminate Hc. }
  split.
  { intros entry Hin. apply (in_map fst) in Hin.
    subst o4. rewrite perform_all_calls in Hin.
    now apply atrace_calls_launches in Hin. }
  split; [intros Hok; apply Hcpu; [reflexivity | exact Hok]|].
  split; [exact Hact|].
  assert (Hlater : honours_tracing P ->
                   IsTracingEnabled P (kernel s')
                   = IsTracingEnabled P (snd o2)).
  { intros Hhon. rewrite Hker. subst o4.
    rewrite perform_all_keeps_tracing;
      [|assumption | apply atrace_keeps_tracing].
    apply perform_all_keeps_tracing;
      [assumption | apply (teardown_keeps_tracing true)]. }
  split.
  - intros Hhon Hin. rewrite (Hlater Hhon).
    rewrite Htracing in Hin. subst o2. unfold deactivate_calls.
    destruct (bool_decide _ && bool_decide _); [|destruct Hin].
    destruct Hin as [[= Hok] | []].
    cbn [perform_all snd]. now apply Hhon.
  - intros Hhon Hnone. rewrite (Hlater Hhon).
    rewrite Htracing in Hnone. subst o2. unfold deactivate_calls.
    destruct (bool_decide _ && bool_decide _); [discriminate Hnone|].
    cbn [perform_all snd]. subst o1.
    now apply disable_all_keeps_tracing.
Qed.

End Teardown.

(** On the small platform: with the records 1 and 2 set up and record 2
    removed, removing record 1 empties the registry and tears the kernel
    down. *)
Lemma RemoveConfig_last_teardown_witness :
  let P := Demo.platform false in
  let s := Demo.after (RemoveConfig P 2 Demo.two_configs) in
  exists s',
    RemoveConfig P 1 s = Some (true, s')
    /\ ds_configs_ (mux s') = ∅
    /\ exists disables r1 r2 r3 launches,
         log s'
         = log s ++ disables
             ++ [(Call.SetCpuBufferSizeInPages 1, r1);
                 (Call.DisableAllEvents, r2); (Call.ClearTrace, r3)]
             ++ launches
         /\ (r1 = true ->
             FtraceState.cpu_buffer_size_pages (current_state_ (mux s'))
             = 1%N).
Proof.
  intros P s.
  destruct (RemoveConfig P 1 s) as [[[] s']|] eqn:Hrun;
    try (vm_compute in Hrun; discriminate Hrun).
  assert (Hempty : ds_configs_ (mux s') = ∅).
  { vm_compute in Hrun. injection Hrun as <-. reflexivity. }
  exists s'. split; [reflexivity|]. split; [exact Hempty|].
  destruct (RemoveConfig_last_teardown P 1 s s' Hrun Hempty)
    as (disables & tracing & r1 & r2 & r3 & launches & Hlog & _ & _
        & Htracing & _ & Hcpu & _).
  assert (Hnone : tracing = []).
  { destruct tracing as [| entry tracing]; [reflexivity|].
    destruct Htracing as [Hactive _].
    destruct Hactive as [Hin _]; [discriminate|].
    assert (Hnot : bool_decide (1%N ∈ active_configs_ (mux s)) = false)
      by (vm_compute; reflexivity).
    apply bool_decide_eq_false in Hnot. contradiction. }
  subst tracing. exists disables, r1, r2, r3, launches.
  split; [exact Hlog | exact Hcpu].
Defined.

(** C3 does not hold as the spec writes it: on a platform with
    the legacy atrace, where [SetupConfig] goes ahead with tracing already
    on, the only configuration is removed without having been activated;
    [RemoveConfig] returns true, the registry is empty, and tracing is still
    on. *)
Lemma last_removal_leaves_tracing_on :
  ~ last_removal_as_stated (Demo.platform true) 1 Demo.legacy_idle.
Proof.
  unfold last_removal_as_stated. intros Hclaim.
  destruct (RemoveConfig (Demo.platform true) 1 Demo.legacy_idle)
    as [[[] s']|] eqn:Hrun; try (vm_compute in Hrun; discriminate Hrun).
  destruct (Hclaim s' eq_refl) as [_ Hoff].
  - vm_compute in Hrun. injection Hrun as <-. reflexivity.
  - vm_compute in Hrun. injection Hrun as <-. discriminate Hoff.
Qed.

(** Nor on a platform with the current atrace when the write of
    [tracing_on = 0] fails: the configuration was active, [DisableTracing]
    is written and refused, [RemoveConfig] goes on and returns true. *)
Lemma last_removal_with_failed_write :
  ~ last_removal_as_stated (Demo.platform false) 1 Demo.active_stuck.
Proof.
  unfold last_removal_as_stated. intros Hclaim.
  destruct (RemoveConfig (Demo.platform false) 1 Demo.active_stuck)
    as [[[] s']|] eqn:Hrun; try (vm_compute in Hrun; discriminate Hrun).
  destruct (Hclaim s' eq_refl) as [_ Hoff].
  - vm_compute in Hrun. injection Hrun as <-. reflexivity.
  - vm_compute in Hrun. injection Hrun as <-. discriminate Hoff.
Qed.

(** ** The comparison of sizes in RemoveConfig *)

Lemma sublist_same_length {A : Type} (l1 l2 : list A) :
  l1 `sublist_of` l2 -> length l2 <= length l1 -> l1 = l2.
Proof.
  induction 1 as [| x l1 l2 Hsub IH | x l1 l2 Hsub IH]; intros Hlen.
  - reflexivity.
  - f_equal. apply IH. cbn in Hlen. lia.
  - apply sublist_length in Hsub. cbn in Hlen. lia.
Qed.

(** What [set_intersection] copies, it copies from its first range, in
    order. *)
Lemma set_intersection_sublist (a b : list string) :
  set_intersection a b `sublist_of` a.
Proof.
  revert b. induction a as [| x a IHa]; intros b.
  - destruct b; constructor.
  - induction b as [| y b IHb].
    + apply sublist_nil_l.
    + cbn [set_intersection].
      destruct (String.ltb x y).
      * apply sublist_cons, IHa.
      * destruct (String.ltb y x).
        -- exact IHb.
        -- apply sublist_skip, IHa.
Qed.

Lemma IntersectInPlace_sublist (a out : list string) :
  IntersectInPlace a out `sublist_of` std_sort a.
Proof. unfold IntersectInPlace. apply set_intersection_sublist. Qed.

Lemma In_IntersectInPlace (a out : list string) (x : string) :
  In x (IntersectInPlace a out) -> In x a.
Proof.
  intros Hin. apply In_std_sort. apply list_elem_of_In.
  apply list_elem_of_In in Hin.
  exact (elem_of_sublist _ _ _ Hin (IntersectInPlace_sublist a out)).
Qed.

(** The sizes are equal exactly when the intersection is the whole sorted
    first vector. *)
Lemma IntersectInPlace_same_size (a out : list string) :
  length a = length (IntersectInPlace a out)
  <-> IntersectInPlace a out = std_sort a.
Proof.
  split.
  - intros Hlen. apply sublist_same_length.
    + apply IntersectInPlace_sublist.
    + rewrite length_std_sort. lia.
  - intros ->. now rewrite length_std_sort.
Qed.

(** Without repeated entries in the first vector, that is exactly when the
    two hold the same elements. *)
Lemma IntersectInPlace_same_elements (a out : list string) :
  NoDup a ->
  IntersectInPlace a out = std_sort a
  <-> same_elements (IntersectInPlace a out) a.
Proof.
  intros Hnd. split.
  - intros -> x. apply In_std_sort.
  - intros Hsame. apply sublist_same_length.
    + apply IntersectInPlace_sublist.
    + rewrite length_std_sort.
      apply NoDup_incl_length.
      * now apply NoDup_ListNoDup.
      * intros x Hx. now apply Hsame.
Qed.

Section AtraceChanged.

Context {W T : Type} (P : Platform W T).

Lemma atrace_changed_false_iff (st : FtraceState.t)
    (remaining : gmap N FtraceDataSourceConfig.t) :
  atrace_changed_of st (intersected_apps st remaining)
    (intersected_categories st remaining) = false
  <-> intersected_apps st remaining = std_sort (FtraceState.atrace_apps st)
      /\ intersected_categories st remaining
         = std_sort (FtraceState.atrace_categories st).
Proof.
  unfold atrace_changed_of, intersected_apps, intersected_categories.
  rewrite orb_false_iff, !negb_false_iff, !Nat.eqb_eq.
  now rewrite !IntersectInPlace_same_size.
Qed.

(** With atrace on and something told to it, the last block of
    [RemoveConfig] launches atrace exactly when the sizes differ. *)
Lemma atrace_calls_iff_changed (st : FtraceState.t) (ea ec : list string) :
  FtraceState.atrace_on st = true ->
  FtraceState.atrace_apps st <> []
  \/ FtraceState.atrace_categories st <> [] ->
  atrace_calls P st ea ec <> [] <-> atrace_changed_of st ea ec = true.
Proof.
  intros Hon Hsome. unfold atrace_calls. rewrite Hon.
  destruct (bool_decide (ea = []) && bool_decide (ec = [])) eqn:Hboth.
  - apply andb_prop in Hboth as [Hea Hec].
    apply bool_decide_eq_true in Hea, Hec. subst ea ec.
    split; [intros _ | discriminate].
    unfold atrace_changed_of. cbn [length].
    destruct Hsome as [Hne | Hne].
    + destruct (FtraceState.atrace_apps st); [contradiction | reflexivity].
    + destruct (FtraceState.atrace_categories st);
        [contradiction | apply orb_true_r].
  - destruct (atrace_changed_of st ea ec); split; congruence.
Qed.

(** C10, as the code has it. In a call of [RemoveConfig] that returns true,
    the expected apps and categories, once intersected with those of
    [current_state_], are sub-lists of the sorted current lists, so every
    expected entry is a current one.  [atrace_changed] is therefore true
    exactly when an expected list is not the sorted current list, repeated
    entries counted; when the current lists hold no entry twice, that is
    exactly when the expected and the current entries differ as sets.  The
    launches of atrace in the call are those of the last block, which come
    last in the log: none when atrace is off, and, when atrace is on with
    something told to it, one exactly when [atrace_changed] is true (the stop
    command when both expected lists are empty, the start command on the
    expected lists otherwise). *)
Theorem atrace_changed_iff_lists_differ (config_id : N) (s s' : Run W T) :
  RemoveConfig P config_id s = Some (true, s') ->
  let st := current_state_ (mux s) in
  let remaining := delete config_id (ds_configs_ (mux s)) in
  let ea := intersected_apps st remaining in
  let ec := intersected_categories st remaining in
  let changed := atrace_changed_of st ea ec in
  ea `sublist_of` std_sort (FtraceState.atrace_apps st)
  /\ ec `sublist_of` std_sort (FtraceState.atrace_categories st)
  /\ (forall x, In x ea -> In x (FtraceState.atrace_apps st))
  /\ (forall x, In x ec -> In x (FtraceState.atrace_categories st))
  /\ (changed = true <->
      ~ (ea = std_sort (FtraceState.atrace_apps st)
         /\ ec = std_sort (FtraceState.atrace_categories st)))
  /\ (NoDup (FtraceState.atrace_apps st) ->
      NoDup (FtraceState.atrace_categories st) ->
      changed = true <->
      ~ (same_elements ea (FtraceState.atrace_apps st)
         /\ same_elements ec (FtraceState.atrace_categories st)))
  /\ (exists before launches,
        log s' = log s ++ before ++ launches
        /\ (forall entry, In entry before ->
              is_RunAtrace (fst entry) = false)
        /\ map fst launches = atrace_calls P st ea ec)
  /\ (FtraceState.atrace_on st = false -> atrace_calls P st ea ec = [])
  /\ (FtraceState.atrace_on st = true ->
      FtraceState.atrace_apps st <> []
      \/ FtraceState.atrace_categories st <> [] ->
      (atrace_calls P st ea ec <> [] <-> changed = true)
      /\ (changed = true ->
          atrace_calls P st ea ec
          = if bool_decide (ea = []) && bool_decide (ec = [])
            then [Call.RunAtrace (DisableAtrace_args P)]
            else [Call.RunAtrace (StartAtrace_args P ea ec)])).
Proof.
  intros Hrun st remaining ea ec changed.
  assert (Hfalse : changed = false <->
                   ea = std_sort (FtraceState.atrace_apps st)
                   /\ ec = std_sort (FtraceState.atrace_categories st))
    by apply atrace_changed_false_iff.
  split; [apply IntersectInPlace_sublist|].
  split; [apply IntersectInPlace_sublist|].
  split; [intros x; apply In_IntersectInPlace|].
  split; [intros x; apply In_IntersectInPlace|].
  split.
  { rewrite <- Hfalse. destruct changed; split; congruence. }
  split.
  { intros Hnda Hndc.
    unfold ea, ec, intersected_apps, intersected_categories.
    rewrite <- (IntersectInPlace_same_elements _ _ Hnda),
      <- (IntersectInPlace_same_elements _ _ Hndc).
    fold (intersected_apps st remaining)
      (intersected_categories st remaining). fold ea ec.
    rewrite <- Hfalse. destruct changed; split; congruence. }
  split.
  { pose proof (RemoveConfig_run P config_id s s' Hrun) as Hphases.
    cbv zeta in Hphases. fold st remaining ea ec in Hphases.
    destruct Hphases as (_ & _ & Hlog & _).
    match type of Hlog with
    | _ = _ ++ ?a ++ ?b ++ ?c ++ ?d => exists (a ++ b ++ c), d
    end.
    split; [|split].
    - rewrite Hlog, <- !app_assoc. reflexivity.
    - intros entry Hin. rewrite !in_app_iff in Hin.
      destruct Hin as [Hin | [Hin | Hin]].
      + apply in_map_iff in Hin as (o & <- & _).
        unfold disable_entry, disable_call. cbn [fst].
        now destruct (GetEventById P (fst o) (table s)).
      + apply (in_map fst) in Hin. rewrite perform_all_calls in Hin.
        unfold deactivate_calls in Hin.
        destruct (bool_decide _ && bool_decide _); cbn [In] in Hin;
          [destruct Hin as [Heq | []]; now rewrite <- Heq | destruct Hin].
      + apply (in_map fst) in Hin. rewrite perform_all_calls in Hin.
        unfold teardown_calls in Hin.
        destruct (bool_decide (remaining = ∅)); cbn [In] in Hin;
          [|destruct Hin].
        destruct Hin as [Heq | [Heq | [Heq | []]]]; now rewrite <- Heq.
    - apply perform_all_calls. }
  split.
  { intros Hoff. unfold atrace_calls. now rewrite Hoff. }
  intros Hon Hsome. split; [now apply atrace_calls_iff_changed|].
  intros Hchanged. unfold atrace_calls. rewrite Hon.
  fold changed. rewrite Hchanged. now destruct (bool_decide _ && bool_decide _).
Qed.

End AtraceChanged.

(** On the small platform: record 1 asks for [sched], record 2 for [sched]
    and [gfx]; removing record 2 leaves [sched] expected out of the current
    [gfx; sched], the sizes differ and so do the sets. *)
Lemma atrace_changed_iff_lists_differ_witness :
  let P := Demo.platform false in
  let s := Demo.two_categories in
  let st := current_state_ (mux s) in
  let remaining := delete 2%N (ds_configs_ (mux s)) in
  exists s',
    RemoveConfig P 2 s = Some (true, s')
    /\ intersected_categories st remaining = ["sched"]
    /\ FtraceState.atrace_categories st = ["gfx"; "sched"]
    /\ atrace_changed_of st (intersected_apps st remaining)
         (intersected_categories st remaining) = true
    /\ ~ (same_elements (intersected_apps st remaining)
            (FtraceState.atrace_apps st)
          /\ same_elements (intersected_categories st remaining)
               (FtraceState.atrace_categories st)).
Proof.
  intros P s st remaining.
  destruct (RemoveConfig P 2 s) as [[[] s']|] eqn:Hrun;
    try (vm_compute in Hrun; discriminate Hrun).
  exists s'. split; [reflexivity|].
  split; [vm_compute; reflexivity|].
  split; [vm_compute; reflexivity|].
  assert (Hchanged : atrace_changed_of st (intersected_apps st remaining)
                       (intersected_categories st remaining) = true)
    by (vm_compute; reflexivity).
  split; [exact Hchanged|].
  destruct (atrace_changed_iff_lists_differ P 2 s s' Hrun)
    as (_ & _ & _ & _ & _ & Hsets & _).
  assert (Hnda : NoDup (FtraceState.atrace_apps st)).
  { apply (proj1 (bool_decide_eq_true _)). vm_compute. reflexivity. }
  assert (Hndc : NoDup (FtraceState.atrace_categories st)).
  { apply (proj1 (bool_decide_eq_true _)). vm_compute. reflexivity. }
  destruct (Hsets Hnda Hndc) as [Hdiffer _]. exact (Hdiffer Hchanged).
Defined.

(** C10 does not hold as the spec writes it: the comparison of sizes does
    not decide a difference of sets when an entry is held twice.  Record 1 asks for the category [sched] twice and
    record 2 once, so that [current_state_] holds [sched; sched]; when
    record 1 is removed the expected categories are [sched]: the same set,
    another size, and [atrace_changed] is true. *)
Lemma size_comparison_with_duplicates :
  ~ size_comparison_as_stated (current_state_ (mux Demo.duplicate_category))
      (delete 1%N (ds_configs_ (mux Demo.duplicate_category))).
Proof.
  unfold size_comparison_as_stated. intros (_ & _ & Hiff).
  assert (Hea : intersected_apps (current_state_ (mux Demo.duplicate_category))
                  (delete 1%N (ds_configs_ (mux Demo.duplicate_category)))
                = []) by (vm_compute; reflexivity).
  assert (Hec : intersected_categories
                  (current_state_ (mux Demo.duplicate_category))
                  (delete 1%N (ds_configs_ (mux Demo.duplicate_category)))
                = ["sched"]) by (vm_compute; reflexivity).
  assert (Happs : FtraceState.atrace_apps
                    (current_state_ (mux Demo.duplicate_category)) = [])
    by (vm_compute; reflexivity).
  assert (Hcats : FtraceState.atrace_categories
                    (current_state_ (mux Demo.duplicate_category))
                  = ["sched"; "sched"]) by (vm_compute; reflexivity).
  cbv zeta in Hiff. rewrite Hea, Hec, Happs, Hcats in Hiff.
  destruct Hiff as [Hdiffer _].
  apply Hdiffer.
  - vm_compute. reflexivity.
  - split; intros x; cbn [In]; tauto.
Qed.

(** In that state the call of [RemoveConfig] does launch atrace again, on
    the category [sched] that it already runs with. *)
Lemma RemoveConfig_relaunches_on_duplicates :
  exists s',
    RemoveConfig (Demo.platform false) 1 Demo.duplicate_category
    = Some (true, s')
    /\ log s'
       = log Demo.duplicate_category
           ++ [(Call.RunAtrace
                  ["atrace"; "--async_start"; "--only_userspace"; "sched"],
                true)].
Proof. eexists. split; vm_compute; reflexivity. Qed.

(** ** The concrete scenarios of the specification, on the small platform *)

(** Scenario 1: a single request for [sched/sched_switch] with a buffer of
    4096 KiB.  The clock is set to [boot], the buffer to 1024 pages, the
    event is enabled; [ActivateConfig] turns tracing on; [RemoveConfig]
    disables the event, turns tracing off and tears the kernel down. *)
Example scenario_single_sched_request :
  let P := Demo.platform false in
  let R := FtraceConfig.mk ["sched/sched_switch"] [] [] 4096 false 0 in
  let s1 := Demo.after (SetupConfig P R (Demo.start Demo.kernel0)) in
  let s2 := Demo.after (ActivateConfig P 1 s1) in
  option_map fst (SetupConfig P R (Demo.start Demo.kernel0)) = Some 1%N
  /\ option_map fst (ActivateConfig P 1 s1) = Some true
  /\ option_map (fun r => (fst r, log (snd r))) (RemoveConfig P 1 s2)
     = Some (true,
             [(Call.SetClock "boot", true);
              (Call.SetCpuBufferSizeInPages 1024, true);
              (Call.EnableEvent "sched" "sched_switch", true);
              (Call.EnableTracing, true);
              (Call.DisableEvent "sched" "sched_switch", true);
              (Call.DisableTracing, true);
              (Call.SetCpuBufferSizeInPages 1, true);
              (Call.DisableAllEvents, true);
              (Call.ClearTrace, true)])
  /\ option_map (fun r => Demo.tracing_on (kernel (snd r)))
       (RemoveConfig P 1 s2) = Some false.
Proof. vm_compute. repeat split; reflexivity. Qed.

(** Scenario 3: two overlapping configurations.  Removing the first leaves
    both events enabled; removing the second disables both. *)
Example scenario_overlapping_configs :
  let P := Demo.platform false in
  let s3 := Demo.after (RemoveConfig P 1 Demo.two_configs) in
  log s3 = log Demo.two_configs
  /\ elements (Demo.enabled_events (kernel s3))
     = elements (Demo.enabled_events (kernel Demo.two_configs))
  /\ option_map (fun r => elements (Demo.enabled_events (kernel (snd r))))
       (RemoveConfig P 2 s3) = Some [].
Proof. vm_compute. repeat split; reflexivity. Qed.

(** Scenario 4: the atrace category [gfx] launches
    [atrace --async_start --only_userspace gfx]. *)
Example scenario_atrace_gfx :
  let P := Demo.platform false in
  let R := Demo.request [] ["gfx"] [] in
  option_map
    (fun r => List.filter (fun entry => is_RunAtrace (fst entry))
                (log (snd r)))
    (SetupConfig P R (Demo.start Demo.kernel0))
  = Some [(Call.RunAtrace
             ["atrace"; "--async_start"; "--only_userspace"; "gfx"],
           true)].
Proof. vm_compute. reflexivity. Qed.

(** Scenario 5: tracing is on and the registry is empty; [SetupConfig]
    returns 0 and nothing is written. *)
Example scenario_interference_guard :
  let P := Demo.platform false in
  let R := Demo.request ["sched/sched_switch"] [] [] in
  SetupConfig P R (Demo.start Demo.kernel_tracing)
  = Some (0%N, Demo.start Demo.kernel_tracing).
Proof. vm_compute. reflexivity. Qed.

(** Scenario 6: with the legacy atrace and one configuration that uses
    atrace, a second one that uses atrace is refused and the first is not
    disturbed. *)
Example scenario_legacy_atrace :
  let P := Demo.platform true in
  let R := Demo.request [] ["sched"] [] in
  let s1 := Demo.after (SetupConfig P R (Demo.start Demo.kernel0)) in
  option_map fst (SetupConfig P R (Demo.start Demo.kernel0)) = Some 1%N
  /\ SetupConfig P R s1 = Some (0%N, s1).
Proof. vm_compute. repeat split; reflexivity. Qed.

(** * Further properties of the code *)

(** ** Splitting an event specifier *)

Lemma prefix_empty (s : string) : String.prefix "" s = true.
Proof. now destruct s. Qed.

Lemma index_no_slash (s : string) :
  contains_char "/" s = false -> String.index 0 "/" s = None.
Proof.
  induction s as [| c s IH]; [reflexivity|].
  cbn [contains_char]. intros Hno.
  apply orb_false_iff in Hno as [Hc Hs].
  cbn [String.index String.prefix].
  destruct (ascii_dec "/" c) as [<- | _]; [discriminate Hc|].
  now rewrite (IH Hs).
Qed.

Lemma index_first_slash (group name : string) :
  contains_char "/" group = false ->
  String.index 0 "/" (group ++ "/" ++ name)%string
  = Some (String.length group).
Proof.
  induction group as [| c group IH]; intros Hno.
  - change ("" ++ "/" ++ name)%string with (String "/" name).
    cbn [String.index String.prefix].
    destruct (ascii_dec "/" "/") as [_ | Hne]; [|now elim Hne].
    now rewrite prefix_empty.
  - cbn [contains_char] in Hno.
    apply orb_false_iff in Hno as [Hc Hs].
    rewrite append_cons. cbn [String.index String.prefix String.length].
    destruct (ascii_dec "/" c) as [<- | _]; [discriminate Hc|].
    now rewrite (IH Hs).
Qed.

Lemma length_append (x y : string) :
  String.length (x ++ y)%string = String.length x + String.length y.
Proof.
  induction x as [| c x IH]; [reflexivity|].
  rewrite append_cons. cbn [String.length]. now rewrite IH.
Qed.

Lemma length_append_slash (x : string) :
  String.length (x ++ "/")%string = S (String.length x).
Proof. rewrite length_append. cbn. lia. Qed.

Lemma substring_whole (s : string) :
  String.substring 0 (String.length s) s = s.
Proof.
  induction s as [| c s IH]; [reflexivity|].
  cbn [String.length String.substring]. now rewrite IH.
Qed.

Lemma substring_skip (x y : string) (m : nat) :
  String.substring (String.length x) m (x ++ y)%string
  = String.substring 0 m y.
Proof.
  induction x as [| c x IH]; [reflexivity|].
  rewrite append_cons. cbn [String.length String.substring]. exact IH.
Qed.

(** A string with a slash is a part without slash, the slash, and a rest. *)
Lemma first_slash_exists (event : string) :
  contains_char "/" event = true ->
  exists group name,
    event = (group ++ "/" ++ name)%string
    /\ contains_char "/" group = false.
Proof.
  induction event as [| c event IH]; [discriminate|].
  cbn [contains_char]. intros Hhas.
  destruct (Ascii.eqb_spec c "/") as [-> | Hne].
  - exists "", event. split; reflexivity.
  - cbn [orb] in Hhas. destruct (IH Hhas) as (group & name & -> & Hno).
    exists (String c group), name. split; [reflexivity|].
    cbn [contains_char]. rewrite Hno.
    destruct (Ascii.eqb_spec c "/"); [contradiction | reflexivity].
Qed.

Lemma split_bare (event : string) :
  contains_char "/" event = false ->
  EventToStringGroupAndName event = ("", event).
Proof.
  intros Hno. unfold EventToStringGroupAndName.
  now rewrite (index_no_slash event Hno).
Qed.

Lemma split_joined (group name : string) :
  contains_char "/" group = false ->
  EventToStringGroupAndName (group ++ "/" ++ name)%string = (group, name).
Proof.
  intros Hno. unfold EventToStringGroupAndName.
  rewrite (index_first_slash group name Hno).
  rewrite substring_prefix. f_equal.
  rewrite length_append.
  change (S (String.length group))
    with (String.length (String "/" group)).
  change ("/" ++ name)%string with (String "/" name).
  cbn [String.length].
  replace (String.length group + S (String.length name)
           - S (String.length group)) with (String.length name) by lia.
  replace (group ++ String "/" name)%string
    with ((group ++ "/") ++ name)%string
    by (now rewrite append_assoc).
  replace (S (String.length group))
    with (String.length (group ++ "/")%string)
    by apply length_append_slash.
  rewrite substring_skip. apply substring_whole.
Qed.

(** X1. [EventToStringGroupAndName] splits at the first slash: a specifier
    without slash is a bare name with the empty group; a group without slash
    joined to any name by a slash is split back into that group and that
    name, so that only the first slash separates; and what is returned
    always rebuilds the specifier. *)
Theorem EventToStringGroupAndName_first_slash :
  (forall event,
      contains_char "/" event = false ->
      EventToStringGroupAndName event = ("", event))
  /\ (forall group name,
        contains_char "/" group = false ->
        EventToStringGroupAndName (group ++ "/" ++ name)%string
        = (group, name))
  /\ (forall event,
        contains_char "/" event = true ->
        contains_char "/" (fst (EventToStringGroupAndName event)) = false
        /\ event
           = (fst (EventToStringGroupAndName event) ++ "/"
              ++ snd (EventToStringGroupAndName event))%string).
Proof.
  split; [exact split_bare|split; [exact split_joined|]].
  intros event Hhas.
  destruct (first_slash_exists event Hhas) as (group & name & -> & Hno).
  rewrite (split_joined group name Hno). cbn [fst snd]. now split.
Qed.

(** On [sched/sched_switch], on a bare name and on a name with two
    slashes. *)
Lemma EventToStringGroupAndName_first_slash_witness :
  EventToStringGroupAndName "cpu_idle" = ("", "cpu_idle")
  /\ EventToStringGroupAndName ("sched" ++ "/" ++ "sched_switch")%string
     = ("sched", "sched_switch")
  /\ EventToStringGroupAndName ("a" ++ "/" ++ "b/c")%string = ("a", "b/c").
Proof.
  destruct EventToStringGroupAndName_first_slash as (Hbare & Hjoin & _).
  split; [apply Hbare; reflexivity|].
  split; apply Hjoin; reflexivity.
Defined.

(** ** The directory of the executable *)

Lemma find_last_of_none (c : ascii) (s : string) :
  contains_char c s = false -> find_last_of c s = None.
Proof.
  induction s as [| a s IH]; [reflexivity|].
  cbn [contains_char find_last_of]. intros Hno.
  apply orb_false_iff in Hno as [Ha Hs]. now rewrite (IH Hs), Ha.
Qed.

Lemma find_last_of_last (c : ascii) (dir file : string) :
  contains_char c file = false ->
  find_last_of c (dir ++ String c file)%string = Some (String.length dir).
Proof.
  intros Hno. induction dir as [| a dir IH].
  - change ("" ++ String c file)%string with (String c file).
    cbn [find_last_of]. rewrite (find_last_of_none c file Hno).
    now rewrite Ascii.eqb_refl.
  - rewrite append_cons. cbn [find_last_of String.length]. now rewrite IH.
Qed.

Lemma prefix_substring (n : nat) (s : string) :
  String.prefix (String.substring 0 n s) s = true.
Proof.
  revert n. induction s as [| a s IH]; intros n.
  - now destruct n.
  - destruct n as [| n]; [reflexivity|].
    cbn [String.substring String.prefix].
    destruct (ascii_dec a a) as [_ | Hne]; [apply IH | now elim Hne].
Qed.

Lemma substring_substring (n m : nat) (s : string) :
  String.substring 0 n (String.substring 0 m s)
  = String.substring 0 (Nat.min n m) s.
Proof.
  revert n m. induction s as [| a s IH]; intros n m.
  - destruct n, m; reflexivity.
  - destruct m as [| m]; [now destruct n|].
    destruct n as [| n]; [reflexivity|].
    cbn [String.substring Nat.min]. now rewrite IH.
Qed.

Lemma substr_0_substring (count : option nat) (s : string) :
  exists n, substr_0 count s = String.substring 0 n s.
Proof.
  destruct count as [n|]; [now exists n|].
  exists (String.length s). symmetry. apply substring_whole.
Qed.

Lemma parent_of_joined (c : ascii) (dir file : string) :
  contains_char c file = false ->
  substr_0 (find_last_of c (dir ++ String c file)%string)
    (dir ++ String c file)%string = dir.
Proof.
  intros Hno. rewrite (find_last_of_last c dir file Hno).
  apply substring_prefix.
Qed.

(** X16. [GetCurExecutableDir] cuts the path of the executable at its last
    slash: for a path [dir/file] whose [file] has no slash it gives [dir],
    which is empty for a file in the root directory, and a path without
    slash is returned whole.  Under [PERFETTO_OS_WIN] the path is cut at its
    last backslash first and the result is cut again at its last slash.
    What is returned is always a prefix of the path. *)
Theorem GetCurExecutableDir_parent :
  (forall dir file,
      contains_char "/" file = false ->
      GetCurExecutableDir false (dir ++ "/" ++ file)%string = dir)
  /\ (forall path,
        contains_char "/" path = false ->
        GetCurExecutableDir false path = path)
  /\ (forall dir file,
        contains_char backslash file = false ->
        GetCurExecutableDir true (dir ++ String backslash file)%string
        = GetCurExecutableDir false dir)
  /\ (forall os_win path,
        String.prefix (GetCurExecutableDir os_win path) path = true).
Proof.
  split; [|split; [|split]].
  - intros dir file Hno. unfold GetCurExecutableDir.
    change ("/" ++ file)%string with (String "/" file).
    now apply parent_of_joined.
  - intros path Hno. unfold GetCurExecutableDir.
    now rewrite (find_last_of_none _ path Hno).
  - intros dir file Hno. unfold GetCurExecutableDir.
    now rewrite (parent_of_joined backslash dir file Hno).
  - intros os_win path. unfold GetCurExecutableDir.
    destruct os_win.
    + destruct (substr_0_substring (find_last_of backslash path) path)
        as (m & ->).
      destruct (substr_0_substring
                  (find_last_of "/" (String.substring 0 m path))
                  (String.substring 0 m path)) as (n & ->).
      rewrite substring_substring. apply prefix_substring.
    + destruct (substr_0_substring (find_last_of "/" path) path)
        as (n & ->).
      apply prefix_substring.
Qed.

(** On an absolute path, on a file of the root directory, on a bare name,
    and under [PERFETTO_OS_WIN] on a path with both kinds of slashes. *)
Lemma GetCurExecutableDir_parent_witness :
  GetCurExecutableDir false ("/usr/bin" ++ "/" ++ "tracebox")%string
  = "/usr/bin"
  /\ GetCurExecutableDir false ("" ++ "/" ++ "tracebox")%string = ""
  /\ GetCurExecutableDir false "tracebox" = "tracebox"
  /\ GetCurExecutableDir true
       ("C:/tools/bin" ++ String backslash "tracebox.exe")%string
     = "C:/tools".
Proof.
  destruct GetCurExecutableDir_parent as (Hdir & Hbare & Hwin & _).
  split; [apply Hdir; reflexivity|].
  split; [apply Hdir; reflexivity|].
  split; [apply Hbare; reflexivity|].
  rewrite Hwin by reflexivity.
  apply (Hdir "C:/tools" "bin"). reflexivity.
Defined.

(** ** The size of the buffer *)

(** X17. For a page size between 1 KiB and 64 MiB, the pages that
    [ComputeCpuBufferSizeInPages] returns never take more than the cap of
    64 MiB; a request between one page and the cap is rounded down to whole
    pages, by less than one page; and the result grows with the request, as
    long as the request is not 0, which stands for the default. *)
Theorem ComputeCpuBufferSizeInPages_bounds (kPageSize : N) :
  (1024 <= kPageSize <= 65536 * 1024)%N ->
  let page_kb := (kPageSize / 1024)%N in
  (forall kb,
      (ComputeCpuBufferSizeInPages kPageSize kb * page_kb
       <= kMaxPerCpuBufferSizeKb)%N)
  /\ (forall kb,
        (page_kb <= kb <= kMaxPerCpuBufferSizeKb)%N ->
        (kb - page_kb < ComputeCpuBufferSizeInPages kPageSize kb * page_kb
         <= kb)%N)
  /\ (forall kb1 kb2,
        (0 < kb1 <= kb2)%N ->
        (ComputeCpuBufferSizeInPages kPageSize kb1
         <= ComputeCpuBufferSizeInPages kPageSize kb2)%N).
Proof.
  intros [Hlo Hhi] page_kb.
  assert (Hkb : (1 <= page_kb <= 65536)%N).
  { subst page_kb. split.
    - apply N.div_le_lower_bound; lia.
    - apply N.Div0.div_le_upper_bound; lia. }
  assert (Hdown : forall a, (a / page_kb * page_kb <= a)%N).
  { intros a. rewrite N.mul_comm. apply N.Div0.mul_div_le. }
  assert (Hup : forall a, (a < a / page_kb * page_kb + page_kb)%N).
  { intros a. pose proof (N.mul_succ_div_gt a page_kb ltac:(lia)). lia. }
  unfold ComputeCpuBufferSizeInPages, kMaxPerCpuBufferSizeKb,
    kDefaultPerCpuBufferSizeKb. fold page_kb.
  split; [|split].
  - intros kb.
    destruct (kb =? 0)%N;
      repeat match goal with
             | |- context [(?a <? ?b)%N] => destruct (N.ltb_spec a b)
             | |- context [(?a =? ?b)%N] => destruct (N.eqb_spec a b)
             end;
      try lia;
      match goal with
      | |- (?a / page_kb * page_kb <= _)%N => pose proof (Hdown a); lia
      end.
  - intros kb [Hmin Hmax].
    destruct (N.eqb_spec kb 0) as [-> | _]; [lia|].
    destruct (N.ltb_spec (64 * 1024) kb) as [? | _]; [lia|].
    pose proof (Hdown kb). pose proof (Hup kb).
    destruct (N.eqb_spec (kb / page_kb) 0) as [Hz | _]; [|lia].
    rewrite Hz in *. lia.
  - intros kb1 kb2 [Hpos Hle].
    destruct (N.eqb_spec kb1 0) as [-> | _]; [lia|].
    destruct (N.eqb_spec kb2 0) as [-> | _]; [lia|].
    assert (Hmono : forall a b, (a <= b)%N ->
              ((if (a / page_kb =? 0)%N then 1 else a / page_kb)
               <= (if (b / page_kb =? 0)%N then 1 else b / page_kb))%N).
    { intros a b Hab.
      pose proof (N.Div0.div_le_mono a b page_kb Hab).
      destruct (N.eqb_spec (a / page_kb) 0), (N.eqb_spec (b / page_kb) 0);
        lia. }
    destruct (N.ltb_spec (64 * 1024) kb1), (N.ltb_spec (64 * 1024) kb2);
      apply Hmono; lia.
Qed.

(** With pages of 4 KiB: a request of 10 KiB gives 2 pages. *)
Lemma ComputeCpuBufferSizeInPages_bounds_witness :
  (ComputeCpuBufferSizeInPages 4096 100000 * 4 <= 65536)%N
  /\ (10 - 4 < ComputeCpuBufferSizeInPages 4096 10 * 4 <= 10)%N
  /\ (ComputeCpuBufferSizeInPages 4096 10
      <= ComputeCpuBufferSizeInPages 4096 4096)%N.
Proof.
  destruct (ComputeCpuBufferSizeInPages_bounds 4096 ltac:(lia))
    as (Hcap & Hround & Hmono).
  split; [apply (Hcap 100000%N)|].
  split; [apply (Hround 10%N); vm_compute; split; discriminate|].
  apply (Hmono 10%N 4096%N). lia.
Defined.

(** ** Unions and intersections of sorted vectors *)

Lemma ltb_le (x y : string) : String.ltb x y = true -> String.le x y.
Proof.
  unfold String.ltb, String.le, String.leb.
  now destruct (String.compare x y).
Qed.

Lemma ltb_false_le (x y : string) : String.ltb x y = false -> String.le y x.
Proof.
  unfold String.ltb, String.le, String.leb.
  rewrite (String.compare_antisym y x).
  now destruct (String.compare x y).
Qed.

Lemma ltb_not_le (x y : string) : String.ltb x y = true -> ~ String.le y x.
Proof.
  unfold String.ltb, String.le, String.leb.
  rewrite (String.compare_antisym y x).
  destruct (String.compare x y); cbn; intros H; try discriminate H; tauto.
Qed.

Lemma ltb_irrefl (x : string) : String.ltb x x = false.
Proof.
  destruct (String.ltb x x) eqn:H; [|reflexivity].
  exfalso. apply (ltb_not_le x x H). now apply ltb_le.
Qed.

Lemma le_trans (x y z : string) :
  String.le x y -> String.le y z -> String.le x z.
Proof. intros Hxy Hyz. now transitivity y. Qed.

Lemma std_sort_sorted (v : list string) :
  StronglySorted String.le (std_sort v).
Proof. unfold std_sort. apply StronglySorted_merge_sort; apply _. Qed.

Lemma sorted_head_le (x : string) (l : list string) (z : string) :
  StronglySorted String.le (x :: l) -> In z l -> String.le x z.
Proof.
  intros Hs Hin. apply StronglySorted_inv in Hs as [_ Hall].
  rewrite List.Forall_forall in Hall. now apply Hall.
Qed.

Lemma sorted_tail (x : string) (l : list string) :
  StronglySorted String.le (x :: l) -> StronglySorted String.le l.
Proof. intros Hs. now apply StronglySorted_inv in Hs. Qed.

(** The merge of two sorted ranges is sorted. *)
Lemma set_union_sorted (a b : list string) :
  StronglySorted String.le a -> StronglySorted String.le b ->
  StronglySorted String.le (set_union a b).
Proof.
  revert b. induction a as [| x a IHa]; intros b Ha Hb.
  - now destruct b.
  - induction b as [| y b IHb]; [exact Ha|].
    cbn [set_union].
    destruct (String.ltb y x) eqn:Hyx.
    + constructor.
      * apply IHb. now apply sorted_tail in Hb.
      * apply List.Forall_forall. intros z Hz.
        change (In z (set_union (x :: a) b)) in Hz.
        apply In_set_union in Hz as [[<- | Hz] | Hz].
        -- now apply ltb_le.
        -- apply (le_trans y x z); [now apply ltb_le|].
           now apply (sorted_head_le x a).
        -- now apply (sorted_head_le y b).
    + destruct (String.ltb x y) eqn:Hxy.
      * constructor.
        -- apply IHa; [now apply sorted_tail in Ha | exact Hb].
        -- apply List.Forall_forall. intros z Hz.
           apply In_set_union in Hz as [Hz | [<- | Hz]].
           ++ now apply (sorted_head_le x a).
           ++ now apply ltb_le.
           ++ apply (le_trans x y z); [now apply ltb_le|].
              now apply (sorted_head_le y b).
      * pose proof (ltb_neither x y Hxy Hyx) as <-.
        constructor.
        -- apply IHa; [now apply sorted_tail in Ha
                      | now apply sorted_tail in Hb].
        -- apply List.Forall_forall. intros z Hz.
           apply In_set_union in Hz as [Hz | Hz];
             [now apply (sorted_head_le x a) | now apply (sorted_head_le x b)].
Qed.

Lemma set_union_length (a b : list string) :
  length a <= length (set_union a b)
  /\ length b <= length (set_union a b)
  /\ length (set_union a b) <= length a + length b.
Proof.
  revert b. induction a as [| x a IHa]; intros b.
  - destruct b; cbn; lia.
  - induction b as [| y b IHb]; [cbn; lia|].
    cbn [set_union].
    destruct (String.ltb y x).
    + change (length (x :: a) <= S (length (set_union (x :: a) b))
              /\ length (y :: b) <= S (length (set_union (x :: a) b))
              /\ S (length (set_union (x :: a) b))
                 <= length (x :: a) + length (y :: b)).
      cbn [length] in *. lia.
    + destruct (String.ltb x y).
      * pose proof (IHa (y :: b)). cbn [length] in *. lia.
      * pose proof (IHa b). cbn [length] in *. lia.
Qed.

(** Without an entry held twice in either range, the merge holds none
    twice. *)
Lemma set_union_NoDup (a b : list string) :
  StronglySorted String.le a -> StronglySorted String.le b ->
  NoDup a -> NoDup b -> NoDup (set_union a b).
Proof.
  revert b. induction a as [| x a IHa]; intros b Ha Hb Hna Hnb.
  - now destruct b.
  - induction b as [| y b IHb]; [exact Hna|].
    apply NoDup_cons in Hna as Hna'. destruct Hna' as [Hxa Hna'].
    apply NoDup_cons in Hnb as Hnb'. destruct Hnb' as [Hyb Hnb'].
    rewrite list_elem_of_In in Hxa, Hyb.
    cbn [set_union].
    destruct (String.ltb y x) eqn:Hyx.
    + apply NoDup_cons. split.
      * rewrite list_elem_of_In.
        change (~ In y (set_union (x :: a) b)).
        rewrite In_set_union. intros [[Heq | Hin] | Hin].
        -- subst. now rewrite ltb_irrefl in Hyx.
        -- apply (ltb_not_le y x Hyx). now apply (sorted_head_le x a).
        -- contradiction.
      * apply IHb; [now apply sorted_tail in Hb | exact Hnb'].
    + destruct (String.ltb x y) eqn:Hxy.
      * apply NoDup_cons. split.
        -- rewrite list_elem_of_In, In_set_union.
           intros [Hin | [Heq | Hin]].
           ++ contradiction.
           ++ subst. now rewrite ltb_irrefl in Hxy.
           ++ apply (ltb_not_le x y Hxy). now apply (sorted_head_le y b).
        -- apply IHa; [now apply sorted_tail in Ha | exact Hb
                      | exact Hna' | exact Hnb].
      * pose proof (ltb_neither x y Hxy Hyx) as <-.
        apply NoDup_cons. split.
        -- rewrite list_elem_of_In, In_set_union. tauto.
        -- apply IHa; [now apply sorted_tail in Ha
                      | now apply sorted_tail in Hb
                      | exact Hna' | exact Hnb'].
Qed.

(** X2. [UnionInPlace] leaves in [*out] a sorted vector that holds exactly
    the strings of either vector; its size is at least the size of each and
    at most their sum; and when neither vector holds a string twice, neither
    does the result. *)
Theorem UnionInPlace_sorted_union (a out : list string) :
  StronglySorted String.le (UnionInPlace a out)
  /\ (forall z, In z (UnionInPlace a out) <-> In z a \/ In z out)
  /\ length a <= length (UnionInPlace a out)
  /\ length out <= length (UnionInPlace a out)
  /\ length (UnionInPlace a out) <= length a + length out
  /\ (NoDup a -> NoDup out -> NoDup (UnionInPlace a out)).
Proof.
  split; [apply set_union_sorted; apply std_sort_sorted|].
  split; [intros z; apply In_UnionInPlace|].
  unfold UnionInPlace.
  pose proof (set_union_length (std_sort a) (std_sort out)) as Hlen.
  rewrite !length_std_sort in Hlen.
  split; [apply Hlen|]. split; [apply Hlen|]. split; [apply Hlen|].
  intros Hna Hnout.
  apply set_union_NoDup;
    auto using std_sort_sorted, NoDup_std_sort.
Qed.

(** On two small vectors that share one string. *)
Lemma UnionInPlace_sorted_union_witness :
  UnionInPlace ["sched"; "gfx"] ["irq"; "gfx"] = ["gfx"; "irq"; "sched"]
  /\ NoDup (UnionInPlace ["sched"; "gfx"] ["irq"; "gfx"]).
Proof.
  split; [reflexivity|].
  destruct (UnionInPlace_sorted_union ["sched"; "gfx"] ["irq"; "gfx"])
    as (_ & _ & _ & _ & _ & Hnd).
  apply Hnd; apply (proj1 (bool_decide_eq_true _)); reflexivity.
Defined.

(** What [set_intersection] copies is in both ranges. *)
Lemma In_set_intersection (a b : list string) (z : string) :
  In z (set_intersection a b) -> In z a /\ In z b.
Proof.
  revert b. induction a as [| x a IHa]; intros b.
  - destruct b; intros [].
  - induction b as [| y b IHb]; [intros []|].
    cbn [set_intersection].
    destruct (String.ltb x y) eqn:Hxy.
    + intros Hin. apply IHa in Hin as [Ha Hb]. split; [now right | exact Hb].
    + destruct (String.ltb y x) eqn:Hyx.
      * intros Hin. apply IHb in Hin as [Ha Hb].
        split; [exact Ha | now right].
      * pose proof (ltb_neither x y Hxy Hyx) as <-.
        intros [<- | Hin]; [split; now left|].
        apply IHa in Hin as [Ha Hb]. split; now right.
Qed.

(** On sorted ranges it copies every string that is in both. *)
Lemma set_intersection_complete (a b : list string) (z : string) :
  StronglySorted String.le a -> StronglySorted String.le b ->
  In z a -> In z b -> In z (set_intersection a b).
Proof.
  revert b. induction a as [| x a IHa]; intros b Ha Hb Hza Hzb;
    [destruct Hza|].
  induction b as [| y b IHb]; [destruct Hzb|].
  cbn [set_intersection].
  destruct (String.ltb x y) eqn:Hxy.
  - apply IHa; [now apply sorted_tail in Ha | exact Hb | | exact Hzb].
    destruct Hza as [<- | Hza]; [|exact Hza].
    exfalso. apply (ltb_not_le x y Hxy).
    destruct Hzb as [-> | Hzb]; [now apply ltb_le|].
    now apply (sorted_head_le y b).
  - destruct (String.ltb y x) eqn:Hyx.
    + apply IHb; [now apply sorted_tail in Hb|].
      destruct Hzb as [<- | Hzb]; [|exact Hzb].
      exfalso. apply (ltb_not_le y x Hyx).
      destruct Hza as [-> | Hza]; [now apply ltb_le|].
      now apply (sorted_head_le x a).
    + pose proof (ltb_neither x y Hxy Hyx) as <-.
      destruct Hza as [<- | Hza]; [now left|].
      destruct Hzb as [<- | Hzb]; [now left|].
      right. apply IHa; [now apply sorted_tail in Ha
                        | now apply sorted_tail in Hb | exact Hza | exact Hzb].
Qed.

Lemma sublist_sorted (l1 l2 : list string) :
  l1 `sublist_of` l2 -> StronglySorted String.le l2 ->
  StronglySorted String.le l1.
Proof.
  induction 1 as [| x l1 l2 Hsub IH | x l1 l2 Hsub IH]; intros Hs.
  - constructor.
  - constructor; [apply IH; now apply sorted_tail in Hs|].
    apply List.Forall_forall. intros z Hz.
    apply (sorted_head_le x l2); [exact Hs|].
    apply list_elem_of_In. apply list_elem_of_In in Hz.
    exact (elem_of_sublist _ _ _ Hz Hsub).
  - apply IH. now apply sorted_tail in Hs.
Qed.

(** X3. [IntersectInPlace] leaves in [*out] a sorted vector that holds
    exactly the strings that are in both vectors; it is a sub-list of the
    sorted first vector, so it is no longer than either vector, and it holds
    no string twice when the first vector holds none twice. *)
Theorem IntersectInPlace_sorted_intersection (a out : list string) :
  StronglySorted String.le (IntersectInPlace a out)
  /\ (forall z, In z (IntersectInPlace a out) <-> In z a /\ In z out)
  /\ IntersectInPlace a out `sublist_of` std_sort a
  /\ length (IntersectInPlace a out) <= length a
  /\ (NoDup a -> NoDup (IntersectInPlace a out)).
Proof.
  pose proof (IntersectInPlace_sublist a out) as Hsub.
  split.
  { apply (sublist_sorted _ _ Hsub), std_sort_sorted. }
  split.
  { intros z. unfold IntersectInPlace. split.
    - intros Hin. apply In_set_intersection in Hin as [Ha Hb].
      now rewrite !In_std_sort in Ha, Hb.
    - intros [Ha Hb].
      apply set_intersection_complete;
        try apply std_sort_sorted; now apply In_std_sort. }
  split; [exact Hsub|].
  split.
  { apply sublist_length in Hsub. now rewrite length_std_sort in Hsub. }
  intros Hnd. eapply sublist_NoDup; [|exact Hsub]. now apply NoDup_std_sort.
Qed.

(** On two small vectors that share one string. *)
Lemma IntersectInPlace_sorted_intersection_witness :
  IntersectInPlace ["sched"; "gfx"] ["irq"; "gfx"] = ["gfx"]
  /\ NoDup (IntersectInPlace ["sched"; "gfx"] ["irq"; "gfx"]).
Proof.
  split; [reflexivity|].
  destruct (IntersectInPlace_sorted_intersection ["sched"; "gfx"]
              ["irq"; "gfx"]) as (_ & _ & _ & _ & Hnd).
  apply Hnd. apply (proj1 (bool_decide_eq_true _)). reflexivity.
Defined.

(** *** A union taken twice *)

Lemma set_union_lt (x y : string) (a b : list string) :
  String.ltb y x = true ->
  set_union (x :: a) (y :: b) = y :: set_union (x :: a) b.
Proof. intros H. cbn [set_union]. now rewrite H. Qed.

Lemma set_union_gt (x y : string) (a b : list string) :
  String.ltb y x = false -> String.ltb x y = true ->
  set_union (x :: a) (y :: b) = x :: set_union a (y :: b).
Proof. intros H1 H2. cbn [set_union]. now rewrite H1, H2. Qed.

Lemma set_union_eq (x y : string) (a b : list string) :
  String.ltb y x = false -> String.ltb x y = false ->
  set_union (x :: a) (y :: b) = x :: set_union a b.
Proof. intros H1 H2. cbn [set_union]. now rewrite H1, H2. Qed.

Lemma set_union_nil_r (a : list string) : set_union a [] = a.
Proof. now destruct a. Qed.

Lemma set_union_self (b : list string) : set_union b b = b.
Proof.
  induction b as [| y b IH]; [reflexivity|].
  rewrite set_union_eq by apply ltb_irrefl. now rewrite IH.
Qed.

(** Merging the same range in again changes nothing. *)
Lemma set_union_absorb (a b : list string) :
  set_union (set_union a b) b = set_union a b.
Proof.
  revert b. induction a as [| x a IHa]; intros b.
  - replace (set_union [] b) with b by (now destruct b).
    apply set_union_self.
  - induction b as [| y b IHb]; [now rewrite !set_union_nil_r|].
    destruct (String.ltb y x) eqn:Hyx.
    + rewrite (set_union_lt x y a b Hyx).
      rewrite set_union_eq by apply ltb_irrefl. now rewrite IHb.
    + destruct (String.ltb x y) eqn:Hxy.
      * rewrite (set_union_gt x y a b Hyx Hxy).
        rewrite (set_union_gt x y _ b Hyx Hxy). now rewrite IHa.
      * rewrite (set_union_eq x y a b Hyx Hxy).
        rewrite (set_union_eq x y _ b Hyx Hxy). now rewrite IHa.
Qed.

Lemma std_sort_sorted_id (l : list string) :
  StronglySorted String.le l -> std_sort l = l.
Proof.
  intros Hl. apply (StronglySorted_unique String.le).
  - apply std_sort_sorted.
  - exact Hl.
  - apply merge_sort_Permutation.
Qed.

(** Joining the same list to a union again gives the union. *)
Lemma UnionInPlace_absorb (current requested : list string) :
  UnionInPlace (UnionInPlace current requested) requested
  = UnionInPlace current requested.
Proof.
  unfold UnionInPlace. cbv zeta.
  rewrite (std_sort_sorted_id
             (set_union (std_sort current) (std_sort requested)))
    by (apply set_union_sorted; apply std_sort_sorted).
  apply set_union_absorb.
Qed.

(** ** The event resolver, specifier by specifier *)

Section ResolverMore.

Context {W T : Type} (P : Platform W T).

Lemma In_ordered {A : Type} `{Countable A} (R : relation A)
    `{forall x y, Decision (R x y)} (X : gset A) (x : A) :
  In x (ordered R X) <-> x ∈ X.
Proof.
  unfold ordered. rewrite <- list_elem_of_In.
  rewrite (merge_sort_Permutation R _). apply elem_of_elements.
Qed.

Lemma elem_of_fold_insert {A : Type} (f : A -> GroupAndName) (l : list A)
    (acc : gset GroupAndName) (x : GroupAndName) :
  x ∈ fold_left (fun events a => {[ f a ]} ∪ events) l acc
  <-> x ∈ acc \/ exists a, In a l /\ x = f a.
Proof.
  revert acc. induction l as [| a l IH]; intros acc; cbn [fold_left].
  - split; [tauto|]. intros [? | (? & [] & _)]. assumption.
  - rewrite IH, elem_of_union, elem_of_singleton. split.
    + intros [[-> | ?] | (b & ? & ->)].
      * right. exists a. split; [now left | reflexivity].
      * now left.
      * right. exists b. split; [now right | reflexivity].
    + intros [? | (b & [<- | ?] & ->)].
      * left. now right.
      * left. now left.
      * right. now exists b.
Qed.

Lemma elem_of_ReadEventsInGroupFromFs (w : W) (group : string)
    (x : GroupAndName) :
  x ∈ ReadEventsInGroupFromFs P w group
  <-> fst x = group
      /\ snd x ∈ GetEventNamesForGroup P ("events/" ++ group)%string w.
Proof.
  unfold ReadEventsInGroupFromFs.
  rewrite (elem_of_fold_insert (fun name => (group, name))).
  split.
  - intros [Hbad | (name & Hin & ->)];
      [now apply not_elem_of_empty in Hbad|].
    apply In_ordered in Hin. now split.
  - intros [<- Hin]. right. exists (snd x).
    split; [now apply In_ordered | now destruct x].
Qed.

Lemma elem_of_resolve_config_value (tbl : T) (w : W)
    (events : gset GroupAndName) (config_value : string)
    (x : GroupAndName) :
  x ∈ resolve_config_value P tbl w events config_value
  <-> x ∈ events \/ resolves P tbl w config_value x.
Proof.
  unfold resolve_config_value, resolves.
  destruct (EventToStringGroupAndName config_value) as [group name].
  cbn [fst snd].
  destruct (String.eqb name "*").
  - rewrite (elem_of_fold_insert (fun event => event)).
    rewrite <- elem_of_ReadEventsInGroupFromFs. split.
    + intros [? | (e & Hin & ->)]; [now left|].
      right. now apply In_ordered in Hin.
    + intros [? | Hin]; [now left|].
      right. exists x. split; [now apply In_ordered | reflexivity].
  - destruct (String.eqb group "").
    + destruct (GetEventByName P name tbl) as [e|].
      * rewrite elem_of_union, elem_of_singleton. split.
        -- intros [-> | ?]; [right; now exists e | now left].
        -- intros [? | (e' & [= <-] & ->)]; [now right | now left].
      * split; [tauto|]. intros [? | (e & Hbad & _)];
          [assumption | discriminate Hbad].
    + rewrite elem_of_union, elem_of_singleton. tauto.
Qed.

Lemma elem_of_resolve_all (tbl : T) (w : W) (values : list string)
    (acc : gset GroupAndName) (x : GroupAndName) :
  x ∈ fold_left (resolve_config_value P tbl w) values acc
  <-> x ∈ acc \/ exists v, In v values /\ resolves P tbl w v x.
Proof.
  revert acc. induction values as [| v values IH]; intros acc;
    cbn [fold_left].
  - split; [tauto|]. intros [? | (? & [] & _)]. assumption.
  - rewrite IH, elem_of_resolve_config_value. split.
    + intros [[? | ?] | (v' & ? & ?)].
      * now left.
      * right. exists v. split; [now left | assumption].
      * right. exists v'. split; [now right | assumption].
    + intros [? | (v' & [<- | ?] & ?)].
      * left. now left.
      * left. now right.
      * right. now exists v'.
Qed.

(** The set that [GetFtraceEvents] returns, element by element. *)
Lemma elem_of_GetFtraceEvents (request : FtraceConfig.t) (tbl : T) (w : W)
    (x : GroupAndName) :
  x ∈ GetFtraceEvents P request tbl w
  <-> (exists v, In v (FtraceConfig.ftrace_events request)
                 /\ resolves P tbl w v x)
      \/ (RequiresAtrace request = true
          /\ (x = ("ftrace", "print")
              \/ exists category i,
                   In category (FtraceConfig.atrace_categories request)
                   /\ In i (category_insertions category)
                   /\ inserts P tbl i x)).
Proof.
  unfold GetFtraceEvents.
  destruct (RequiresAtrace request).
  - rewrite elem_of_categories. unfold InsertEvent.
    rewrite elem_of_union, elem_of_singleton, elem_of_resolve_all.
    unfold inserts. split.
    + intros [[-> | [Hbad | ?]] | ?].
      * right. split; [reflexivity | now left].
      * now apply not_elem_of_empty in Hbad.
      * now left.
      * right. split; [reflexivity | now right].
    + intros [? | [_ [-> | ?]]].
      * left. right. now right.
      * left. now left.
      * now right.
  - rewrite elem_of_resolve_all. split.
    + intros [Hbad | ?]; [now apply not_elem_of_empty in Hbad | now left].
    + intros [? | [Hbad _]]; [now right | discriminate Hbad].
Qed.

(** X4. The set that [GetFtraceEvents] returns does not depend on the order
    in which the request lists its event specifiers and its categories, nor
    on how often it lists one: two requests with the same specifiers, the
    same categories and both with or both without apps resolve to the same
    set. *)
Theorem GetFtraceEvents_order_independent (r1 r2 : FtraceConfig.t) (tbl : T)
    (w : W) :
  (forall v, In v (FtraceConfig.ftrace_events r1)
             <-> In v (FtraceConfig.ftrace_events r2)) ->
  (forall c, In c (FtraceConfig.atrace_categories r1)
             <-> In c (FtraceConfig.atrace_categories r2)) ->
  (FtraceConfig.atrace_apps r1 = [] <-> FtraceConfig.atrace_apps r2 = []) ->
  GetFtraceEvents P r1 tbl w = GetFtraceEvents P r2 tbl w.
Proof.
  intros Hevents Hcats Happs.
  assert (Hreq : RequiresAtrace r1 = RequiresAtrace r2).
  { unfold RequiresAtrace.
    assert (Hc : FtraceConfig.atrace_categories r1 = []
                 <-> FtraceConfig.atrace_categories r2 = []).
    { split; intros Hnil.
      - destruct (FtraceConfig.atrace_categories r2) as [| c l];
          [reflexivity|].
        exfalso. rewrite Hnil in Hcats. apply (Hcats c). now left.
      - destruct (FtraceConfig.atrace_categories r1) as [| c l];
          [reflexivity|].
        exfalso. rewrite Hnil in Hcats. apply (Hcats c). now left. }
    rewrite (bool_decide_ext _ _ Hc), (bool_decide_ext _ _ Happs).
    reflexivity. }
  apply set_eq. intros x. rewrite !elem_of_GetFtraceEvents, Hreq.
  split.
  - intros [(v & Hv & Hres) | (Hr & [-> | (c & i & Hc & Hi & Hins)])].
    + left. exists v. split; [now apply Hevents | exact Hres].
    + right. split; [exact Hr | now left].
    + right. split; [exact Hr|]. right. exists c, i.
      split; [now apply Hcats | now split].
  - intros [(v & Hv & Hres) | (Hr & [-> | (c & i & Hc & Hi & Hins)])].
    + left. exists v. split; [now apply Hevents | exact Hres].
    + right. split; [exact Hr | now left].
    + right. split; [exact Hr|]. right. exists c, i.
      split; [now apply Hcats | now split].
Qed.

Lemma resolves_explicit (tbl : T) (w : W) (group name : string)
    (x : GroupAndName) :
  group <> "" -> contains_char "/" group = false -> name <> "*" ->
  resolves P tbl w (group ++ "/" ++ name)%string x <-> x = (group, name).
Proof.
  intros Hgroup Hno Hname. unfold resolves.
  rewrite (split_joined group name Hno). cbn [fst snd].
  destruct (String.eqb_spec name "*"); [contradiction|].
  destruct (String.eqb_spec group ""); [contradiction|]. reflexivity.
Qed.

Lemma resolves_bare (tbl : T) (w : W) (name : string) (x : GroupAndName) :
  contains_char "/" name = false -> name <> "*" ->
  resolves P tbl w name x
  <-> exists e, GetEventByName P name tbl = Some e
                /\ x = (Event.group e, Event.name e).
Proof.
  intros Hno Hname. unfold resolves.
  rewrite (split_bare name Hno). cbn [fst snd].
  destruct (String.eqb_spec name "*"); [contradiction|]. reflexivity.
Qed.

Lemma resolves_wildcard (tbl : T) (w : W) (group : string)
    (x : GroupAndName) :
  contains_char "/" group = false ->
  resolves P tbl w (group ++ "/" ++ "*")%string x
  <-> fst x = group
      /\ snd x ∈ GetEventNamesForGroup P ("events/" ++ group)%string w.
Proof.
  intros Hno. unfold resolves.
  rewrite (split_joined group "*" Hno). cbn [fst snd]. reflexivity.
Qed.

(** X5. An event that the request names with its group, [group/name], is in
    the resolved set as it is written, whether or not the translation table
    knows it.  A bare name is looked up in the table: when the table knows
    it, the group and name of the table's event are in the set; when the
    table does not, the name adds nothing, and a request without atrace that
    only holds such names resolves to the empty set. *)
Theorem GetFtraceEvents_named_events (request : FtraceConfig.t) (tbl : T)
    (w : W) :
  (forall group name,
      group <> "" -> contains_char "/" group = false -> name <> "*" ->
      In (group ++ "/" ++ name)%string (FtraceConfig.ftrace_events request) ->
      (group, name) ∈ GetFtraceEvents P request tbl w)
  /\ (forall name e,
        contains_char "/" name = false -> name <> "*" ->
        In name (FtraceConfig.ftrace_events request) ->
        GetEventByName P name tbl = Some e ->
        (Event.group e, Event.name e) ∈ GetFtraceEvents P request tbl w)
  /\ (RequiresAtrace request = false ->
      (forall name,
          In name (FtraceConfig.ftrace_events request) ->
          contains_char "/" name = false /\ name <> "*"
          /\ GetEventByName P name tbl = None) ->
      GetFtraceEvents P request tbl w = ∅).
Proof.
  split; [|split].
  - intros group name Hgroup Hno Hname Hin.
    apply elem_of_GetFtraceEvents. left.
    exists (group ++ "/" ++ name)%string. split; [exact Hin|].
    now apply resolves_explicit.
  - intros name e Hno Hname Hin He.
    apply elem_of_GetFtraceEvents. left. exists name. split; [exact Hin|].
    apply resolves_bare; [assumption.. |]. now exists e.
  - intros Hreq Hunknown. apply set_eq. intros x.
    rewrite elem_of_GetFtraceEvents, Hreq. split.
    + intros [(v & Hv & Hres) | [Hbad _]]; [|discriminate Hbad].
      destruct (Hunknown v Hv) as (Hno & Hname & Hnone).
      apply resolves_bare in Hres as (e & He & _); [|assumption..].
      rewrite Hnone in He. discriminate He.
    + intros Hbad. now apply not_elem_of_empty in Hbad.
Qed.

(** X6. A wildcard [group/*] resolves to the events that procfs lists in
    [events/group/], each under that group; a request without atrace that
    holds this wildcard alone resolves to exactly those.  The test for the
    wildcard comes before the test for the missing group, so the specifier
    [*] alone is a wildcard on the empty group and not a bare name: it adds
    to the result of [GetFtraceEvents] what procfs lists in [events/], under
    the empty group, whatever the table knows by the name [*], and a request
    without atrace that holds [*] alone resolves to exactly that. *)
Theorem GetFtraceEvents_wildcard (request : FtraceConfig.t) (tbl : T)
    (w : W) (group : string) :
  contains_char "/" group = false ->
  (In (group ++ "/" ++ "*")%string (FtraceConfig.ftrace_events request) ->
   forall name,
     name ∈ GetEventNamesForGroup P ("events/" ++ group)%string w ->
     (group, name) ∈ GetFtraceEvents P request tbl w)
  /\ (RequiresAtrace request = false ->
      FtraceConfig.ftrace_events request = [(group ++ "/" ++ "*")%string] ->
      forall x,
        x ∈ GetFtraceEvents P request tbl w
        <-> fst x = group
            /\ snd x ∈ GetEventNamesForGroup P ("events/" ++ group)%string w)
  /\ (In "*" (FtraceConfig.ftrace_events request) ->
      forall name,
        name ∈ GetEventNamesForGroup P "events/" w ->
        ("", name) ∈ GetFtraceEvents P request tbl w)
  /\ (RequiresAtrace request = false ->
      FtraceConfig.ftrace_events request = ["*"] ->
      forall x,
        x ∈ GetFtraceEvents P request tbl w
        <-> fst x = "" /\ snd x ∈ GetEventNamesForGroup P "events/" w).
Proof.
  intros Hno.
  assert (Hstar : forall x,
            resolves P tbl w "*" x
            <-> fst x = "" /\ snd x ∈ GetEventNamesForGroup P "events/" w).
  { intros x. unfold resolves.
    rewrite (split_bare "*" eq_refl). cbn [fst snd].
    rewrite String.eqb_refl. reflexivity. }
  split; [|split; [|split]].
  - intros Hin name Hname. apply elem_of_GetFtraceEvents. left.
    exists (group ++ "/" ++ "*")%string. split; [exact Hin|].
    now apply resolves_wildcard.
  - intros Hreq Honly x. rewrite elem_of_GetFtraceEvents, Hreq, Honly.
    split.
    + intros [(v & [<- | []] & Hres) | [Hbad _]]; [|discriminate Hbad].
      now apply resolves_wildcard in Hres.
    + intros Hx. left. exists (group ++ "/" ++ "*")%string.
      split; [now left | now apply resolves_wildcard].
  - intros Hin name Hname. apply elem_of_GetFtraceEvents. left.
    exists "*". split; [exact Hin|]. apply Hstar. now split.
  - intros Hreq Honly x. rewrite elem_of_GetFtraceEvents, Hreq, Honly.
    split.
    + intros [(v & [<- | []] & Hres) | [Hbad _]]; [|discriminate Hbad].
      now apply Hstar.
    + intros Hx. left. exists "*". split; [now left | now apply Hstar].
Qed.

(** A category without a block in the chain inserts nothing. *)
Lemma category_insertions_unknown (category : string) :
  ~ In category known_categories -> category_insertions category = [].
Proof.
  intros Hunknown. unfold category_insertions.
  repeat (match goal with
          | |- context [String.eqb category ?c] =>
              destruct (String.eqb_spec category c) as [Heq | _];
              [exfalso; apply Hunknown; rewrite Heq;
               unfold known_categories; cbn [In];
               repeat (first [left; reflexivity | right])|]
          end).
  reflexivity.
Qed.

(** X7. Categories that have no block in [GetFtraceEvents] are ignored: when
    the request requires atrace and none of its categories has a block (it
    may have apps only), the resolved set is [ftrace/print] together with
    what the event specifiers resolve to. *)
Theorem GetFtraceEvents_unknown_categories (request : FtraceConfig.t)
    (tbl : T) (w : W) :
  RequiresAtrace request = true ->
  (forall category,
      In category (FtraceConfig.atrace_categories request) ->
      ~ In category known_categories) ->
  forall x,
    x ∈ GetFtraceEvents P request tbl w
    <-> x = ("ftrace", "print")
        \/ exists v, In v (FtraceConfig.ftrace_events request)
                     /\ resolves P tbl w v x.
Proof.
  intros Hreq Hunknown x. rewrite elem_of_GetFtraceEvents, Hreq. split.
  - intros [Hres | [_ [-> | (c & i & Hc & Hi & _)]]].
    + now right.
    + now left.
    + rewrite (category_insertions_unknown c (Hunknown c Hc)) in Hi.
      destruct Hi.
  - intros [-> | Hres]; [|now left].
    right. split; [reflexivity | now left].
Qed.

(** X19. A request that asks for more resolves to more: when every event
    specifier, every category and every app of a request is also in a second
    request, every event that the first resolves to is among those the
    second resolves to, on the same table and kernel. *)
Theorem GetFtraceEvents_monotone (r1 r2 : FtraceConfig.t) (tbl : T)
    (w : W) :
  (forall v, In v (FtraceConfig.ftrace_events r1) ->
             In v (FtraceConfig.ftrace_events r2)) ->
  (forall c, In c (FtraceConfig.atrace_categories r1) ->
             In c (FtraceConfig.atrace_categories r2)) ->
  (forall a, In a (FtraceConfig.atrace_apps r1) ->
             In a (FtraceConfig.atrace_apps r2)) ->
  GetFtraceEvents P r1 tbl w ⊆ GetFtraceEvents P r2 tbl w.
Proof.
  intros Hev Hcat Happ x. rewrite !elem_of_GetFtraceEvents.
  assert (Hreq : RequiresAtrace r1 = true -> RequiresAtrace r2 = true).
  { unfold RequiresAtrace. intros Hr1.
    apply orb_true_iff in Hr1. apply orb_true_iff.
    destruct Hr1 as [Hc | Ha]; [left | right];
      apply negb_true_iff, bool_decide_eq_false;
      apply negb_true_iff, bool_decide_eq_false in Hc || 
      apply negb_true_iff, bool_decide_eq_false in Ha.
    - destruct (FtraceConfig.atrace_categories r1) as [| c l];
        [contradiction|].
      intros Hnil. specialize (Hcat c (or_introl eq_refl)).
      now rewrite Hnil in Hcat.
    - destruct (FtraceConfig.atrace_apps r1) as [| a l]; [contradiction|].
      intros Hnil. specialize (Happ a (or_introl eq_refl)).
      now rewrite Hnil in Happ. }
  intros [(v & Hv & Hres) | [Hr1 Hrest]].
  - left. exists v. split; [now apply Hev | exact Hres].
  - right. split; [now apply Hreq|].
    destruct Hrest as [-> | (c & i & Hc & Hi & Hins)]; [now left|].
    right. exists c, i. split; [now apply Hcat|]. now split.
Qed.

End ResolverMore.

(** On the small platform: the same two specifiers in the other order, one
    of them twice. *)
Lemma GetFtraceEvents_order_independent_witness :
  GetFtraceEvents (Demo.platform false)
    (Demo.request ["sched/sched_switch"; "cpu_idle"] ["sched"] [])
    Demo.events Demo.kernel0
  = GetFtraceEvents (Demo.platform false)
      (Demo.request ["cpu_idle"; "sched/sched_switch"; "cpu_idle"]
         ["sched"; "sched"] [])
      Demo.events Demo.kernel0.
Proof.
  apply GetFtraceEvents_order_independent; cbn; intros; tauto.
Defined.

(** On the small platform: an explicit event that the table does not know
    stays, and an unknown bare name alone gives the empty set. *)
Lemma GetFtraceEvents_named_events_witness :
  ("vendor", "custom")
  ∈ GetFtraceEvents (Demo.platform false)
      (Demo.request [("vendor" ++ "/" ++ "custom")%string] [] [])
      Demo.events Demo.kernel0
  /\ GetFtraceEvents (Demo.platform false)
       (Demo.request ["no_such_event"] [] []) Demo.events Demo.kernel0
     = ∅.
Proof.
  split.
  - destruct (GetFtraceEvents_named_events (Demo.platform false)
                (Demo.request [("vendor" ++ "/" ++ "custom")%string] [] [])
                Demo.events Demo.kernel0) as (Hexplicit & _ & _).
    apply Hexplicit; try discriminate; [reflexivity | now left].
  - destruct (GetFtraceEvents_named_events (Demo.platform false)
                (Demo.request ["no_such_event"] [] [])
                Demo.events Demo.kernel0) as (_ & _ & Hunknown).
    apply Hunknown; [reflexivity|].
    intros name [<- | []]. split; [reflexivity|]. split; [discriminate|].
    reflexivity.
Defined.

(** The spec's second scenario: [power/*] on a kernel whose [events/power/]
    holds three events resolves to those three.  And [*] alone, on a kernel
    whose [events/] holds [header_page], resolves to that entry under the
    empty group, although the table knows no event of the name [*]. *)
Lemma GetFtraceEvents_wildcard_witness :
  ("power", "cpu_idle")
  ∈ GetFtraceEvents (Demo.platform false)
      (Demo.request [("power" ++ "/" ++ "*")%string] [] [])
      Demo.events power_kernel
  /\ (forall x,
        x ∈ GetFtraceEvents (Demo.platform false)
              (Demo.request [("power" ++ "/" ++ "*")%string] [] [])
              Demo.events power_kernel
        <-> fst x = "power"
            /\ snd x ∈ ({[ "cpu_idle"; "cpu_frequency"; "clock_set_rate" ]}
                        : gset string))
  /\ ("", "header_page")
     ∈ GetFtraceEvents (Demo.platform false) (Demo.request ["*"] [] [])
         Demo.events root_kernel
  /\ (forall x,
        x ∈ GetFtraceEvents (Demo.platform false) (Demo.request ["*"] [] [])
              Demo.events root_kernel
        <-> fst x = "" /\ snd x ∈ ({[ "header_page" ]} : gset string))
  /\ GetEventByName (Demo.platform false) "*" Demo.events = None.
Proof.
  destruct (GetFtraceEvents_wildcard (Demo.platform false)
              (Demo.request [("power" ++ "/" ++ "*")%string] [] [])
              Demo.events power_kernel "power" eq_refl) as (_ & Honly & _).
  destruct (GetFtraceEvents_wildcard (Demo.platform false)
              (Demo.request ["*"] [] [])
              Demo.events root_kernel "" eq_refl) as (_ & _ & _ & Hstar).
  split.
  { apply (Honly eq_refl eq_refl). split; [reflexivity|].
    apply elem_of_elements, list_elem_of_In. vm_compute.
    repeat (first [left; reflexivity | right]). }
  split; [exact (Honly eq_refl eq_refl)|].
  split.
  { apply (Hstar eq_refl eq_refl). split; [reflexivity|].
    apply elem_of_elements, list_elem_of_In. vm_compute.
    repeat (first [left; reflexivity | right]). }
  split; [exact (Hstar eq_refl eq_refl) | reflexivity].
Defined.

(** On the small platform: a request with an app and no category. *)
Lemma GetFtraceEvents_unknown_categories_witness :
  GetFtraceEvents (Demo.platform false)
    (Demo.request [] ["my_vendor_category"] ["com.example.app"])
    Demo.events Demo.kernel0
  = {[ ("ftrace", "print") ]}.
Proof.
  apply set_eq. intros x.
  rewrite (GetFtraceEvents_unknown_categories (Demo.platform false)
             (Demo.request [] ["my_vendor_category"] ["com.example.app"])
             Demo.events Demo.kernel0 eq_refl).
  - rewrite elem_of_singleton.
    split; [intros [-> | (v & [] & _)]; reflexivity | now left].
  - intros category [<- | []]. unfold known_categories. cbn [In].
    intros Hin. decompose [or] Hin; try discriminate; assumption.
Defined.

(** A request for one event and one category, and a request that adds an
    event, a category and an app. *)
Lemma GetFtraceEvents_monotone_witness :
  ("sched", "sched_switch")
  ∈ GetFtraceEvents (Demo.platform false)
      (Demo.request ["power/cpu_idle"; "sched/sched_switch"]
         ["gfx"; "sched"] ["com.example.app"])
      Demo.events Demo.kernel0.
Proof.
  apply (GetFtraceEvents_monotone (Demo.platform false)
           (Demo.request ["sched/sched_switch"] ["sched"] [])
           (Demo.request ["power/cpu_idle"; "sched/sched_switch"]
              ["gfx"; "sched"] ["com.example.app"])
           Demo.events Demo.kernel0).
  - cbn. tauto.
  - cbn. tauto.
  - cbn. tauto.
  - apply elem_of_elements, list_elem_of_In. vm_compute.
    repeat (first [left; reflexivity | right]).
Defined.

(** ** Setting up, activating and removing configurations *)

Section MuxerMore.

Context {W T : Type} (P : Platform W T).

Lemma performs_same (allowed : Call.t -> bool) (s s' : Run W T) :
  log s' = log s -> kernel s' = kernel s -> performs P allowed s s'.
Proof.
  intros Hlog Hker. exists []. cbn. rewrite app_nil_r.
  split; [intros c []|]. now split.
Qed.

Lemma performs_refl (allowed : Call.t -> bool) (s : Run W T) :
  performs P allowed s s.
Proof. now apply performs_same. Qed.

Lemma performs_trans (allowed : Call.t -> bool) (s1 s2 s3 : Run W T) :
  performs P allowed s1 s2 -> performs P allowed s2 s3 ->
  performs P allowed s1 s3.
Proof.
  intros (cs1 & Ha1 & Hl1 & Hk1) (cs2 & Ha2 & Hl2 & Hk2).
  exists (cs1 ++ cs2). split.
  - intros c Hin. apply in_app_or in Hin as [Hin | Hin]; auto.
  - rewrite (perform_all_app P). cbn [fst snd].
    rewrite Hl2, Hk2, Hl1, Hk1, app_assoc. now split.
Qed.

Lemma performs_weaken (a b : Call.t -> bool) (s s' : Run W T) :
  (forall c, a c = true -> b c = true) ->
  performs P a s s' -> performs P b s s'.
Proof.
  intros Hab (cs & Ha & Hl & Hk). exists cs. split; [|now split].
  intros c Hin. apply Hab, Ha, Hin.
Qed.

Lemma performs_call (allowed : Call.t -> bool) (c : Call.t)
    (s s' : Run W T) :
  allowed c = true ->
  log s' = log s ++ [(c, fst (perform P c (kernel s)))] ->
  kernel s' = snd (perform P c (kernel s)) ->
  performs P allowed s s'.
Proof.
  intros Hc Hlog Hker. exists [c]. split; [|now split].
  intros c' [<- | []]. exact Hc.
Qed.

Lemma performs_tracing (allowed : Call.t -> bool) (s s' : Run W T) :
  honours_tracing P ->
  (forall c, allowed c = true -> is_tracing_write c = false) ->
  performs P allowed s s' ->
  IsTracingEnabled P (kernel s') = IsTracingEnabled P (kernel s).
Proof.
  intros Hhon Hallowed (cs & Ha & _ & ->).
  apply perform_all_keeps_tracing; [exact Hhon|].
  intros c Hin. apply Hallowed, Ha, Hin.
Qed.

Lemma same_atrace_refl (st : FtraceState.t) : same_atrace st st.
Proof. now repeat split. Qed.

Lemma same_atrace_trans (st1 st2 st3 : FtraceState.t) :
  same_atrace st1 st2 -> same_atrace st2 st3 -> same_atrace st1 st3.
Proof.
  intros (A1 & A2 & A3) (B1 & B2 & B3). repeat split; congruence.
Qed.

Lemma setup_state_refl (request : FtraceConfig.t) (first : bool)
    (st : FtraceState.t) :
  setup_state request first st st.
Proof.
  split; [unfold events_grow; set_solver|].
  split; [intros _; apply same_atrace_refl|].
  split; [tauto|]. intros _. now split.
Qed.

Lemma setup_state_trans (request : FtraceConfig.t) (first : bool)
    (st1 st2 st3 : FtraceState.t) :
  setup_state request first st1 st2 -> setup_state request first st2 st3 ->
  setup_state request first st1 st3.
Proof.
  intros (E1 & A1 & C1 & B1) (E2 & A2 & C2 & B2).
  split; [unfold events_grow in *; set_solver|].
  split; [intros Hreq; eapply same_atrace_trans; eauto|].
  split; [tauto|].
  intros Hfirst. destruct (B1 Hfirst), (B2 Hfirst). split; congruence.
Qed.

Lemma setup_state_weaken (request : FtraceConfig.t) (first : bool)
    (st st' : FtraceState.t) :
  setup_state request false st st' -> setup_state request first st st'.
Proof.
  intros (E & A & C & B). split; [exact E|]. split; [exact A|].
  split; [exact C|]. intros _. now apply B.
Qed.

Lemma setup_step_refl (request : FtraceConfig.t) (first : bool)
    (s : Run W T) :
  setup_step P request first s s.
Proof.
  split; [apply keeps_registry_refl|].
  split; [apply performs_refl | apply setup_state_refl].
Qed.

Lemma setup_step_trans (request : FtraceConfig.t) (first : bool)
    (s1 s2 s3 : Run W T) :
  setup_step P request first s1 s2 -> setup_step P request first s2 s3 ->
  setup_step P request first s1 s3.
Proof.
  intros (K1 & P1 & S1) (K2 & P2 & S2).
  split; [eapply keeps_registry_trans; eassumption|].
  split; [eapply performs_trans; eassumption|].
  eapply setup_state_trans; eassumption.
Qed.

Lemma setup_step_weaken (request : FtraceConfig.t) (first : bool)
    (s s' : Run W T) :
  setup_step P request false s s' -> setup_step P request first s s'.
Proof.
  intros (K & Pf & S). split; [exact K|].
  split; [|now apply setup_state_weaken].
  eapply performs_weaken; [|exact Pf].
  intros [] Hc; cbn in *; try discriminate; try reflexivity; assumption.
Qed.

Lemma SetupClock_step (request : FtraceConfig.t) (s : Run W T) :
  exists s',
    SetupClock P request s = Some (tt, s')
    /\ setup_step P request true s s'
    /\ table s' = table s
    /\ FtraceState.cpu_buffer_size_pages (current_state_ (mux s'))
       = FtraceState.cpu_buffer_size_pages (current_state_ (mux s)).
Proof.
  unfold SetupClock, bind, get_kernel. rewrite (SetupClock_loop_spec P).
  cbv zeta.
  assert (Hstate : forall c st,
            setup_state request true st (FtraceState.set_ftrace_clock c st)).
  { intros c st. split; [unfold events_grow; cbn; set_solver|].
    split; [intros _; now repeat split|]. split; [tauto|].
    intros Hbad. discriminate Hbad. }
  destruct (find _ kClocks) as [c|]; [case_bool_decide|];
    (eexists; split; [reflexivity|]; cbn;
     split; [|now split]; split; [now repeat split|];
     split; [|apply Hstate]).
  - now apply performs_same.
  - eapply (performs_call _ (Call.SetClock _)); reflexivity.
  - now apply performs_same.
Qed.

Lemma SetupBufferSize_step (request : FtraceConfig.t) (s : Run W T) :
  exists s',
    SetupBufferSize P request s = Some (tt, s')
    /\ setup_step P request true s s'
    /\ table s' = table s
    /\ FtraceState.cpu_buffer_size_pages (current_state_ (mux s'))
       = ComputeCpuBufferSizeInPages (kPageSize P)
           (FtraceConfig.buffer_size_kb request).
Proof.
  unfold SetupBufferSize, bind, call, modify_state, bind, get_mux, put_mux.
  eexists. split; [reflexivity|]. cbn.
  split; [|now split]. split; [now repeat split|].
  split; [eapply (performs_call _ (Call.SetCpuBufferSizeInPages _));
          reflexivity|].
  split; [unfold events_grow; cbn; set_solver|].
  split; [intros _; now repeat split|]. split; [tauto|].
  intros Hbad. discriminate Hbad.
Qed.

Lemma UpdateAtrace_step (request : FtraceConfig.t) (s : Run W T) :
  RequiresAtrace request = true ->
  exists s',
    UpdateAtrace P request s = Some (tt, s')
    /\ setup_step P request false s s'
    /\ table s' = table s.
Proof.
  intros Hreq. rewrite (UpdateAtrace_run P). cbv zeta.
  assert (Hstate : forall st apps categories,
            setup_state request false st
              (atrace_updated st apps categories)).
  { intros st apps categories. split; [unfold events_grow; cbn; set_solver|].
    split; [rewrite Hreq; intros Hbad; discriminate Hbad|].
    split; [intros _ Hbad; discriminate Hbad|]. intros _. now split. }
  repeat match goal with
         | |- context [if ?b then _ else _] => destruct b eqn:?
         end;
    (eexists; split; [reflexivity|]; cbn; split; [|reflexivity];
     split; [now repeat split|]).
  - split; [apply performs_refl | apply setup_state_refl].
  - split; [|apply Hstate].
    match goal with
    | H : fst (perform P ?c _) = _ |- _ =>
        apply (performs_call _ c);
        [exact Hreq | cbn; now rewrite H | reflexivity]
    end.
  - split; [|apply setup_state_refl].
    match goal with
    | H : fst (perform P ?c _) = _ |- _ =>
        apply (performs_call _ c);
        [exact Hreq | cbn; now rewrite H | reflexivity]
    end.
Qed.

Lemma enable_event_step (request : FtraceConfig.t) (filter : EventFilter.t)
    (gn : GroupAndName) (s : Run W T) :
  exists filter' s',
    enable_event P filter gn s = Some (filter', s')
    /\ setup_step P request false s s'.
Proof.
  unfold enable_event, bind, get_or_create_event.
  destruct (fst (GetOrCreateEvent P gn (table s))) as [event|].
  2:{ eexists _, _. split; [reflexivity|]. cbn.
      split; [now repeat split|].
      split; [now apply performs_same | apply setup_state_refl]. }
  unfold get_mux. cbn [mux].
  destruct (EventFilter.IsEventEnabled _ _ || String.eqb _ _).
  { eexists _, _. split; [reflexivity|]. cbn.
    split; [now repeat split|].
    split; [now apply performs_same | apply setup_state_refl]. }
  unfold call. cbn [kernel mux table log].
  set (c := Call.EnableEvent (Event.group event) (Event.name event)).
  destruct (fst (perform P c (kernel s))) eqn:Hok.
  - eexists _, _. split; [reflexivity|]. cbn.
    split; [now repeat split|].
    split; [apply (performs_call _ c); [reflexivity| cbn; now rewrite Hok
                                        | reflexivity]|].
    split; [unfold events_grow, EventFilter.AddEnabledEvent; cbn;
            set_solver|].
    split; [intros _; now repeat split|]. split; [tauto|].
    intros _. now split.
  - eexists _, _. split; [reflexivity|]. cbn.
    split; [now repeat split|].
    split; [|apply setup_state_refl].
    apply (performs_call _ c); [reflexivity| cbn; now rewrite Hok
                                | reflexivity].
Qed.

Lemma fold_each_step {A B : Type} (request : FtraceConfig.t)
    (body : B -> A -> M W T B) :
  (forall b x s, exists b' s',
      body b x s = Some (b', s') /\ setup_step P request false s s') ->
  forall l b s, exists b' s',
    fold_each l body b s = Some (b', s') /\ setup_step P request false s s'.
Proof.
  intros Hbody. induction l as [| x l IH]; intros b s; cbn [fold_each].
  - exists b, s. split; [reflexivity | apply setup_step_refl].
  - unfold bind. destruct (Hbody b x s) as (b1 & s1 & -> & Hk1).
    destruct (IH b1 s1) as (b2 & s2 & -> & Hk2).
    exists b2, s2. split; [reflexivity|].
    eapply setup_step_trans; eassumption.
Qed.

Lemma SetupConfig_events_sound (request : FtraceConfig.t) (s : Run W T) :
  exists id s',
    SetupConfig_events P request s = Some (id, s')
    /\ (id = 0%N -> ds_configs_ (mux s) <> ∅ /\ s' = s)
    /\ active_configs_ (mux s') = active_configs_ (mux s)
    /\ vendor_events_ (mux s') = vendor_events_ (mux s)
    /\ performs P (setup_call request false) s s'
    /\ setup_state request false (current_state_ (mux s))
         (current_state_ (mux s'))
    /\ (id <> 0%N -> stores P request id s s').
Proof.
  unfold SetupConfig_events.
  unfold bind at 1. unfold get_table at 1.
  unfold bind at 1. unfold get_kernel at 1.
  unfold bind at 1. unfold get_mux at 1.
  destruct (RequiresAtrace request
            && (IsOldAtrace P
                && negb (bool_decide (ds_configs_ (mux s) = ∅)))) eqn:Hc.
  - exists 0%N, s. split; [reflexivity|].
    apply andb_prop in Hc as [Hreq Hc]. apply andb_prop in Hc as [Hold Hne].
    apply negb_true_iff, bool_decide_eq_false in Hne.
    split; [now split|]. split; [reflexivity|]. split; [reflexivity|].
    split; [apply performs_refl|]. split; [apply setup_state_refl|].
    intros Hbad. now contradiction Hbad.
  - unfold bind at 1.
    assert (Hupd : exists s1,
              (if RequiresAtrace request then UpdateAtrace P request
               else ret tt) s = Some (tt, s1)
              /\ setup_step P request false s s1).
    { destruct (RequiresAtrace request) eqn:Hreq.
      - destruct (UpdateAtrace_step request s Hreq) as (s1 & H1 & Hs1 & _).
        now exists s1.
      - exists s. split; [reflexivity | apply setup_step_refl]. }
    destruct Hupd as (s1 & -> & Hk1).
    unfold bind at 1.
    destruct (fold_each_step request (enable_event P)
                (enable_event_step request)
                (ordered gn_le
                   (fold_left (add_vendor_events (vendor_events_ (mux s)))
                      (FtraceConfig.atrace_categories request)
                      (GetFtraceEvents P request (table s) (kernel s))))
                EventFilter.empty s1) as (filter & s2 & -> & Hk2).
    unfold bind, get_table, get_mux, put_mux, ret.
    eexists _, _. split; [reflexivity|].
    destruct (setup_step_trans _ _ _ _ _ Hk1 Hk2)
      as ((Hds & Hact & Hid & Hven) & Hperf & Hstate).
    cbn [mux kernel table log ds_configs_ active_configs_ last_id_
           vendor_events_ current_state_ set_ds_configs_ set_last_id_].
    split; [lia|]. split; [exact Hact|]. split; [exact Hven|].
    split.
    { destruct Hperf as (cs & Ha & Hl & Hk). exists cs. now repeat split. }
    split; [exact Hstate|].
    intros _. split; [now rewrite Hid|]. split; [reflexivity|].
    exists filter. now rewrite Hds, Hid.
Qed.

Lemma SetupConfig_sound (request : FtraceConfig.t) (s : Run W T) :
  let first := bool_decide (ds_configs_ (mux s) = ∅) in
  exists id s',
    SetupConfig P request s = Some (id, s')
    /\ (id = 0%N -> s' = s)
    /\ active_configs_ (mux s') = active_configs_ (mux s)
    /\ vendor_events_ (mux s') = vendor_events_ (mux s)
    /\ performs P (setup_call request first) s s'
    /\ setup_state request first (current_state_ (mux s))
         (current_state_ (mux s'))
    /\ (id <> 0%N -> stores P request id s s')
    /\ (id <> 0%N -> first = true ->
        FtraceState.cpu_buffer_size_pages (current_state_ (mux s'))
        = ComputeCpuBufferSizeInPages (kPageSize P)
            (FtraceConfig.buffer_size_kb request)).
Proof.
  intros first.
  assert (Hrefused : exists id s',
            @ret W T N 0%N s = Some (id, s')
            /\ (id = 0%N -> s' = s)
            /\ active_configs_ (mux s') = active_configs_ (mux s)
            /\ vendor_events_ (mux s') = vendor_events_ (mux s)
            /\ performs P (setup_call request first) s s'
            /\ setup_state request first (current_state_ (mux s))
                 (current_state_ (mux s'))
            /\ (id <> 0%N -> stores P request id s s')
            /\ (id <> 0%N -> first = true ->
                FtraceState.cpu_buffer_size_pages (current_state_ (mux s'))
                = ComputeCpuBufferSizeInPages (kPageSize P)
                    (FtraceConfig.buffer_size_kb request))).
  { exists 0%N, s. split; [reflexivity|]. split; [reflexivity|].
    split; [reflexivity|]. split; [reflexivity|].
    split; [apply performs_refl|]. split; [apply setup_state_refl|].
    split; intros Hbad; now contradiction Hbad. }
  unfold SetupConfig.
  unfold bind at 1. unfold get_kernel at 1.
  unfold bind at 1. unfold get_mux at 1. fold first.
  destruct first eqn:Hfirst.
  - destruct (IsTracingEnabled P (kernel s) && negb (IsOldAtrace P));
      [exact Hrefused|].
    unfold bind at 1.
    destruct (SetupClock_step request s)
      as (s1 & -> & (K1 & P1 & S1) & _ & Hcpu1).
    unfold bind at 1.
    destruct (SetupBufferSize_step request s1)
      as (s2 & -> & (K2 & P2 & S2) & _ & Hcpu2).
    destruct (SetupConfig_events_sound request s2)
      as (id & s3 & -> & Hzero & Hact & Hven & P3 & S3 & Hstores).
    pose proof (keeps_registry_trans _ _ _ K1 K2)
      as (Hds2 & Hact2 & Hid2 & Hven2).
    exists id, s3. split; [reflexivity|].
    apply bool_decide_eq_true in Hfirst.
    assert (Hnz : id <> 0%N).
    { intros Hz. destruct (Hzero Hz) as [Hne _]. apply Hne. congruence. }
    split; [intros Hz; contradiction|].
    split; [congruence|]. split; [congruence|].
    split.
    { eapply performs_trans; [eapply performs_trans; eassumption|].
      eapply performs_weaken; [|exact P3].
      intros [] Hc; cbn in *; try discriminate; try reflexivity;
        assumption. }
    split.
    { eapply setup_state_trans;
        [eapply setup_state_trans; eassumption|].
      now apply setup_state_weaken. }
    split.
    { intros _. destruct (Hstores Hnz) as (Hi & Hl & filter & Hd).
      split; [congruence|]. split; [exact Hl|].
      exists filter. now rewrite Hd, Hds2. }
    intros _ _. destruct S3 as (_ & _ & _ & Hsame).
    destruct (Hsame eq_refl) as [Hcpu3 _]. now rewrite Hcpu3.
  - destruct (negb (bool_decide (active_configs_ (mux s) = ∅))
              && negb (IsTracingEnabled P (kernel s))
              && negb (IsOldAtrace P)); [exact Hrefused|].
    destruct (SetupConfig_events_sound request s)
      as (id & s1 & -> & Hzero & Hact & Hven & P1 & S1 & Hstores).
    exists id, s1. split; [reflexivity|].
    split; [intros Hz; now destruct (Hzero Hz)|].
    split; [exact Hact|]. split; [exact Hven|].
    split; [exact P1|]. split; [exact S1|]. split; [exact Hstores|].
    intros _ Hbad. discriminate Hbad.
Qed.

Lemma GetDataSourceConfig_lookup (m : Muxer) (id : N) :
  GetDataSourceConfig m id = ds_configs_ m !! id.
Proof.
  unfold GetDataSourceConfig. destruct (ds_configs_ m !! id) eqn:Hid.
  - now rewrite bool_decide_eq_true_2 by (now eexists).
  - rewrite bool_decide_eq_false_2; [reflexivity|]. now intros [x Hx].
Qed.

Lemma muxer_invariant_initial (vendor_events : gmap string (list GroupAndName)) :
  muxer_invariant (FtraceConfigMuxer vendor_events).
Proof.
  split; [|split].
  - intros id [x Hx]. cbn in Hx. now rewrite lookup_empty in Hx.
  - intros id Hin. cbn in Hin. now apply not_elem_of_empty in Hin.
  - intros _. now split.
Qed.

(** X8. In a muxer whose registered ids are at most [last_id_],
    [SetupConfig] returns, and when it returns an id other than 0 that id is
    [last_id_ + 1], it was not registered before, it is the new [last_id_],
    [GetDataSourceConfig] now gives for it a record with the apps, the
    categories and the symbolizer flag of the request and with the compact
    scheduler configuration that the table gives, the records of all other
    ids and the active set are as before, and the registered ids are still
    at most [last_id_]. *)
Theorem SetupConfig_registers (request : FtraceConfig.t) (s : Run W T) :
  registry_in_range (mux s) ->
  exists id s',
    SetupConfig P request s = Some (id, s')
    /\ (id <> 0%N ->
        id = (last_id_ (mux s) + 1)%N
        /\ last_id_ (mux s') = id
        /\ GetDataSourceConfig (mux s) id = None
        /\ (exists config,
              GetDataSourceConfig (mux s') id = Some config
              /\ FtraceDataSourceConfig.atrace_apps config
                 = FtraceConfig.atrace_apps request
              /\ FtraceDataSourceConfig.atrace_categories config
                 = FtraceConfig.atrace_categories request
              /\ FtraceDataSourceConfig.symbolize_ksyms config
                 = FtraceConfig.symbolize_ksyms request
              /\ FtraceDataSourceConfig.compact_sched config
                 = CreateCompactSchedConfig P request (table s'))
        /\ (forall other,
              other <> id ->
              GetDataSourceConfig (mux s') other
              = GetDataSourceConfig (mux s) other)
        /\ active_configs_ (mux s') = active_configs_ (mux s)
        /\ registry_in_range (mux s')).
Proof.
  intros Hrange.
  destruct (SetupConfig_sound request s)
    as (id & s' & Hrun & _ & Hact & _ & _ & _ & Hstores & _).
  exists id, s'. split; [exact Hrun|]. intros Hnz.
  destruct (Hstores Hnz) as (Hid & Hlast & filter & Hds).
  assert (Hfresh : ds_configs_ (mux s) !! id = None).
  { destruct (ds_configs_ (mux s) !! id) eqn:Hlook; [|reflexivity].
    destruct (Hrange id) as [_ Hle]; [rewrite Hlook; now eexists | lia]. }
  unfold emplace in Hds. rewrite Hfresh in Hds.
  rewrite !GetDataSourceConfig_lookup.
  split; [exact Hid|]. split; [exact Hlast|]. split; [exact Hfresh|].
  split.
  { eexists. rewrite Hds, lookup_insert_eq. split; [reflexivity|].
    now repeat split. }
  split.
  { intros other Hother. rewrite !GetDataSourceConfig_lookup, Hds.
    now rewrite lookup_insert_ne by congruence. }
  split; [exact Hact|].
  intros other Hsome. rewrite Hds in Hsome. rewrite Hlast.
  destruct (decide (other = id)) as [-> | Hne]; [lia|].
  rewrite lookup_insert_ne in Hsome by congruence.
  apply Hrange in Hsome. lia.
Qed.

(** X9. [SetupConfig] returns, and between its start and its end the kernel
    saw only the calls of the log, each of them allowed by [setup_call]: an
    event enabled; a launch of atrace, and only for a request that requires
    atrace; a write of the clock or of the buffer size, and only when the
    registry was empty.  It never writes [tracing_on], never disables an
    event and never clears the trace; on a kernel where only the writes of
    [tracing_on] move it, tracing is on after [SetupConfig] exactly when it
    was before. *)
Theorem SetupConfig_calls (request : FtraceConfig.t) (s : Run W T) :
  exists id s',
    SetupConfig P request s = Some (id, s')
    /\ performs P
         (setup_call request (bool_decide (ds_configs_ (mux s) = ∅))) s s'
    /\ (forall entry,
          In entry (log s') -> In entry (log s)
          \/ (is_tracing_write (fst entry) = false
              /\ is_DisableEvent (fst entry) = false
              /\ fst entry <> Call.DisableAllEvents
              /\ fst entry <> Call.ClearTrace))
    /\ (honours_tracing P ->
        IsTracingEnabled P (kernel s') = IsTracingEnabled P (kernel s)).
Proof.
  destruct (SetupConfig_sound request s)
    as (id & s' & Hrun & _ & _ & _ & Hperf & _).
  exists id, s'. split; [exact Hrun|]. split; [exact Hperf|].
  split.
  - destruct Hperf as (cs & Ha & Hlog & _). intros [c ok] Hin.
    rewrite Hlog in Hin. apply in_app_or in Hin as [Hin | Hin];
      [now left | right].
    assert (Hc : In c cs).
    { rewrite <- (perform_all_calls P cs (kernel s)).
      now apply (in_map fst) in Hin. }
    apply Ha in Hc. cbn [fst].
    destruct c; cbn in Hc |- *; try discriminate Hc;
      now repeat split.
  - intros Hhon. eapply performs_tracing; [exact Hhon| |exact Hperf].
    intros [] Hc; cbn in *; try discriminate; reflexivity.
Qed.

(** X10. [SetupConfig] returns, and in [current_state_] it only adds
    events.  A request that does not require atrace leaves what was told to
    atrace.  The buffer size of the request counts only when the registry is
    empty: when such a request is accepted, [GetPerCpuBufferSizePages] is
    afterwards what [ComputeCpuBufferSizeInPages] gives for it, whether the
    write succeeded or not; when the registry is not empty the buffer size
    and the clock stay as they are. *)
Theorem SetupConfig_state (request : FtraceConfig.t) (s : Run W T) :
  exists id s',
    SetupConfig P request s = Some (id, s')
    /\ FtraceState.ftrace_events (current_state_ (mux s))
       ⊆ FtraceState.ftrace_events (current_state_ (mux s'))
    /\ (RequiresAtrace request = false ->
        same_atrace (current_state_ (mux s)) (current_state_ (mux s')))
    /\ (ds_configs_ (mux s) = ∅ -> id <> 0%N ->
        GetPerCpuBufferSizePages (mux s')
        = ComputeCpuBufferSizeInPages (kPageSize P)
            (FtraceConfig.buffer_size_kb request))
    /\ (ds_configs_ (mux s) <> ∅ ->
        GetPerCpuBufferSizePages (mux s') = GetPerCpuBufferSizePages (mux s)
        /\ FtraceState.ftrace_clock (current_state_ (mux s'))
           = FtraceState.ftrace_clock (current_state_ (mux s))).
Proof.
  destruct (SetupConfig_sound request s)
    as (id & s' & Hrun & _ & _ & _ & _ & (Hev & Hatr & _ & Hsame) & _ & Hcpu).
  exists id, s'. split; [exact Hrun|]. split; [exact Hev|].
  split; [exact Hatr|]. split.
  - intros Hempty Hnz. apply Hcpu; [exact Hnz|].
    now apply bool_decide_eq_true.
  - intros Hne. apply Hsame. now apply bool_decide_eq_false.
Qed.

Lemma ActivateConfig_again (id : N) (s : Run W T) (k : W)
    (l : list (Call.t * bool)) :
  (id =? 0)%N = false ->
  is_Some (ds_configs_ (mux s) !! id) ->
  let s' :=
    mkRun (set_active_configs_ ({[ id ]} ∪ active_configs_ (mux s)) (mux s))
      k (table s) l in
  ActivateConfig P id s' = Some (true, s').
Proof.
  intros Hnz Hsome s'. unfold ActivateConfig, bind, get_mux.
  subst s'. cbn [mux kernel table log ds_configs_ active_configs_
                   set_active_configs_].
  rewrite Hnz, (bool_decide_eq_true_2 _ Hsome). cbn [orb negb].
  unfold get_kernel.
  rewrite bool_decide_eq_false_2
    by (intros Hempty; apply (not_elem_of_empty (C := gset N) id);
        rewrite <- Hempty; apply elem_of_union_l, elem_of_singleton;
        reflexivity).
  unfold put_mux, ret. cbn. do 3 f_equal.
  unfold set_active_configs_. cbn. f_equal.
  apply set_eq. intros x. rewrite !elem_of_union. tauto.
Qed.

(** X11. [ActivateConfig] returns.  It writes [tracing_on = 1], once, only
    for a registered id other than 0 while no configuration is active and
    unless tracing is already on with the new atrace; its result is then the
    result of that write.  It writes nothing else, and without that write its
    result says whether the id is registered and some configuration is
    active.  On [true] the id has joined the active set and nothing else of
    the muxer has changed; on [false] the muxer is as it was.  Activating
    the same id again is then accepted without any write and changes
    nothing. *)
Theorem ActivateConfig_spec (id : N) (s : Run W T) :
  let m := mux s in
  let known :=
    negb (id =? 0)%N && bool_decide (is_Some (ds_configs_ m !! id)) in
  let first := bool_decide (active_configs_ m = ∅) in
  let writes :=
    known && first
    && negb (IsTracingEnabled P (kernel s) && negb (IsOldAtrace P)) in
  let r := perform P Call.EnableTracing (kernel s) in
  exists ok s',
    ActivateConfig P id s = Some (ok, s')
    /\ table s' = table s
    /\ (writes = true ->
        log s' = log s ++ [(Call.EnableTracing, fst r)]
        /\ kernel s' = snd r /\ ok = fst r)
    /\ (writes = false ->
        log s' = log s /\ kernel s' = kernel s
        /\ ok = known && negb first)
    /\ (ok = true ->
        mux s' = set_active_configs_ ({[ id ]} ∪ active_configs_ m) m
        /\ ActivateConfig P id s' = Some (true, s'))
    /\ (ok = false -> mux s' = m).
Proof.
  intros m known first writes r. subst writes known first r m.
  unfold ActivateConfig at 1. unfold bind, get_mux.
  destruct (id =? 0)%N eqn:Hnz; cbn [orb negb andb].
  { exists false, s. split; [reflexivity|]. split; [reflexivity|].
    split; [intros Hbad; discriminate Hbad|].
    split; [now intros _|].
    split; [intros Hbad; discriminate Hbad | reflexivity]. }
  destruct (decide (is_Some (ds_configs_ (mux s) !! id))) as [Hsome | Hnone].
  2:{ rewrite (bool_decide_eq_false_2 _ Hnone). cbn [orb negb andb].
      exists false, s. split; [reflexivity|]. split; [reflexivity|].
      split; [intros Hbad; discriminate Hbad|].
      split; [now intros _|].
      split; [intros Hbad; discriminate Hbad | reflexivity]. }
  rewrite (bool_decide_eq_true_2 _ Hsome). cbn [orb negb andb].
  unfold get_kernel.
  destruct (bool_decide (active_configs_ (mux s) = ∅)); cbn [negb andb].
  - destruct (IsTracingEnabled P (kernel s) && negb (IsOldAtrace P));
      cbn [negb].
    { exists false, s. split; [reflexivity|]. split; [reflexivity|].
      split; [intros Hbad; discriminate Hbad|].
      split; [now intros _|].
      split; [intros Hbad; discriminate Hbad | reflexivity]. }
    unfold call. cbn [kernel mux table log].
    destruct (fst (perform P Call.EnableTracing (kernel s))) eqn:Hok;
      cbn [negb].
    + eexists true, _. split; [reflexivity|]. cbn [mux kernel table log].
      split; [reflexivity|].
      split; [intros _; now repeat split|].
      split; [intros Hbad; discriminate Hbad|].
      split; [|intros Hbad; discriminate Hbad].
      intros _. split; [reflexivity|]. now apply ActivateConfig_again.
    + eexists false, _. split; [reflexivity|]. cbn [mux kernel table log].
      split; [reflexivity|].
      split; [intros _; now repeat split|].
      split; [intros Hbad; discriminate Hbad|].
      split; [intros Hbad; discriminate Hbad | reflexivity].
  - eexists true, _. split; [reflexivity|]. cbn [mux kernel table log].
    split; [reflexivity|].
    split; [intros Hbad; discriminate Hbad|].
    split; [now intros _|].
    split; [|intros Hbad; discriminate Hbad].
    intros _. split; [reflexivity|]. now apply ActivateConfig_again.
Qed.

(** *** The filter of a new configuration *)

Lemma SetupClock_events (request : FtraceConfig.t) (s s' : Run W T) :
  SetupClock P request s = Some (tt, s') ->
  FtraceState.ftrace_events (current_state_ (mux s'))
  = FtraceState.ftrace_events (current_state_ (mux s)).
Proof.
  unfold SetupClock, bind, get_kernel. rewrite (SetupClock_loop_spec P).
  cbv zeta.
  destruct (find _ kClocks) as [c|]; [case_bool_decide|];
    intros Hrun; injection Hrun as <-; reflexivity.
Qed.

Lemma SetupBufferSize_events (request : FtraceConfig.t) (s s' : Run W T) :
  SetupBufferSize P request s = Some (tt, s') ->
  FtraceState.ftrace_events (current_state_ (mux s'))
  = FtraceState.ftrace_events (current_state_ (mux s)).
Proof.
  unfold SetupBufferSize, bind, call, modify_state, bind, get_mux, put_mux.
  intros Hrun. injection Hrun as <-. reflexivity.
Qed.

Lemma UpdateAtrace_events (request : FtraceConfig.t) (s s' : Run W T) :
  UpdateAtrace P request s = Some (tt, s') ->
  FtraceState.ftrace_events (current_state_ (mux s'))
  = FtraceState.ftrace_events (current_state_ (mux s)).
Proof.
  rewrite (UpdateAtrace_run P). cbv zeta.
  repeat match goal with
         | |- context [if ?b then _ else _] => destruct b
         end;
    intros Hrun; injection Hrun as <-; reflexivity.
Qed.

Lemma performs_good (good : W -> Prop) (allowed : Call.t -> bool)
    (s s' : Run W T) :
  (forall c w, good w -> good (snd (perform P c w))) ->
  performs P allowed s s' -> good (kernel s) -> good (kernel s').
Proof.
  intros Hkeep (cs & _ & _ & ->). generalize (kernel s).
  induction cs as [| c cs IH]; intros w Hw; [exact Hw|].
  cbn [perform_all snd]. apply IH, Hkeep, Hw.
Qed.

Lemma performs_names (allowed : Call.t -> bool) (s s' : Run W T)
    (path : string) :
  (forall path c w,
      GetEventNamesForGroup P path (snd (perform P c w))
      = GetEventNamesForGroup P path w) ->
  performs P allowed s s' ->
  GetEventNamesForGroup P path (kernel s')
  = GetEventNamesForGroup P path (kernel s).
Proof.
  intros Hnames (cs & _ & _ & ->). generalize (kernel s).
  induction cs as [| c cs IH]; intros w; [reflexivity|].
  cbn [perform_all snd]. now rewrite IH.
Qed.

(** [GetFtraceEvents] reads the kernel only for the events that procfs
    lists. *)
Lemma GetFtraceEvents_names_only (request : FtraceConfig.t) (tbl : T)
    (w w' : W) :
  (forall path,
      GetEventNamesForGroup P path w' = GetEventNamesForGroup P path w) ->
  GetFtraceEvents P request tbl w' = GetFtraceEvents P request tbl w.
Proof.
  intros Hnames. apply set_eq. intros x.
  rewrite !(elem_of_GetFtraceEvents P).
  assert (Hres : forall v, resolves P tbl w' v x <-> resolves P tbl w v x).
  { intros v. unfold resolves. now rewrite Hnames. }
  split; (intros [(v & Hv & Hr) | Hrest]; [left | now right]);
    exists v; (split; [exact Hv|]); now apply Hres.
Qed.

Lemma table_id_cons (tbl : T) (gn : GroupAndName)
    (events : list GroupAndName) (wanted : Event.t -> bool) (e : N) :
  table_id P tbl (gn :: events) wanted e
  <-> table_id P tbl [gn] wanted e \/ table_id P tbl events wanted e.
Proof.
  unfold table_id. split.
  - intros (gn' & event & [<- | Hin] & Hrest).
    + left. exists gn, event. split; [now left | exact Hrest].
    + right. now exists gn', event.
  - intros [(gn' & event & [<- | []] & Hrest) | (gn' & event & Hin & Hrest)].
    + exists gn, event. split; [now left | exact Hrest].
    + exists gn', event. split; [now right | exact Hrest].
Qed.

Lemma table_id_same_answers (tbl tbl0 : T) (events : list GroupAndName)
    (wanted : Event.t -> bool) (e : N) :
  same_answers P tbl tbl0 ->
  table_id P tbl events wanted e <-> table_id P tbl0 events wanted e.
Proof.
  intros Hsame. unfold table_id.
  split; intros (gn & event & Hin & Hget & Hrest); exists gn, event.
  - split; [exact Hin|]. split; [|exact Hrest].
    rewrite <- Hsame. exact Hget.
  - split; [exact Hin|]. split; [|exact Hrest].
    rewrite Hsame. exact Hget.
Qed.

(** One turn of the loop of [SetupConfig] on a kernel that accepts it. *)
Lemma enable_event_exact (good : W -> Prop) (filter : EventFilter.t)
    (gn : GroupAndName) (s : Run W T) :
  accepts_events P good -> good (kernel s) ->
  exists filter' s',
    enable_event P filter gn s = Some (filter', s')
    /\ table s' = snd (GetOrCreateEvent P gn (table s))
    /\ good (kernel s')
    /\ (forall e,
          e ∈ filter'
          <-> e ∈ filter \/ table_id P (table s) [gn] (fun _ => true) e)
    /\ (forall e,
          e ∈ FtraceState.ftrace_events (current_state_ (mux s'))
          <-> e ∈ FtraceState.ftrace_events (current_state_ (mux s))
              \/ table_id P (table s) [gn] tracked e).
Proof.
  intros (_ & Hkeep & Henable & _) Hgood.
  unfold enable_event, bind, get_or_create_event.
  assert (Hone : forall wanted e,
            table_id P (table s) [gn] wanted e
            <-> exists event,
                  fst (GetOrCreateEvent P gn (table s)) = Some event
                  /\ wanted event = true
                  /\ Event.ftrace_event_id event = e).
  { intros wanted e. unfold table_id. split.
    - intros (gn' & event & [<- | []] & Hrest). now exists event.
    - intros (event & Hrest). exists gn, event. split; [now left|].
      exact Hrest. }
  destruct (fst (GetOrCreateEvent P gn (table s))) as [event|] eqn:Hget.
  2:{ eexists _, _. split; [reflexivity|]. cbn [table kernel mux].
      split; [reflexivity|]. split; [exact Hgood|].
      split; intros e; rewrite Hone; (split; [now left|]);
        (intros [He | (event & Hbad & _)];
         [exact He | discriminate Hbad]). }
  unfold get_mux. cbn [mux].
  destruct (EventFilter.IsEventEnabled (Event.ftrace_event_id event)
              (FtraceState.ftrace_events (current_state_ (mux s))))
    eqn:Henabled; cbn [orb].
  { eexists _, _. split; [reflexivity|]. cbn [table kernel mux].
    split; [reflexivity|]. split; [exact Hgood|].
    apply bool_decide_eq_true in Henabled.
    split; intros e; rewrite Hone.
    - unfold EventFilter.AddEnabledEvent.
      rewrite elem_of_union, elem_of_singleton. split.
      + intros [-> | He]; [right | now left]. now exists event.
      + intros [He | (event' & Heq & _ & <-)]; [now right | left].
        congruence.
    - split; [now left|].
      intros [He | (event' & Heq & _ & <-)]; [exact He|].
      injection Heq as <-. exact Henabled. }
  destruct (String.eqb "ftrace" (Event.group event)) eqn:Hftrace.
  { eexists _, _. split; [reflexivity|]. cbn [table kernel mux].
    split; [reflexivity|]. split; [exact Hgood|].
    split; intros e; rewrite Hone.
    - unfold EventFilter.AddEnabledEvent.
      rewrite elem_of_union, elem_of_singleton. split.
      + intros [-> | He]; [right | now left]. now exists event.
      + intros [He | (event' & Heq & _ & <-)]; [now right | left].
        congruence.
    - split; [now left|].
      intros [He | (event' & Heq & Htracked & _)]; [exact He|].
      injection Heq as <-. unfold tracked in Htracked.
      rewrite Hftrace in Htracked. discriminate Htracked. }
  unfold call. cbn [kernel mux table log].
  rewrite (Henable _ _ _ Hgood).
  unfold modify_state, bind, get_mux, put_mux, ret.
  eexists _, _. split; [reflexivity|].
  cbn [table kernel mux current_state_ set_current_state_
         FtraceState.ftrace_events FtraceState.set_ftrace_events].
  split; [reflexivity|]. split; [now apply Hkeep|].
  split; intros e; rewrite Hone; unfold EventFilter.AddEnabledEvent;
    rewrite elem_of_union, elem_of_singleton; split.
  - intros [-> | He]; [right | now left]. now exists event.
  - intros [He | (event' & Heq & _ & <-)]; [now right | left]. congruence.
  - intros [-> | He]; [right | now left]. exists event.
    split; [reflexivity|]. split; [|reflexivity].
    unfold tracked. now rewrite Hftrace.
  - intros [He | (event' & Heq & _ & <-)]; [now right | left]. congruence.
Qed.

Lemma enable_event_keeps_rest (filter : EventFilter.t) (gn : GroupAndName)
    (s : Run W T) (filter' : EventFilter.t) (s' : Run W T) :
  enable_event P filter gn s = Some (filter', s') ->
  keeps_registry s s'.
Proof.
  intros Hrun. destruct (enable_event_keeps P filter gn s)
    as (f1 & s1 & Hrun1 & Hkeep).
  rewrite Hrun in Hrun1. now injection Hrun1 as <- <-.
Qed.

(** The loop of [SetupConfig] on a kernel that accepts it. *)
Lemma enable_loop_exact (good : W -> Prop) (tbl0 : T)
    (events : list GroupAndName) :
  accepts_events P good ->
  forall (filter : EventFilter.t) (s : Run W T),
    same_answers P (table s) tbl0 -> good (kernel s) ->
    exists filter' s',
      fold_each events (enable_event P) filter s = Some (filter', s')
      /\ keeps_registry s s'
      /\ (forall e,
            e ∈ filter'
            <-> e ∈ filter \/ table_id P tbl0 events (fun _ => true) e)
      /\ (forall e,
            e ∈ FtraceState.ftrace_events (current_state_ (mux s'))
            <-> e ∈ FtraceState.ftrace_events (current_state_ (mux s))
                \/ table_id P tbl0 events tracked e).
Proof.
  intros Hacc. induction events as [| gn events IH]; intros filter s Hsame Hgood.
  - exists filter, s. split; [reflexivity|].
    split; [apply keeps_registry_refl|].
    split; intros e; (split; [now left|]);
      intros [He | (gn & event & [] & _)]; exact He.
  - cbn [fold_each]. unfold bind.
    destruct (enable_event_exact good filter gn s Hacc Hgood)
      as (f1 & s1 & Hrun1 & Htbl1 & Hgood1 & Hf1 & Hg1).
    rewrite Hrun1.
    assert (Hsame1 : same_answers P (table s1) tbl0).
    { intros gn'. rewrite Htbl1. destruct Hacc as (Hstable & _).
      rewrite Hstable. apply Hsame. }
    destruct (IH f1 s1 Hsame1 Hgood1) as (f2 & s2 & Hrun2 & Hk2 & Hf2 & Hg2).
    exists f2, s2. split; [exact Hrun2|].
    split.
    { eapply keeps_registry_trans;
        [eapply enable_event_keeps_rest; exact Hrun1 | exact Hk2]. }
    split; intros e.
    + rewrite Hf2, Hf1, (table_id_cons tbl0 gn events),
        (table_id_same_answers (table s) tbl0 [gn] _ e Hsame). tauto.
    + rewrite Hg2, Hg1, (table_id_cons tbl0 gn events),
        (table_id_same_answers (table s) tbl0 [gn] _ e Hsame). tauto.
Qed.

Lemma SetupConfig_events_exact (good : W -> Prop)
    (request : FtraceConfig.t) (s : Run W T) :
  accepts_events P good -> good (kernel s) ->
  let events := requested_events P (mux s) request (table s) (kernel s) in
  exists id s',
    SetupConfig_events P request s = Some (id, s')
    /\ (id <> 0%N ->
        exists filter,
          ds_configs_ (mux s')
          = emplace id
              (FtraceDataSourceConfig.mk filter
                 (CreateCompactSchedConfig P request (table s'))
                 (FtraceConfig.atrace_apps request)
                 (FtraceConfig.atrace_categories request)
                 (FtraceConfig.symbolize_ksyms request))
              (ds_configs_ (mux s))
          /\ (forall e,
                e ∈ filter
                <-> table_id P (table s) events (fun _ => true) e)
          /\ (forall e,
                e ∈ FtraceState.ftrace_events (current_state_ (mux s'))
                <-> e ∈ FtraceState.ftrace_events (current_state_ (mux s))
                    \/ table_id P (table s) events tracked e)).
Proof.
  intros Hacc Hgood events. subst events. unfold requested_events.
  unfold SetupConfig_events.
  unfold bind at 1. unfold get_table at 1.
  unfold bind at 1. unfold get_kernel at 1.
  unfold bind at 1. unfold get_mux at 1.
  destruct (RequiresAtrace request
            && (IsOldAtrace P
                && negb (bool_decide (ds_configs_ (mux s) = ∅)))).
  { exists 0%N, s. split; [reflexivity|]. intros Hbad. now contradiction Hbad. }
  unfold bind at 1.
  assert (Hupd : exists s1,
            (if RequiresAtrace request then UpdateAtrace P request
             else ret tt) s = Some (tt, s1)
            /\ keeps_registry s s1
            /\ table s1 = table s
            /\ good (kernel s1)
            /\ FtraceState.ftrace_events (current_state_ (mux s1))
               = FtraceState.ftrace_events (current_state_ (mux s))).
  { destruct (RequiresAtrace request) eqn:Hreq.
    - destruct (UpdateAtrace_step request s Hreq)
        as (s1 & H1 & (Hk & Hp & _) & Htbl).
      exists s1. split; [exact H1|]. split; [exact Hk|].
      split; [exact Htbl|].
      split; [|now apply (UpdateAtrace_events request)].
      destruct Hacc as (_ & Hkeep & _).
      exact (performs_good good _ s s1 Hkeep Hp Hgood).
    - exists s. split; [reflexivity|].
      split; [apply keeps_registry_refl|]. now repeat split. }
  destruct Hupd as (s1 & -> & Hk1 & Htbl1 & Hgood1 & Hev1).
  unfold bind at 1.
  destruct (enable_loop_exact good (table s)
              (ordered gn_le
                 (fold_left (add_vendor_events (vendor_events_ (mux s)))
                    (FtraceConfig.atrace_categories request)
                    (GetFtraceEvents P request (table s) (kernel s))))
              Hacc EventFilter.empty s1)
    as (filter & s2 & -> & Hk2 & Hfilter & Hglobal).
  { intros gn. now rewrite Htbl1. }
  { exact Hgood1. }
  unfold bind, get_table, get_mux, put_mux, ret.
  eexists _, _. split; [reflexivity|]. intros _.
  cbn [mux kernel table log ds_configs_ current_state_ set_ds_configs_
         set_last_id_].
  destruct (keeps_registry_trans _ _ _ Hk1 Hk2) as (Hds & _ & Hid & _).
  exists filter. split; [now rewrite Hds, Hid|].
  split.
  - intros e. rewrite Hfilter. split; [|now right].
    intros [Hbad | He]; [|exact He].
    now apply not_elem_of_empty in Hbad.
  - intros e. now rewrite Hglobal, Hev1.
Qed.

Lemma SetupConfig_exact (good : W -> Prop) (request : FtraceConfig.t)
    (s : Run W T) :
  accepts_events P good -> good (kernel s) ->
  let events := requested_events P (mux s) request (table s) (kernel s) in
  exists id s',
    SetupConfig P request s = Some (id, s')
    /\ (id <> 0%N ->
        exists filter,
          ds_configs_ (mux s')
          = emplace id
              (FtraceDataSourceConfig.mk filter
                 (CreateCompactSchedConfig P request (table s'))
                 (FtraceConfig.atrace_apps request)
                 (FtraceConfig.atrace_categories request)
                 (FtraceConfig.symbolize_ksyms request))
              (ds_configs_ (mux s))
          /\ (forall e,
                e ∈ filter
                <-> table_id P (table s) events (fun _ => true) e)
          /\ (forall e,
                e ∈ FtraceState.ftrace_events (current_state_ (mux s'))
                <-> e ∈ FtraceState.ftrace_events (current_state_ (mux s))
                    \/ table_id P (table s) events tracked e)).
Proof.
  intros Hacc Hgood events.
  assert (Hrefused : exists id s',
            @ret W T N 0%N s = Some (id, s')
            /\ (id <> 0%N ->
                exists filter,
                  ds_configs_ (mux s')
                  = emplace id
                      (FtraceDataSourceConfig.mk filter
                         (CreateCompactSchedConfig P request (table s'))
                         (FtraceConfig.atrace_apps request)
                         (FtraceConfig.atrace_categories request)
                         (FtraceConfig.symbolize_ksyms request))
                      (ds_configs_ (mux s))
                  /\ (forall e,
                        e ∈ filter
                        <-> table_id P (table s) events (fun _ => true) e)
                  /\ (forall e,
                        e ∈ FtraceState.ftrace_events
                              (current_state_ (mux s'))
                        <-> e ∈ FtraceState.ftrace_events
                                  (current_state_ (mux s))
                            \/ table_id P (table s) events tracked e))).
  { exists 0%N, s. split; [reflexivity|]. intros Hbad.
    now contradiction Hbad. }
  unfold SetupConfig.
  unfold bind at 1. unfold get_kernel at 1.
  unfold bind at 1. unfold get_mux at 1.
  destruct (bool_decide (ds_configs_ (mux s) = ∅)).
  - destruct (IsTracingEnabled P (kernel s) && negb (IsOldAtrace P));
      [exact Hrefused|].
    unfold bind at 1.
    destruct (SetupClock_step request s)
      as (s1 & Hrun1 & (K1 & P1 & _) & Htbl1 & _).
    rewrite Hrun1.
    unfold bind at 1.
    destruct (SetupBufferSize_step request s1)
      as (s2 & Hrun2 & (K2 & P2 & _) & Htbl2 & _).
    rewrite Hrun2.
    pose proof (keeps_registry_trans _ _ _ K1 K2) as (Hds & _ & _ & Hven).
    pose proof (performs_trans _ _ _ _ P1 P2) as P12.
    destruct Hacc as (Hstable & Hkeep & Henable & Hnames).
    assert (Hgood2 : good (kernel s2))
      by exact (performs_good good _ s s2 Hkeep P12 Hgood).
    assert (Hevents :
              requested_events P (mux s2) request (table s2) (kernel s2)
              = events).
    { subst events. unfold requested_events.
      rewrite Hven, Htbl2, Htbl1. f_equal. f_equal.
      apply GetFtraceEvents_names_only. intros path.
      exact (performs_names _ s s2 path Hnames P12). }
    destruct (SetupConfig_events_exact good request s2
                (conj Hstable (conj Hkeep (conj Henable Hnames))) Hgood2)
      as (id & s3 & -> & Hstored).
    rewrite Hevents, Htbl2, Htbl1, Hds in Hstored.
    rewrite (SetupBufferSize_events request s1 s2 Hrun2),
      (SetupClock_events request s s1 Hrun1) in Hstored.
    exists id, s3. split; [reflexivity | exact Hstored].
  - destruct (negb (bool_decide (active_configs_ (mux s) = ∅))
              && negb (IsTracingEnabled P (kernel s))
              && negb (IsOldAtrace P)); [exact Hrefused|].
    exact (SetupConfig_events_exact good request s Hacc Hgood).
Qed.

(** X22. What a new configuration filters, on a kernel that lets every
    event be enabled and a table whose answers do not depend on the events
    created before.  [SetupConfig] goes through the events that
    [GetFtraceEvents] resolves for the request, together with the vendor
    events of its categories.  When it returns an id other than 0, the event
    filter that [GetDataSourceConfig] gives for the id holds exactly the ids
    of those events that the table knows or creates, and the enabled events
    of [current_state_] are those of before together with these ids, without
    those of the group [ftrace]. *)
Theorem SetupConfig_filter (good : W -> Prop) (request : FtraceConfig.t)
    (s : Run W T) :
  accepts_events P good -> good (kernel s) ->
  registry_in_range (mux s) ->
  let events := requested_events P (mux s) request (table s) (kernel s) in
  exists id s',
    SetupConfig P request s = Some (id, s')
    /\ (id <> 0%N ->
        exists config,
          GetDataSourceConfig (mux s') id = Some config
          /\ (forall e,
                e ∈ FtraceDataSourceConfig.event_filter config
                <-> table_id P (table s) events (fun _ => true) e)
          /\ (forall e,
                e ∈ FtraceState.ftrace_events (current_state_ (mux s'))
                <-> e ∈ FtraceState.ftrace_events (current_state_ (mux s))
                    \/ table_id P (table s) events tracked e)).
Proof.
  intros Hacc Hgood Hrange events.
  destruct (SetupConfig_exact good request s Hacc Hgood)
    as (id & s' & Hrun & Hstored).
  exists id, s'. split; [exact Hrun|]. intros Hnz.
  destruct (Hstored Hnz) as (filter & Hds & Hfilter & Hglobal).
  destruct (SetupConfig_sound request s)
    as (id' & s'' & Hrun' & _ & _ & _ & _ & _ & Hstores & _).
  rewrite Hrun in Hrun'. injection Hrun' as <- <-.
  destruct (Hstores Hnz) as (Hid & _).
  assert (Hfresh : ds_configs_ (mux s) !! id = None).
  { destruct (ds_configs_ (mux s) !! id) eqn:Hlook; [|reflexivity].
    destruct (Hrange id) as [_ Hle]; [rewrite Hlook; now eexists | lia]. }
  unfold emplace in Hds. rewrite Hfresh in Hds.
  eexists. rewrite GetDataSourceConfig_lookup, Hds, lookup_insert_eq.
  split; [reflexivity|]. split; [exact Hfilter | exact Hglobal].
Qed.

(** X18. Asking atrace for the same request twice launches it once: when
    the launch that [UpdateAtrace] may do succeeds, [UpdateAtrace] returns
    with atrace recorded on, and [UpdateAtrace] for the same request in the
    state it left returns without a launch and changes nothing. *)
Theorem UpdateAtrace_idempotent (request : FtraceConfig.t) (s : Run W T) :
  let st := current_state_ (mux s) in
  let combined_apps :=
    UnionInPlace (FtraceState.atrace_apps st)
      (FtraceConfig.atrace_apps request) in
  let combined_categories :=
    UnionInPlace (FtraceState.atrace_categories st)
      (FtraceConfig.atrace_categories request) in
  let launch :=
    Call.RunAtrace (StartAtrace_args P combined_apps combined_categories) in
  fst (perform P launch (kernel s)) = true ->
  exists s',
    UpdateAtrace P request s = Some (tt, s')
    /\ FtraceState.atrace_on (current_state_ (mux s')) = true
    /\ UpdateAtrace P request s' = Some (tt, s').
Proof.
  intros st combined_apps combined_categories launch Hok.
  pose proof (UpdateAtrace_run P request s) as Hrun. cbv zeta in Hrun.
  fold st combined_apps combined_categories launch in Hrun.
  destruct (FtraceState.atrace_on st
            && Nat.eqb (length combined_apps)
                 (length (FtraceState.atrace_apps st))
            && Nat.eqb (length combined_categories)
                 (length (FtraceState.atrace_categories st))) eqn:Hsame.
  - exists s. split; [exact Hrun|]. split; [|exact Hrun].
    apply andb_prop in Hsame as [Hsame _].
    now apply andb_prop in Hsame as [Hon _].
  - rewrite Hok in Hrun. eexists. split; [exact Hrun|].
    split; [reflexivity|].
    rewrite (UpdateAtrace_run P). cbv zeta.
    cbn [mux current_state_ set_current_state_ atrace_updated
           FtraceState.atrace_on FtraceState.atrace_apps
           FtraceState.atrace_categories].
    subst combined_apps combined_categories.
    now rewrite !UnionInPlace_absorb, !Nat.eqb_refl.
Qed.

(** *** The rest of what [RemoveConfig] leaves *)

Lemma RemoveConfig_deactivate_rest (config_id : N) (s : Run W T) :
  exists s',
    RemoveConfig_deactivate P config_id s = Some (tt, s')
    /\ last_id_ (mux s') = last_id_ (mux s)
    /\ vendor_events_ (mux s') = vendor_events_ (mux s)
    /\ current_state_ (mux s') = current_state_ (mux s).
Proof.
  unfold RemoveConfig_deactivate, bind, get_mux, put_mux, call, ret.
  repeat match goal with
         | |- context [if ?b then _ else _] => destruct b
         end;
    (eexists; split; [reflexivity|]; now repeat split).
Qed.

Lemma RemoveConfig_teardown_rest (s : Run W T) :
  exists s',
    RemoveConfig_teardown P s = Some (tt, s')
    /\ last_id_ (mux s') = last_id_ (mux s)
    /\ vendor_events_ (mux s') = vendor_events_ (mux s)
    /\ FtraceState.ftrace_clock (current_state_ (mux s'))
       = FtraceState.ftrace_clock (current_state_ (mux s))
    /\ (ds_configs_ (mux s) <> ∅ ->
        current_state_ (mux s') = current_state_ (mux s)).
Proof.
  unfold RemoveConfig_teardown, bind, get_mux.
  destruct (decide (ds_configs_ (mux s) = ∅)) as [Hempty | Hne].
  - rewrite (bool_decide_eq_true_2 _ Hempty).
    unfold call, modify_state, bind, get_mux, put_mux, ret.
    cbn [mux kernel table log fst snd].
    destruct (fst (perform P (Call.SetCpuBufferSizeInPages 1) (kernel s)));
      (eexists; split; [reflexivity|]; cbn; now repeat split).
  - rewrite (bool_decide_eq_false_2 _ Hne).
    exists s. split; [reflexivity|]. now repeat split.
Qed.

(** The state that a successful [DisableAtrace] leaves. *)
Lemma RemoveConfig_atrace_rest (expected_apps expected_categories : list string)
    (atrace_changed : bool) (s : Run W T) :
  let st := current_state_ (mux s) in
  let stop := Call.RunAtrace (DisableAtrace_args P) in
  exists s',
    RemoveConfig_atrace P expected_apps expected_categories atrace_changed s
    = Some (tt, s')
    /\ last_id_ (mux s') = last_id_ (mux s)
    /\ vendor_events_ (mux s') = vendor_events_ (mux s)
    /\ FtraceState.ftrace_clock (current_state_ (mux s'))
       = FtraceState.ftrace_clock st
    /\ (atrace_consistent st -> atrace_consistent (current_state_ (mux s')))
    /\ (FtraceState.atrace_on st = true ->
        expected_apps = [] -> expected_categories = [] ->
        log s' = log s ++ [(stop, fst (perform P stop (kernel s)))]
        /\ (fst (perform P stop (kernel s)) = true ->
            FtraceState.atrace_on (current_state_ (mux s')) = false
            /\ FtraceState.atrace_apps (current_state_ (mux s')) = []
            /\ FtraceState.atrace_categories (current_state_ (mux s')) = [])
        /\ (fst (perform P stop (kernel s)) = false ->
            same_atrace st (current_state_ (mux s'))))
    /\ (FtraceState.atrace_on st = true ->
        ~ (expected_apps = [] /\ expected_categories = []) ->
        let start :=
          Call.RunAtrace
            (StartAtrace_args P expected_apps expected_categories) in
        (atrace_changed = true ->
         log s' = log s ++ [(start, fst (perform P start (kernel s)))]
         /\ (fst (perform P start (kernel s)) = true ->
             FtraceState.atrace_on (current_state_ (mux s')) = true
             /\ FtraceState.atrace_apps (current_state_ (mux s'))
                = expected_apps
             /\ FtraceState.atrace_categories (current_state_ (mux s'))
                = expected_categories)
         /\ (fst (perform P start (kernel s)) = false ->
             same_atrace st (current_state_ (mux s'))))
        /\ (atrace_changed = false -> s' = s)).
Proof.
  intros st stop. subst stop st.
  unfold RemoveConfig_atrace, bind, get_mux.
  destruct (FtraceState.atrace_on (current_state_ (mux s))) eqn:Hon.
  2:{ exists s. split; [reflexivity|].
      split; [reflexivity|]. split; [reflexivity|]. split; [reflexivity|].
      split; [tauto|].
      split; intros Hbad; discriminate Hbad. }
  destruct (bool_decide (expected_apps = [])
            && bool_decide (expected_categories = [])) eqn:Hempty.
  - assert (Hboth : expected_apps = [] /\ expected_categories = []).
    { apply andb_prop in Hempty as [Ha Hc].
      apply bool_decide_eq_true in Ha, Hc. now split. }
    unfold DisableAtrace, bind, call, modify_state, bind, get_mux, put_mux,
      ret.
    cbn [mux kernel table log fst snd].
    destruct (fst (perform P (Call.RunAtrace (DisableAtrace_args P))
                     (kernel s))) eqn:Hok.
    + eexists. split; [reflexivity|]. cbn.
      split; [reflexivity|]. split; [reflexivity|]. split; [reflexivity|].
      split; [intros _ _; now split|].
      split; [|intros _ Hbad; contradiction].
      intros _ _ _. split; [reflexivity|].
      split; [intros _; now repeat split|].
      intros Hbad. discriminate Hbad.
    + eexists. split; [reflexivity|]. cbn.
      split; [reflexivity|]. split; [reflexivity|]. split; [reflexivity|].
      split; [tauto|].
      split; [|intros _ Hbad; contradiction].
      intros _ _ _. split; [reflexivity|].
      split; [intros Hbad; discriminate Hbad|].
      intros _. now repeat split.
  - assert (Hnot : ~ (expected_apps = [] /\ expected_categories = [])).
    { intros [-> ->]. discriminate Hempty. }
    destruct atrace_changed.
    + unfold StartAtrace, bind, call, modify_state, bind, get_mux, put_mux,
        ret.
      cbn [mux kernel table log fst snd].
      destruct (fst (perform P
                       (Call.RunAtrace
                          (StartAtrace_args P expected_apps
                             expected_categories)) (kernel s))) eqn:Hok.
      * eexists. split; [reflexivity|]. cbn.
        split; [reflexivity|]. split; [reflexivity|].
        split; [reflexivity|].
        split; [intros _ Hbad; cbn in Hbad; congruence|].
        split; [tauto|].
        intros _ _. split; [|intros Hbad; discriminate Hbad].
        intros _. split; [reflexivity|].
        split; [intros _; now repeat split|].
        intros Hbad. discriminate Hbad.
      * eexists. split; [reflexivity|]. cbn.
        split; [reflexivity|]. split; [reflexivity|].
        split; [reflexivity|]. split; [tauto|].
        split; [tauto|].
        intros _ _. split; [|intros Hbad; discriminate Hbad].
        intros _. split; [reflexivity|].
        split; [intros Hbad; discriminate Hbad|].
        intros _. now repeat split.
    + exists s. split; [reflexivity|].
      split; [reflexivity|]. split; [reflexivity|].
      split; [reflexivity|]. split; [tauto|].
      split; [tauto|].
      intros _ _. split; [intros Hbad; discriminate Hbad | reflexivity].
Qed.

Lemma disable_all_perform_all (tbl : T) (ids : list N) (w : W) :
  map (disable_entry P tbl) (fst (disable_all P tbl ids w))
  = fst (perform_all P (map (disable_call P tbl) ids) w)
  /\ snd (disable_all P tbl ids w)
     = snd (perform_all P (map (disable_call P tbl) ids) w).
Proof.
  revert w. induction ids as [| id ids IH]; intros w; [now split|].
  cbn [disable_all perform_all map fst snd].
  destruct (IH (snd (perform P (disable_call P tbl id) w))) as [-> ->].
  now split.
Qed.

Lemma RemoveConfig_rest (config_id : N) (s s' : Run W T) :
  RemoveConfig P config_id s = Some (true, s') ->
  let st := current_state_ (mux s) in
  let st' := current_state_ (mux s') in
  let remaining := delete config_id (ds_configs_ (mux s)) in
  let stop := Call.RunAtrace (DisableAtrace_args P) in
  last_id_ (mux s') = last_id_ (mux s)
  /\ vendor_events_ (mux s') = vendor_events_ (mux s)
  /\ FtraceState.ftrace_clock st' = FtraceState.ftrace_clock st
  /\ (atrace_consistent st -> atrace_consistent st')
  /\ (remaining <> ∅ ->
      FtraceState.cpu_buffer_size_pages st'
      = FtraceState.cpu_buffer_size_pages st)
  /\ (FtraceState.atrace_on st = true ->
      intersected_apps st remaining = [] ->
      intersected_categories st remaining = [] ->
      exists before r,
        log s' = before ++ [(stop, r)]
        /\ (r = true ->
            FtraceState.atrace_on st' = false
            /\ FtraceState.atrace_apps st' = []
            /\ FtraceState.atrace_categories st' = [])
        /\ (r = false -> same_atrace st st'))
  /\ (FtraceState.atrace_on st = true ->
      ~ (intersected_apps st remaining = []
         /\ intersected_categories st remaining = []) ->
      let start :=
        Call.RunAtrace
          (StartAtrace_args P (intersected_apps st remaining)
             (intersected_categories st remaining)) in
      (atrace_changed_of st (intersected_apps st remaining)
         (intersected_categories st remaining) = true ->
       exists before r,
         log s' = before ++ [(start, r)]
         /\ (r = true ->
             FtraceState.atrace_on st' = true
             /\ FtraceState.atrace_apps st' = intersected_apps st remaining
             /\ FtraceState.atrace_categories st'
                = intersected_categories st remaining)
         /\ (r = false -> same_atrace st st'))
      /\ (atrace_changed_of st (intersected_apps st remaining)
            (intersected_categories st remaining) = false ->
          same_atrace st st')).
Proof.
  intros Hrun st st' remaining stop.
  unfold RemoveConfig in Hrun.
  unfold bind at 1, get_mux at 1 in Hrun.
  destruct (N.eqb_spec config_id 0) as [Hz | Hnz]; [discriminate Hrun|].
  cbn [orb] in Hrun.
  destruct (decide (is_Some (ds_configs_ (mux s) !! config_id)))
    as [Hsome | Hnone];
    [rewrite (bool_decide_eq_true_2 _ Hsome) in Hrun
    |rewrite (bool_decide_eq_false_2 _ Hnone) in Hrun; discriminate Hrun].
  cbn [negb] in Hrun.
  unfold bind at 1, put_mux at 1 in Hrun.
  cbn [ds_configs_ set_ds_configs_ current_state_ kernel table log] in Hrun.
  fold remaining st in Hrun.
  unfold bind at 1 in Hrun.
  destruct (for_each _ (disable_surplus_event P _) _)
    as [[[] s2]|] eqn:Hloop; [|discriminate Hrun].
  apply (disable_loop_run P) in Hloop. cbv zeta in Hloop.
  cbn [table kernel log mux current_state_ set_ds_configs_] in Hloop.
  fold st in Hloop.
  destruct Hloop as (_ & _ & _ & (Hds2 & _ & Hid2 & Hven2) & (F2 & HF2 & _) & _).
  cbn [mux ds_configs_ last_id_ vendor_events_ set_ds_configs_]
    in Hds2, Hid2, Hven2.
  unfold bind at 1 in Hrun.
  destruct (RemoveConfig_deactivate_rest config_id s2)
    as (s3 & Hd & Hid3 & Hven3 & Hst3).
  destruct (RemoveConfig_deactivate_run P config_id s2)
    as (s3' & Hd' & _ & _ & _ & Hds3 & _ & _).
  rewrite Hd in Hd'. injection Hd' as <-.
  rewrite Hd in Hrun.
  unfold bind at 1 in Hrun.
  destruct (RemoveConfig_teardown_rest s3)
    as (s4 & Ht & Hid4 & Hven4 & Hclk4 & Hkeep4).
  destruct (RemoveConfig_teardown_run P s3)
    as (s4' & Ht' & _ & _ & _ & _ & _ & _ & Hatr4 & _).
  rewrite Ht in Ht'. injection Ht' as <-.
  rewrite Ht in Hrun.
  unfold bind at 1 in Hrun.
  match type of Hrun with
  | context [RemoveConfig_atrace P ?ea ?ec ?ch s4] =>
      destruct (RemoveConfig_atrace_rest ea ec ch s4)
        as (s5 & Ha & Hid5 & Hven5 & Hclk5 & Hcons5 & Hstop5 & Hstart5);
      destruct (RemoveConfig_atrace_run P ea ec s4)
        as (s5' & Ha' & _ & _ & _ & _ & _ & _ & Hcpu5)
  end.
  assert (Hst4 : same_atrace st (current_state_ (mux s4))).
  { destruct Hatr4 as (A1 & A2 & A3). rewrite Hst3, HF2 in A1, A2, A3.
    now repeat split. }
  destruct Hst4 as (Hon & Happs & Hcats).
  assert (Hch : atrace_changed_of (current_state_ (mux s4))
                  (IntersectInPlace (FtraceState.atrace_apps st)
                     (expected_apps_of (configs_in_order remaining)))
                  (IntersectInPlace (FtraceState.atrace_categories st)
                     (expected_categories_of (configs_in_order remaining)))
                = atrace_changed_of st
                    (IntersectInPlace (FtraceState.atrace_apps st)
                       (expected_apps_of (configs_in_order remaining)))
                    (IntersectInPlace (FtraceState.atrace_categories st)
                       (expected_categories_of
                          (configs_in_order remaining)))).
  { unfold atrace_changed_of. now rewrite Happs, Hcats. }
  rewrite Hch in Ha'. rewrite Ha in Ha'. injection Ha' as <-.
  rewrite Ha in Hrun. cbn in Hrun. injection Hrun as <-.
  subst st'.
  split; [congruence|]. split; [congruence|].
  split.
  { rewrite Hclk5, Hclk4, Hst3, HF2. reflexivity. }
  split.
  { intros Hcons. apply Hcons5. intros Hoff.
    rewrite Hon in Hoff. rewrite Happs, Hcats. now apply Hcons. }
  split.
  { intros Hne. rewrite Hcpu5, Hkeep4, Hst3, HF2; [reflexivity|].
    now rewrite Hds3, Hds2. }
  split.
  { intros Hwas Hea Hec. unfold intersected_apps in Hea.
    unfold intersected_categories in Hec.
    destruct (Hstop5 ltac:(congruence) Hea Hec) as (Hlog & Hyes & Hno).
    eexists _, _. split; [exact Hlog|]. split; [exact Hyes|].
    intros Hr. destruct (Hno Hr) as (B1 & B2 & B3).
    repeat split; congruence. }
  intros Hwas Hnot. unfold intersected_apps, intersected_categories in *.
  destruct (Hstart5 ltac:(congruence) Hnot) as [Hyes Hno].
  split.
  - intros Hchanged.
    destruct (Hyes Hchanged) as (Hlog & Hok & Hfail).
    eexists _, _. split; [exact Hlog|]. split; [exact Hok|].
    intros Hr. destruct (Hfail Hr) as (B1 & B2 & B3).
    repeat split; congruence.
  - intros Hchanged.
    rewrite (Hno Hchanged). now repeat split.
Qed.

Lemma ActivateConfig_unknown (id : N) (s : Run W T) :
  id = 0%N \/ ds_configs_ (mux s) !! id = None ->
  ActivateConfig P id s = Some (false, s).
Proof.
  intros Hid. unfold ActivateConfig, bind, get_mux.
  destruct Hid as [-> | Hnone]; [reflexivity|].
  rewrite bool_decide_eq_false_2; [|rewrite Hnone; now intros [x Hx]].
  now rewrite orb_true_r.
Qed.

(** The enabled events are known to the table when each of them, listed, is
    found in it. *)
Lemma known_by_table (s : Run W T) :
  forallb (fun id => bool_decide (is_Some (GetEventById P id (table s))))
    (EventFilter.GetEnabledEvents
       (FtraceState.ftrace_events (current_state_ (mux s)))) = true ->
  forall id,
    id ∈ FtraceState.ftrace_events (current_state_ (mux s)) ->
    is_Some (GetEventById P id (table s)).
Proof.
  intros Hall id Hin. rewrite forallb_forall in Hall.
  apply (In_GetEnabledEvents) in Hin. apply Hall in Hin.
  now apply bool_decide_eq_true in Hin.
Qed.

(** X12. A removed id is forgotten.  For a registered id other than 0, in a
    state where the table knows every enabled event, [RemoveConfig] returns
    true; afterwards [GetDataSourceConfig] gives nothing for the id and what
    it gave before for every other id, the id is not active, [last_id_] is
    as before, and removing or activating the id again returns false and
    changes nothing. *)
Theorem RemoveConfig_forgets (config_id : N) (s : Run W T) :
  config_id <> 0%N ->
  is_Some (GetDataSourceConfig (mux s) config_id) ->
  (forall id,
      id ∈ FtraceState.ftrace_events (current_state_ (mux s)) ->
      is_Some (GetEventById P id (table s))) ->
  exists s',
    RemoveConfig P config_id s = Some (true, s')
    /\ GetDataSourceConfig (mux s') config_id = None
    /\ (forall id,
          id <> config_id ->
          GetDataSourceConfig (mux s') id = GetDataSourceConfig (mux s) id)
    /\ active_configs_ (mux s') = active_configs_ (mux s) ∖ {[ config_id ]}
    /\ last_id_ (mux s') = last_id_ (mux s)
    /\ RemoveConfig P config_id s' = Some (false, s')
    /\ ActivateConfig P config_id s' = Some (false, s').
Proof.
  intros Hnz Hsome Hknown. rewrite GetDataSourceConfig_lookup in Hsome.
  destruct (RemoveConfig_returns P config_id s Hnz Hsome Hknown)
    as (s' & Hrun).
  exists s'. split; [exact Hrun|].
  destruct (RemoveConfig_run P config_id s s' Hrun)
    as (_ & _ & _ & _ & Hds & Hact & _).
  destruct (RemoveConfig_rest config_id s s' Hrun) as (Hid & _).
  assert (Hgone : ds_configs_ (mux s') !! config_id = None)
    by (rewrite Hds; apply lookup_delete_eq).
  rewrite GetDataSourceConfig_lookup.
  split; [exact Hgone|].
  split.
  { intros id Hne. rewrite !GetDataSourceConfig_lookup, Hds.
    now apply lookup_delete_ne. }
  split; [exact Hact|]. split; [exact Hid|].
  split; [apply (RemoveConfig_unknown P) | apply ActivateConfig_unknown];
    now right.
Qed.

(** X13. What [RemoveConfig] writes.  For a registered id other than 0, in a
    state where the table knows every enabled event, [RemoveConfig] returns
    true, and between its start and its end the kernel saw only the calls of
    the log, each of them allowed by [remove_call]: an event disabled; a
    launch of atrace; [tracing_on = 0], and only when the id was the last
    active one; the buffer shrunk to 1 page, all events disabled and the
    trace cleared, and only when the registry became empty.  It never
    enables an event or tracing and never writes the clock.  While
    configurations remain, [GetPerCpuBufferSizePages] stays; the recorded
    clock always stays; and on a kernel where only the writes of
    [tracing_on] move it, tracing stays as it is unless the id was the last
    active one. *)
Theorem RemoveConfig_calls (config_id : N) (s : Run W T) :
  config_id <> 0%N ->
  is_Some (GetDataSourceConfig (mux s) config_id) ->
  (forall id,
      id ∈ FtraceState.ftrace_events (current_state_ (mux s)) ->
      is_Some (GetEventById P id (table s))) ->
  let deactivates :=
    bool_decide (config_id ∈ active_configs_ (mux s))
    && bool_decide (active_configs_ (mux s) ∖ {[ config_id ]} = ∅) in
  let last := bool_decide (delete config_id (ds_configs_ (mux s)) = ∅) in
  exists s',
    RemoveConfig P config_id s = Some (true, s')
    /\ performs P (remove_call deactivates last) s s'
    /\ (last = false ->
        GetPerCpuBufferSizePages (mux s') = GetPerCpuBufferSizePages (mux s))
    /\ FtraceState.ftrace_clock (current_state_ (mux s'))
       = FtraceState.ftrace_clock (current_state_ (mux s))
    /\ (honours_tracing P -> deactivates = false ->
        IsTracingEnabled P (kernel s') = IsTracingEnabled P (kernel s)).
Proof.
  intros Hnz Hsome Hknown deactivates last.
  rewrite GetDataSourceConfig_lookup in Hsome.
  destruct (RemoveConfig_returns P config_id s Hnz Hsome Hknown)
    as (s' & Hrun).
  exists s'. split; [exact Hrun|].
  pose proof (RemoveConfig_run P config_id s s' Hrun) as Hfacts.
  cbv zeta in Hfacts.
  destruct Hfacts as (_ & _ & Hlog & Hker & _).
  destruct (RemoveConfig_rest config_id s s' Hrun)
    as (_ & _ & Hclock & _ & Hcpu & _).
  set (st := current_state_ (mux s)) in *.
  set (remaining := delete config_id (ds_configs_ (mux s))) in *.
  set (todo := surplus (FtraceState.ftrace_events st)
                 (expected_ftrace_events_of (configs_in_order remaining)))
    in *.
  set (cs1 := map (disable_call P (table s)) todo).
  set (cs2 := deactivate_calls (mux s) config_id) in *.
  set (cs3 := if bool_decide (remaining = ∅) then teardown_calls else [])
    in *.
  set (cs4 := atrace_calls P st (intersected_apps st remaining)
                (intersected_categories st remaining)) in *.
  destruct (disable_all_perform_all (table s) todo (kernel s))
    as [Hd1 Hd2].
  fold cs1 in Hd1, Hd2. rewrite Hd1, Hd2 in Hlog. rewrite Hd2 in Hker.
  assert (Hperf : performs P (remove_call deactivates last) s s').
  { exists (cs1 ++ cs2 ++ cs3 ++ cs4). split.
    - intros c Hin.
      apply in_app_or in Hin as [Hin | Hin].
      { subst cs1. apply in_map_iff in Hin as (id & <- & _).
        unfold disable_call. now destruct (GetEventById P id (table s)). }
      apply in_app_or in Hin as [Hin | Hin].
      { subst cs2. unfold deactivate_calls in Hin. fold deactivates in Hin.
        destruct deactivates; [|destruct Hin].
        destruct Hin as [<- | []]. reflexivity. }
      apply in_app_or in Hin as [Hin | Hin].
      { subst cs3. fold last in Hin. destruct last; [|destruct Hin].
        unfold teardown_calls in Hin.
        destruct Hin as [<- | [<- | [<- | []]]]; reflexivity. }
      apply (atrace_calls_launches P) in Hin. now destruct c.
    - rewrite !(perform_all_app P). cbn [fst snd]. split; assumption. }
  split; [exact Hperf|].
  split.
  { intros Hlast. apply bool_decide_eq_false in Hlast.
    exact (Hcpu Hlast). }
  split; [exact Hclock|].
  intros Hhon Hdeact. eapply performs_tracing; [exact Hhon| |exact Hperf].
  rewrite Hdeact. intros [] Hc; cbn in *; try discriminate; reflexivity.
Qed.

Lemma IntersectInPlace_nil (a : list string) : IntersectInPlace a [] = [].
Proof.
  unfold IntersectInPlace. change (std_sort []) with (@nil string).
  now destruct (std_sort a).
Qed.

Lemma expected_none (configs : list FtraceDataSourceConfig.t) :
  (forall config,
      In config configs ->
      FtraceDataSourceConfig.atrace_apps config = []
      /\ FtraceDataSourceConfig.atrace_categories config = []) ->
  expected_apps_of configs = [] /\ expected_categories_of configs = [].
Proof.
  unfold expected_apps_of, expected_categories_of.
  induction configs as [| config configs IH]; intros Hnone; [now split|].
  cbn [fold_left]. destruct (Hnone config (or_introl eq_refl)) as [-> ->].
  change (UnionInPlace [] []) with (@nil string).
  apply IH. intros c Hc. apply Hnone. now right.
Qed.

(** X14. When atrace is on and no configuration that stays has an app or a
    category (as when the last one goes), [RemoveConfig] ends by launching
    [atrace --async_stop], with [--only_userspace] unless atrace is the
    legacy one; when the launch succeeds atrace is recorded off with no
    app and no category, and when it fails the record of atrace is as
    before. *)
Theorem RemoveConfig_stops_atrace (config_id : N) (s : Run W T) :
  config_id <> 0%N ->
  is_Some (GetDataSourceConfig (mux s) config_id) ->
  (forall id,
      id ∈ FtraceState.ftrace_events (current_state_ (mux s)) ->
      is_Some (GetEventById P id (table s))) ->
  FtraceState.atrace_on (current_state_ (mux s)) = true ->
  (forall id config,
      id <> config_id ->
      GetDataSourceConfig (mux s) id = Some config ->
      FtraceDataSourceConfig.atrace_apps config = []
      /\ FtraceDataSourceConfig.atrace_categories config = []) ->
  exists s' before r,
    RemoveConfig P config_id s = Some (true, s')
    /\ log s'
       = before
           ++ [(Call.RunAtrace
                  ("atrace" :: "--async_stop"
                   :: (if IsOldAtrace P then []
                       else ["--only_userspace"])), r)]
    /\ (r = true ->
        FtraceState.atrace_on (current_state_ (mux s')) = false
        /\ FtraceState.atrace_apps (current_state_ (mux s')) = []
        /\ FtraceState.atrace_categories (current_state_ (mux s')) = [])
    /\ (r = false ->
        same_atrace (current_state_ (mux s)) (current_state_ (mux s'))).
Proof.
  intros Hnz Hsome Hknown Hon Hnone.
  rewrite GetDataSourceConfig_lookup in Hsome.
  destruct (RemoveConfig_returns P config_id s Hnz Hsome Hknown)
    as (s' & Hrun).
  destruct (RemoveConfig_rest config_id s s' Hrun)
    as (_ & _ & _ & _ & _ & Hstop & _).
  destruct (expected_none
              (configs_in_order (delete config_id (ds_configs_ (mux s)))))
    as [Happs Hcats].
  { intros config Hin. apply In_configs_in_order in Hin as (id & Hid).
    apply lookup_delete_Some in Hid as [Hne Hid].
    apply (Hnone id); [congruence|].
    now rewrite GetDataSourceConfig_lookup. }
  destruct Hstop as (before & r & Hlog & Hyes & Hno); [exact Hon| | |].
  { unfold intersected_apps. rewrite Happs. apply IntersectInPlace_nil. }
  { unfold intersected_categories. rewrite Hcats.
    apply IntersectInPlace_nil. }
  exists s', before, r. split; [exact Hrun|].
  split; [|now split].
  rewrite Hlog. unfold DisableAtrace_args.
  now destruct (IsOldAtrace P).
Qed.

(** X21. When atrace is on and the configurations that stay still need an
    app or a category, [RemoveConfig] compares the sizes of the lists it
    expects with the sizes of the recorded ones.  When a size differs it ends
    by launching atrace for the expected lists; when the launch succeeds the
    expected lists are recorded and atrace stays on, and when it fails the
    record of atrace is as before.  When both sizes are the same nothing is
    launched for atrace and its record is as before. *)
Theorem RemoveConfig_relaunches_atrace (config_id : N) (s : Run W T) :
  config_id <> 0%N ->
  is_Some (GetDataSourceConfig (mux s) config_id) ->
  (forall id,
      id ∈ FtraceState.ftrace_events (current_state_ (mux s)) ->
      is_Some (GetEventById P id (table s))) ->
  let st := current_state_ (mux s) in
  let remaining := delete config_id (ds_configs_ (mux s)) in
  let expected_apps := intersected_apps st remaining in
  let expected_categories := intersected_categories st remaining in
  FtraceState.atrace_on st = true ->
  ~ (expected_apps = [] /\ expected_categories = []) ->
  exists s',
    RemoveConfig P config_id s = Some (true, s')
    /\ (length (FtraceState.atrace_apps st) <> length expected_apps
        \/ length (FtraceState.atrace_categories st)
           <> length expected_categories ->
        exists before r,
          log s'
          = before
              ++ [(Call.RunAtrace
                     (StartAtrace_args P expected_apps expected_categories),
                   r)]
          /\ (r = true ->
              FtraceState.atrace_on (current_state_ (mux s')) = true
              /\ FtraceState.atrace_apps (current_state_ (mux s'))
                 = expected_apps
              /\ FtraceState.atrace_categories (current_state_ (mux s'))
                 = expected_categories)
          /\ (r = false -> same_atrace st (current_state_ (mux s'))))
    /\ (length (FtraceState.atrace_apps st) = length expected_apps ->
        length (FtraceState.atrace_categories st)
        = length expected_categories ->
        same_atrace st (current_state_ (mux s'))
        /\ forall entry,
             In entry (log s') ->
             In entry (log s) \/ is_RunAtrace (fst entry) = false).
Proof.
  intros Hnz Hsome Hknown st remaining expected_apps expected_categories
    Hon Hnot.
  rewrite GetDataSourceConfig_lookup in Hsome.
  destruct (RemoveConfig_returns P config_id s Hnz Hsome Hknown)
    as (s' & Hrun).
  exists s'. split; [exact Hrun|].
  destruct (RemoveConfig_rest config_id s s' Hrun)
    as (_ & _ & _ & _ & _ & _ & Hstart).
  destruct (Hstart Hon Hnot) as [Hyes Hno].
  fold st remaining expected_apps expected_categories in Hyes, Hno.
  split.
  - intros Hdiffer. apply Hyes. unfold atrace_changed_of.
    apply orb_true_iff.
    destruct Hdiffer as [Hd | Hd]; [left | right];
      now apply negb_true_iff, Nat.eqb_neq.
  - intros Happs Hcats.
    assert (Hsame : atrace_changed_of st expected_apps expected_categories
                    = false).
    { unfold atrace_changed_of. rewrite Happs, Hcats.
      now rewrite !Nat.eqb_refl. }
    split; [now apply Hno|].
    pose proof (RemoveConfig_run P config_id s s' Hrun) as Hfacts.
    cbv zeta in Hfacts. destruct Hfacts as (_ & _ & Hlog & _).
    fold st remaining in Hlog.
    fold expected_apps expected_categories in Hlog.
    assert (Hnone : atrace_calls P st expected_apps expected_categories
                    = []).
    { unfold atrace_calls. rewrite Hon, Hsame.
      destruct (bool_decide (expected_apps = [])
                && bool_decide (expected_categories = [])) eqn:Hboth;
        [|reflexivity].
      exfalso. apply Hnot. apply andb_prop in Hboth as [Ha Hc].
      apply bool_decide_eq_true in Ha, Hc. now split. }
    rewrite Hnone in Hlog. cbn [perform_all fst] in Hlog.
    rewrite app_nil_r in Hlog.
    intros [c ok] Hin. rewrite Hlog in Hin.
    apply in_app_or in Hin as [Hin | Hin]; [now left | right].
    cbn [fst].
    apply in_app_or in Hin as [Hin | Hin].
    { apply in_map_iff in Hin as ([id ok'] & Heq & _).
      unfold disable_entry, disable_call in Heq. cbn [fst snd] in Heq.
      injection Heq as <- _.
      now destruct (GetEventById P id (table s)). }
    apply in_app_or in Hin as [Hin | Hin].
    { apply (in_map fst) in Hin. rewrite (perform_all_calls P) in Hin.
      cbn [fst] in Hin. unfold deactivate_calls in Hin.
      destruct (_ && _) in Hin; [|destruct Hin].
      destruct Hin as [<- | []]. reflexivity. }
    apply (in_map fst) in Hin. rewrite (perform_all_calls P) in Hin.
    cbn [fst] in Hin.
    destruct (bool_decide (remaining = ∅)); [|destruct Hin].
    unfold teardown_calls in Hin.
    destruct Hin as [<- | [<- | [<- | []]]]; reflexivity.
Qed.

Lemma ActivateConfig_mux (id : N) (s : Run W T) :
  exists ok s',
    ActivateConfig P id s = Some (ok, s')
    /\ (mux s' = mux s
        \/ (is_Some (ds_configs_ (mux s) !! id)
            /\ mux s'
               = set_active_configs_ ({[ id ]} ∪ active_configs_ (mux s))
                   (mux s))).
Proof.
  unfold ActivateConfig, bind, get_mux.
  destruct (id =? 0)%N; cbn [orb];
    [exists false, s; split; [reflexivity | now left]|].
  destruct (decide (is_Some (ds_configs_ (mux s) !! id))) as [Hsome | Hnone].
  2:{ rewrite (bool_decide_eq_false_2 _ Hnone).
      exists false, s. split; [reflexivity | now left]. }
  rewrite (bool_decide_eq_true_2 _ Hsome). cbn [negb].
  unfold get_kernel, call, put_mux, ret.
  repeat match goal with
         | |- context [if ?b then _ else _] => destruct b
         end;
    (eexists _, _; split; [reflexivity|]; cbn; tauto).
Qed.

(** X15. The invariants of the muxer.  They hold of a constructed muxer, and
    the three member functions keep them: the registered ids are above 0 and
    at most [last_id_]; every active id is registered; and while atrace is
    recorded off no app and no category is recorded.  [last_id_] never
    decreases, and only [SetupConfig] moves it.  [SetupConfig] and
    [ActivateConfig] always return; [RemoveConfig] returns when the table
    knows every enabled event. *)
Theorem muxer_invariant_kept (s : Run W T) :
  muxer_invariant (mux s) ->
  (forall request,
      exists id s',
        SetupConfig P request s = Some (id, s')
        /\ muxer_invariant (mux s')
        /\ (last_id_ (mux s) <= last_id_ (mux s'))%N)
  /\ (forall id,
        exists ok s',
          ActivateConfig P id s = Some (ok, s')
          /\ muxer_invariant (mux s')
          /\ last_id_ (mux s') = last_id_ (mux s))
  /\ (forall config_id,
        (forall id,
            id ∈ FtraceState.ftrace_events (current_state_ (mux s)) ->
            is_Some (GetEventById P id (table s))) ->
        exists ok s',
          RemoveConfig P config_id s = Some (ok, s')
          /\ muxer_invariant (mux s')
          /\ last_id_ (mux s') = last_id_ (mux s)).
Proof.
  intros Hinv. pose proof Hinv as (Hrange & Hactive & Hatrace).
  split; [|split].
  - intros request.
    destruct (SetupConfig_sound request s)
      as (id & s' & Hrun & Hzero & Hact & _ & _ & (_ & _ & Hcons & _)
          & Hstores & _).
    exists id, s'. split; [exact Hrun|].
    destruct (N.eq_dec id 0%N) as [Hz | Hnz].
    { rewrite (Hzero Hz). split; [exact Hinv | lia]. }
    destruct (Hstores Hnz) as (Hid & Hlast & filter & Hds).
    assert (Hfresh : ds_configs_ (mux s) !! id = None).
    { destruct (ds_configs_ (mux s) !! id) eqn:Hlook; [|reflexivity].
      destruct (Hrange id) as [_ Hle]; [rewrite Hlook; now eexists | lia]. }
    unfold emplace in Hds. rewrite Hfresh in Hds.
    split; [|lia]. split; [|split].
    + intros other Hsome. rewrite Hds in Hsome. rewrite Hlast.
      destruct (decide (other = id)) as [-> | Hne]; [lia|].
      rewrite lookup_insert_ne in Hsome by congruence.
      apply Hrange in Hsome. lia.
    + intros other Hin. rewrite Hact in Hin. rewrite Hds.
      destruct (decide (other = id)) as [-> | Hne].
      * rewrite lookup_insert_eq. now eexists.
      * rewrite lookup_insert_ne by congruence. now apply Hactive.
    + now apply Hcons.
  - intros id.
    destruct (ActivateConfig_mux id s) as (ok & s' & Hrun & Hmux).
    exists ok, s'. split; [exact Hrun|].
    destruct Hmux as [-> | [Hsome ->]];
      [split; [exact Hinv | reflexivity]|].
    split; [|reflexivity]. split; [exact Hrange|].
    split; [|exact Hatrace].
    intros other Hin. cbn in Hin |- *.
    apply elem_of_union in Hin as [Hin | Hin]; [|now apply Hactive].
    now apply elem_of_singleton in Hin as ->.
  - intros config_id Hknown.
    destruct (N.eq_dec config_id 0%N) as [Hz | Hnz].
    { exists false, s. split; [apply (RemoveConfig_unknown P); now left|].
      split; [exact Hinv | reflexivity]. }
    destruct (ds_configs_ (mux s) !! config_id) eqn:Hlook.
    2:{ exists false, s.
        split; [apply (RemoveConfig_unknown P); now right|].
        split; [exact Hinv | reflexivity]. }
    destruct (RemoveConfig_returns P config_id s Hnz) as (s' & Hrun);
      [rewrite Hlook; now eexists | exact Hknown |].
    exists true, s'. split; [exact Hrun|].
    destruct (RemoveConfig_run P config_id s s' Hrun)
      as (_ & _ & _ & _ & Hds & Hact & _).
    destruct (RemoveConfig_rest config_id s s' Hrun)
      as (Hid & _ & _ & Hcons & _).
    split; [|exact Hid]. split; [|split].
    + intros other Hsome. rewrite Hds in Hsome. rewrite Hid.
      apply Hrange. destruct Hsome as [x Hx].
      apply lookup_delete_Some in Hx as [_ Hx]. exists x. exact Hx.
    + intros other Hin. rewrite Hact in Hin. rewrite Hds.
      apply elem_of_difference in Hin as [Hin Hne].
      rewrite elem_of_singleton in Hne.
      rewrite lookup_delete_ne by congruence. now apply Hactive.
    + now apply Hcons.
Qed.

End MuxerMore.

Lemma Demo_honours_tracing (old_atrace : bool) :
  honours_tracing (Demo.platform old_atrace).
Proof.
  split.
  - intros w. cbn. unfold Demo.perform.
    destruct (Demo.refuses w Call.DisableTracing); [discriminate|].
    reflexivity.
  - intros c w Hc. cbn. unfold Demo.perform.
    destruct (Demo.refuses w c); [reflexivity|].
    destruct c; try discriminate Hc; reflexivity.
Qed.

(** The first configuration of a fresh muxer. *)
Lemma SetupConfig_registers_witness :
  exists s',
    SetupConfig (Demo.platform false)
      (Demo.request ["sched/sched_switch"] ["sched"] ["com.example.app"])
      (Demo.start Demo.kernel0)
    = Some (1%N, s')
    /\ exists config,
         GetDataSourceConfig (mux s') 1 = Some config
         /\ FtraceDataSourceConfig.atrace_apps config = ["com.example.app"]
         /\ FtraceDataSourceConfig.atrace_categories config = ["sched"].
Proof.
  destruct (SetupConfig_registers (Demo.platform false)
              (Demo.request ["sched/sched_switch"] ["sched"]
                 ["com.example.app"])
              (Demo.start Demo.kernel0))
    as (id & s' & Hrun & Hstored).
  { apply muxer_invariant_initial. }
  assert (Hid : id = 1%N).
  { vm_compute in Hrun. now injection Hrun as <- _. }
  subst id. exists s'. split; [exact Hrun|].
  destruct Hstored as (_ & _ & _ & (config & Hget & Happs & Hcats & _) & _);
    [discriminate|].
  exists config. now repeat split.
Defined.

(** The second of two configurations is removed. *)
Lemma RemoveConfig_forgets_witness :
  exists s',
    RemoveConfig (Demo.platform false) 2 Demo.two_configs = Some (true, s')
    /\ GetDataSourceConfig (mux s') 2 = None
    /\ GetDataSourceConfig (mux s') 1
       = GetDataSourceConfig (mux Demo.two_configs) 1
    /\ RemoveConfig (Demo.platform false) 2 s' = Some (false, s')
    /\ ActivateConfig (Demo.platform false) 2 s' = Some (false, s').
Proof.
  destruct (RemoveConfig_forgets (Demo.platform false) 2 Demo.two_configs)
    as (s' & Hrun & Hgone & Hothers & _ & _ & Hagain & Hactivate).
  - discriminate.
  - apply (bool_decide_unpack _). vm_compute. exact I.
  - apply known_by_table. vm_compute. reflexivity.
  - exists s'. split; [exact Hrun|]. split; [exact Hgone|].
    split; [apply Hothers; discriminate|]. now split.
Defined.

(** The second of two configurations is removed: the buffer size stays. *)
Lemma RemoveConfig_calls_witness :
  exists s',
    RemoveConfig (Demo.platform false) 2 Demo.two_configs = Some (true, s')
    /\ performs (Demo.platform false) (remove_call false false)
         Demo.two_configs s'
    /\ GetPerCpuBufferSizePages (mux s')
       = GetPerCpuBufferSizePages (mux Demo.two_configs)
    /\ IsTracingEnabled (Demo.platform false) (kernel s')
       = IsTracingEnabled (Demo.platform false) (kernel Demo.two_configs).
Proof.
  destruct (RemoveConfig_calls (Demo.platform false) 2 Demo.two_configs)
    as (s' & Hrun & Hperf & Hcpu & _ & Htracing).
  - discriminate.
  - apply (bool_decide_unpack _). vm_compute. exact I.
  - apply known_by_table. vm_compute. reflexivity.
  - match type of Hperf with
    | performs _ (remove_call ?d ?l) _ _ =>
        assert (Hdeact : d = false) by (vm_compute; reflexivity);
        assert (Hlast : l = false) by (vm_compute; reflexivity)
    end.
    exists s'. split; [exact Hrun|].
    split; [|split; [exact (Hcpu Hlast)|
                     exact (Htracing (Demo_honours_tracing false) Hdeact)]].
    eapply performs_weaken; [|exact Hperf].
    intros c Hc. rewrite Hdeact, Hlast in Hc. exact Hc.
Defined.

(** The only configuration, which had a category and an app, is removed. *)
Lemma RemoveConfig_stops_atrace_witness :
  exists s' before,
    RemoveConfig (Demo.platform false) 1 one_category = Some (true, s')
    /\ log s'
       = before
           ++ [(Call.RunAtrace ["atrace"; "--async_stop"; "--only_userspace"],
                true)]
    /\ FtraceState.atrace_on (current_state_ (mux s')) = false
    /\ FtraceState.atrace_apps (current_state_ (mux s')) = [].
Proof.
  destruct (RemoveConfig_stops_atrace (Demo.platform false) 1 one_category)
    as (s' & before & r & Hrun & Hlog & Hyes & _).
  - discriminate.
  - apply (bool_decide_unpack _). vm_compute. exact I.
  - apply known_by_table. vm_compute. reflexivity.
  - reflexivity.
  - intros id config Hne Hget. exfalso.
    rewrite GetDataSourceConfig_lookup in Hget.
    rewrite <- (lookup_delete_ne _ 1%N id) in Hget by congruence.
    assert (Hempty : delete 1%N (ds_configs_ (mux one_category)) = ∅)
      by (apply (bool_decide_unpack _); vm_compute; exact I).
    rewrite Hempty, lookup_empty in Hget. discriminate Hget.
  - assert (Hr : r = true).
    { assert (Hlast : last (log s') = Some (Call.RunAtrace
                ["atrace"; "--async_stop"; "--only_userspace"], r))
        by (rewrite Hlog; apply last_snoc).
      vm_compute in Hrun. injection Hrun as <-.
      vm_compute in Hlast. now injection Hlast as <-. }
    subst r. exists s', before. split; [exact Hrun|].
    split; [exact Hlog|]. destruct (Hyes eq_refl) as (Hoff & Happs & _).
    now split.
Defined.

(** A first configuration on a constructed muxer. *)
Lemma muxer_invariant_kept_witness :
  exists id s',
    SetupConfig (Demo.platform false)
      (Demo.request ["sched/sched_switch"] ["sched"] [])
      (Demo.start Demo.kernel0)
    = Some (id, s')
    /\ muxer_invariant (mux s')
    /\ (0 <= last_id_ (mux s'))%N.
Proof.
  destruct (muxer_invariant_kept (Demo.platform false)
              (Demo.start Demo.kernel0))
    as (Hsetup & _ & _).
  - apply muxer_invariant_initial.
  - apply Hsetup.
Defined.

(** A fresh muxer is asked twice for the category [sched]. *)
Lemma UpdateAtrace_idempotent_witness :
  exists s',
    UpdateAtrace (Demo.platform false) (Demo.request [] ["sched"] [])
      (Demo.start Demo.kernel0) = Some (tt, s')
    /\ FtraceState.atrace_on (current_state_ (mux s')) = true
    /\ UpdateAtrace (Demo.platform false) (Demo.request [] ["sched"] []) s'
       = Some (tt, s').
Proof.
  apply (UpdateAtrace_idempotent (Demo.platform false)
           (Demo.request [] ["sched"] []) (Demo.start Demo.kernel0)).
  reflexivity.
Defined.

(** Of two configurations with categories the one that also asked for [gfx]
    is removed: atrace is launched again for [sched] alone. *)
Lemma RemoveConfig_relaunches_atrace_witness :
  exists s' before,
    RemoveConfig (Demo.platform false) 2 Demo.two_categories
    = Some (true, s')
    /\ log s'
       = before
           ++ [(Call.RunAtrace
                  ["atrace"; "--async_start"; "--only_userspace"; "sched"],
                true)]
    /\ FtraceState.atrace_on (current_state_ (mux s')) = true
    /\ FtraceState.atrace_categories (current_state_ (mux s')) = ["sched"].
Proof.
  destruct (RemoveConfig_relaunches_atrace (Demo.platform false) 2
              Demo.two_categories)
    as (s' & Hrun & Hyes & _).
  - discriminate.
  - apply (bool_decide_unpack _). vm_compute. exact I.
  - apply known_by_table. vm_compute. reflexivity.
  - reflexivity.
  - vm_compute. intros [_ Hbad]. discriminate Hbad.
  - destruct Hyes as (before & r & Hlog & Hok & _).
    { right. vm_compute. discriminate. }
    assert (Hargs : StartAtrace_args (Demo.platform false)
                      (intersected_apps
                         (current_state_ (mux Demo.two_categories))
                         (delete 2%N
                            (ds_configs_ (mux Demo.two_categories))))
                      (intersected_categories
                         (current_state_ (mux Demo.two_categories))
                         (delete 2%N
                            (ds_configs_ (mux Demo.two_categories))))
                    = ["atrace"; "--async_start"; "--only_userspace";
                       "sched"]) by (vm_compute; reflexivity).
    assert (Hcats : intersected_categories
                      (current_state_ (mux Demo.two_categories))
                      (delete 2%N (ds_configs_ (mux Demo.two_categories)))
                    = ["sched"]) by (vm_compute; reflexivity).
    rewrite Hargs in Hlog. rewrite Hcats in Hok.
    assert (Hr : r = true).
    { assert (Hlast : last (log s')
                      = Some (Call.RunAtrace
                                ["atrace"; "--async_start";
                                 "--only_userspace"; "sched"], r))
        by (rewrite Hlog; apply last_snoc).
      vm_compute in Hrun. injection Hrun as <-.
      vm_compute in Hlast. now injection Hlast as <-. }
    subst r. exists s', before. split; [exact Hrun|].
    split; [exact Hlog|]. destruct (Hok eq_refl) as (Hon & _ & Hc).
    now split.
Defined.

(** A first configuration on a kernel at rest: tracing stays off. *)
Lemma SetupConfig_calls_witness :
  exists id s',
    SetupConfig (Demo.platform false)
      (Demo.request ["sched/sched_switch"] ["sched"] [])
      (Demo.start Demo.kernel0)
    = Some (id, s')
    /\ IsTracingEnabled (Demo.platform false) (kernel s') = false.
Proof.
  destruct (SetupConfig_calls (Demo.platform false)
              (Demo.request ["sched/sched_switch"] ["sched"] [])
              (Demo.start Demo.kernel0))
    as (id & s' & Hrun & _ & _ & Htracing).
  exists id, s'. split; [exact Hrun|].
  now rewrite (Htracing (Demo_honours_tracing false)).
Defined.

(** A first configuration that leaves the buffer size to the default: 512
    pages of 4 KiB. *)
Lemma SetupConfig_state_witness :
  exists id s',
    SetupConfig (Demo.platform false)
      (Demo.request ["sched/sched_switch"] [] []) (Demo.start Demo.kernel0)
    = Some (id, s')
    /\ GetPerCpuBufferSizePages (mux s') = 512%N.
Proof.
  destruct (SetupConfig_state (Demo.platform false)
              (Demo.request ["sched/sched_switch"] [] [])
              (Demo.start Demo.kernel0))
    as (id & s' & Hrun & _ & _ & Hcpu & _).
  exists id, s'. split; [exact Hrun|].
  rewrite Hcpu; [reflexivity | reflexivity |].
  assert (Hid : Some id = Some 1%N).
  { apply (f_equal (option_map fst)) in Hrun. vm_compute in Hrun.
    now symmetry. }
  injection Hid as ->. discriminate.
Defined.

(** The only configuration is activated, twice. *)
Lemma ActivateConfig_spec_witness :
  exists s',
    ActivateConfig (Demo.platform false) 1 one_category = Some (true, s')
    /\ log s' = log one_category ++ [(Call.EnableTracing, true)]
    /\ ActivateConfig (Demo.platform false) 1 s' = Some (true, s').
Proof.
  destruct (ActivateConfig_spec (Demo.platform false) 1 one_category)
    as (ok & s' & Hrun & _ & Hwrites & _ & Hyes & _).
  assert (Hok : Some ok = Some true).
  { apply (f_equal (option_map fst)) in Hrun. vm_compute in Hrun.
    now symmetry. }
  injection Hok as ->. exists s'. split; [exact Hrun|].
  destruct Hwrites as (Hlog & _ & _); [vm_compute; reflexivity|].
  split; [exact Hlog|]. now destruct (Hyes eq_refl).
Defined.

Lemma Demo_accepts_events (old_atrace : bool) :
  accepts_events (Demo.platform old_atrace) Demo_agreeable.
Proof.
  split; [|split; [|split]].
  - reflexivity.
  - intros c w Hw c'. cbn. unfold Demo.perform. rewrite (Hw c).
    destruct c; exact (Hw c').
  - intros group name w Hw. cbn. unfold Demo.perform. now rewrite (Hw _).
  - intros path c w. cbn. unfold Demo.perform.
    destruct (Demo.refuses w c); [reflexivity|]. now destruct c.
Qed.

(** A first configuration that asks for two events and the category
    [sched]: its filter holds the ids 1, 2 and 3 of the small table, and the
    ids 2 and 3 are enabled; 1 is [ftrace/print]. *)
Lemma SetupConfig_filter_witness :
  exists s' config,
    SetupConfig (Demo.platform false)
      (Demo.request ["sched/sched_switch"; "sched/sched_waking"] ["sched"] [])
      (Demo.start Demo.kernel0)
    = Some (1%N, s')
    /\ GetDataSourceConfig (mux s') 1 = Some config
    /\ (forall e,
          e ∈ FtraceDataSourceConfig.event_filter config
          <-> table_id (Demo.platform false) Demo.events
                (requested_events (Demo.platform false)
                   (FtraceConfigMuxer ∅)
                   (Demo.request ["sched/sched_switch"; "sched/sched_waking"]
                      ["sched"] [])
                   Demo.events Demo.kernel0)
                (fun _ => true) e)
    /\ EventFilter.GetEnabledEvents
         (FtraceDataSourceConfig.event_filter config)
       = [1%N; 2%N; 3%N]
    /\ EventFilter.GetEnabledEvents
         (FtraceState.ftrace_events (current_state_ (mux s')))
       = [2%N; 3%N].
Proof.
  destruct (SetupConfig_filter (Demo.platform false) Demo_agreeable
              (Demo.request ["sched/sched_switch"; "sched/sched_waking"]
                 ["sched"] [])
              (Demo.start Demo.kernel0))
    as (id & s' & Hrun & Hstored).
  - apply Demo_accepts_events.
  - intros c. reflexivity.
  - apply muxer_invariant_initial.
  - assert (Hid : Some id = Some 1%N).
    { apply (f_equal (option_map fst)) in Hrun. vm_compute in Hrun.
      now symmetry. }
    injection Hid as ->.
    destruct Hstored as (config & Hget & Hfilter & _); [discriminate|].
    exists s', config. split; [exact Hrun|]. split; [exact Hget|].
    split; [exact Hfilter|].
    assert (Hs : Some s'
                 = option_map snd
                     (SetupConfig (Demo.platform false)
                        (Demo.request
                           ["sched/sched_switch"; "sched/sched_waking"]
                           ["sched"] [])
                        (Demo.start Demo.kernel0)))
      by now rewrite Hrun.
    vm_compute in Hs. injection Hs as ->.
    vm_compute in Hget. injection Hget as <-.
    split; vm_compute; reflexivity.
Defined.

(** ** The entry point of tracebox *)

Lemma file_name_bare (argv_0 : string) :
  contains_char "/" argv_0 = false -> file_name argv_0 = argv_0.
Proof.
  intros Hno. unfold file_name. now rewrite (find_last_of_none _ _ Hno).
Qed.

Lemma file_name_last (dir file : string) :
  contains_char "/" file = false ->
  file_name (dir ++ "/" ++ file)%string = file.
Proof.
  intros Hno. unfold file_name.
  change ("/" ++ file)%string with (String "/" file).
  rewrite (find_last_of_last "/" dir file Hno).
  rewrite length_append. cbn [String.length].
  replace (String.length dir + S (String.length file)
           - S (String.length dir)) with (String.length file) by lia.
  replace (dir ++ String "/" file)%string
    with ((dir ++ "/") ++ file)%string by (now rewrite append_assoc).
  replace (S (String.length dir))
    with (String.length (dir ++ "/")%string) by apply length_append_slash.
  rewrite substring_skip. apply substring_whole.
Qed.

Lemma find_applet_by_argument (applets : list string) (argv0 argv_0 name : string)
    (args : list string) :
  ~ In argv0 applets -> In name applets ->
  find_applet applets argv0 (argv_0 :: name :: args)
  = Some (RunApplet name (name :: args)).
Proof.
  induction applets as [| applet rest IH]; intros Hnot Hin; [destruct Hin|].
  cbn [find_applet].
  destruct (String.eqb_spec argv0 applet) as [-> | _];
    [exfalso; apply Hnot; now left|].
  destruct (String.eqb_spec name applet) as [-> | Hne]; [reflexivity|].
  apply IH.
  - intros Hbad. apply Hnot. now right.
  - destruct Hin as [Heq | Hin]; [congruence | exact Hin].
Qed.

Lemma find_applet_by_name (applets : list string) (name argv_0 : string)
    (args : list string) :
  In name applets -> no_applet_argument applets args ->
  find_applet applets name (argv_0 :: args)
  = Some (RunApplet name (argv_0 :: args)).
Proof.
  induction applets as [| applet rest IH]; intros Hin Hargs; [destruct Hin|].
  cbn [find_applet].
  destruct (String.eqb_spec name applet) as [-> | Hne]; [reflexivity|].
  assert (Hrest : In name rest)
    by (destruct Hin as [Heq | Hin]; [congruence | exact Hin]).
  destruct args as [| arg1 args]; [now apply IH|].
  cbn [no_applet_argument] in Hargs.
  destruct (String.eqb_spec arg1 applet) as [-> | _];
    [exfalso; apply Hargs; now left|].
  apply IH; [exact Hrest|]. cbn. intros Hbad. apply Hargs. now right.
Qed.

Lemma find_applet_none (applets : list string) (argv0 argv_0 : string)
    (args : list string) :
  ~ In argv0 applets -> no_applet_argument applets args ->
  find_applet applets argv0 (argv_0 :: args) = None.
Proof.
  induction applets as [| applet rest IH]; intros Hnot Hargs; [reflexivity|].
  cbn [find_applet].
  destruct (String.eqb_spec argv0 applet) as [-> | _];
    [exfalso; apply Hnot; now left|].
  assert (Hrest : ~ In argv0 rest)
    by (intros Hbad; apply Hnot; now right).
  destruct args as [| arg1 args]; [now apply IH|].
  cbn [no_applet_argument] in Hargs.
  destruct (String.eqb_spec arg1 applet) as [-> | _];
    [exfalso; apply Hargs; now left|].
  apply IH; [exact Hrest|]. cbn. intros Hbad. apply Hargs. now right.
Qed.

Lemma find_applet_earlier (before after : list string)
    (argv0 argv_0 name : string) (args : list string) :
  ~ In argv0 before -> argv0 <> name ->
  find_applet (before ++ name :: after) argv0 (argv_0 :: name :: args)
  = Some (RunApplet name (name :: args)).
Proof.
  intros Hnot Hne. induction before as [| applet rest IH].
  - cbn [app find_applet].
    destruct (String.eqb_spec argv0 name) as [Heq | _]; [contradiction|].
    now rewrite String.eqb_refl.
  - cbn [app find_applet].
    destruct (String.eqb_spec argv0 applet) as [-> | _];
      [exfalso; apply Hnot; now left|].
    destruct (String.eqb_spec name applet) as [-> | _]; [reflexivity|].
    apply IH. intros Hbad. apply Hnot. now right.
Qed.

(** X20. The mode that [TraceboxMain] chooses.  [argv0] is what follows the
    last slash of [argv[0]].  When [argv0] names no applet and [argv[1]]
    names one, that applet runs with the arguments from [argv[1]] on.  When
    [argv0] names an applet and [argv[1]] names none, that applet runs with
    all arguments.  The applets are tried in the order of the table, each
    against [argv0] and then against [argv[1]]: an applet that [argv[1]]
    names runs even when [argv0] names another one, if that one stands later
    in the table.  When neither names an applet, the usage is printed if
    there is no argument, and the autostart mode is entered otherwise. *)
Theorem TraceboxMain_modes (argv_0 : string) (args : list string) :
  let argv0 := file_name argv_0 in
  (forall dir file,
      contains_char "/" file = false ->
      argv_0 = (dir ++ "/" ++ file)%string -> argv0 = file)
  /\ (contains_char "/" argv_0 = false -> argv0 = argv_0)
  /\ (forall name rest,
        ~ In argv0 g_applets -> In name g_applets -> args = name :: rest ->
        TraceboxMain (argv_0 :: args) = Some (RunApplet name args))
  /\ (In argv0 g_applets -> no_applet_argument g_applets args ->
      TraceboxMain (argv_0 :: args)
      = Some (RunApplet argv0 (argv_0 :: args)))
  /\ (forall before name after rest,
        g_applets = before ++ name :: after ->
        ~ In argv0 before -> argv0 <> name -> args = name :: rest ->
        TraceboxMain (argv_0 :: args) = Some (RunApplet name args))
  /\ (~ In argv0 g_applets -> no_applet_argument g_applets args ->
      TraceboxMain (argv_0 :: args)
      = Some (match args with [] => Usage | _ => Autostart end)).
Proof.
  intros argv0. split; [|split; [|split; [|split; [|split]]]].
  - intros dir file Hno ->. now apply file_name_last.
  - apply file_name_bare.
  - intros name rest Hnot Hin ->. unfold TraceboxMain. fold argv0.
    now rewrite (find_applet_by_argument g_applets argv0 argv_0 name rest).
  - intros Hin Hargs. unfold TraceboxMain. fold argv0.
    now rewrite (find_applet_by_name g_applets argv0 argv_0 args).
  - intros before name after rest Htable Hnot Hne ->.
    unfold TraceboxMain. fold argv0.
    now rewrite Htable, (find_applet_earlier before after argv0).
  - intros Hnot Hargs. unfold TraceboxMain. fold argv0.
    rewrite (find_applet_none g_applets argv0 argv_0 args Hnot Hargs).
    now destruct args.
Qed.

(** [tracebox traced --help] runs [traced]; so does a link named [traced];
    a link named [perfetto] with the argument [traced] runs [traced] too;
    [tracebox] alone prints the usage. *)
Lemma TraceboxMain_modes_witness :
  TraceboxMain ["/usr/bin/tracebox"; "traced"; "--help"]
  = Some (RunApplet "traced" ["traced"; "--help"])
  /\ TraceboxMain [("/usr/bin" ++ "/" ++ "traced")%string; "--help"]
     = Some (RunApplet "traced"
               [("/usr/bin" ++ "/" ++ "traced")%string; "--help"])
  /\ TraceboxMain ["perfetto"; "traced"]
     = Some (RunApplet "traced" ["traced"])
  /\ TraceboxMain ["tracebox"] = Some Usage.
Proof.
  split; [|split; [|split]].
  - destruct (TraceboxMain_modes "/usr/bin/tracebox" ["traced"; "--help"])
      as (_ & _ & Hargument & _).
    apply (Hargument "traced" ["--help"]); [|now left | reflexivity].
    vm_compute. intros Hin. decompose [or] Hin; try discriminate; assumption.
  - destruct (TraceboxMain_modes ("/usr/bin" ++ "/" ++ "traced")%string
                ["--help"]) as (Hfile & _ & _ & Hname & _).
    rewrite (Hfile "/usr/bin" "traced" eq_refl eq_refl) in Hname.
    apply Hname; [now left|].
    cbn. intros Hin. decompose [or] Hin; try discriminate; assumption.
  - destruct (TraceboxMain_modes "perfetto" ["traced"])
      as (_ & _ & _ & _ & Hearlier & _).
    apply (Hearlier [] "traced" ["traced_probes"; "perfetto";
                                 "trigger_perfetto"] []);
      [reflexivity | intros [] | discriminate | reflexivity].
  - destruct (TraceboxMain_modes "tracebox" []) as (_ & _ & _ & _ & _ & Hnone).
    apply Hnone; [|exact I].
    vm_compute. intros Hin. decompose [or] Hin; try discriminate; assumption.
Defined.
